(** * Resource accounting and elastic rate limiting of the GST chain

    A shallow embedding of [libraries/chain/resource_limits.cpp] (with the
    declarations of [resource_limits.hpp]) and the properties the
    specification states about it.

    Conventions of the embedding.
    - A C++ integer is a [Z]; every operation that can wrap is written with
      its wrap-around ([u64], [u128], [i64]).  Signed 64-bit arithmetic is
      read as two's complement.
    - A chainbase table is the list of its rows in order of creation, which
      is the order of the primary (by id) index; the ordered unique index
      [by_owner] is searched by key.  The row identifier itself is not kept:
      no function of the manager reads it.
    - A member function of [resource_limits_manager] takes the database and
      gives an [outcome]: it returns, or it throws.  A thrown exception
      carries the database as it stands when the exception leaves the
      function whenever the source determines it; an exception raised inside
      a [modify] callback does not, since what becomes of the row under
      modification is the storage engine's business. *)

From Stdlib Require Import ZArith NArith List Bool Lia.
Import ListNotations.
Local Open Scope Z_scope.

(** ** Machine integers *)

Definition UINT64_MAX : Z := 2 ^ 64 - 1.
Definition INT64_MAX : Z := 2 ^ 63 - 1.
Definition INT64_MIN : Z := - 2 ^ 63.

(** Conversion to [uint64_t], [unsigned __int128] and [int64_t]. *)
Definition u64 (z : Z) : Z := z mod 2 ^ 64.
Definition u128 (z : Z) : Z := z mod 2 ^ 128.
Definition i64 (z : Z) : Z := (z + 2 ^ 63) mod 2 ^ 64 - 2 ^ 63.

Definition is_u64 (z : Z) : Prop := 0 <= z <= UINT64_MAX.
Definition is_i64 (z : Z) : Prop := INT64_MIN <= z <= INT64_MAX.

(** ** Data model *)

(** [account_name] is a 64-bit name value. *)
Definition account_name : Type := N.

Record ratio : Type := mk_ratio {
  numerator : Z;
  denominator : Z
}.

Record elastic_limit_parameters : Type := mk_elastic_limit_parameters {
  target : Z;
  max : Z;
  periods : Z;
  max_multiplier : Z;
  contract_rate : ratio;
  expand_rate : ratio
}.

Record account_resource_limit : Type := mk_account_resource_limit {
  used : Z;
  available : Z;
  arl_max : Z
}.

(** The rows of the six tables.  Their declarations are in
    [resource_limits_private.hpp]; the fields are the ones the manager
    reads and writes. *)

Record usage_accumulator : Type := mk_usage_accumulator {
  last_ordinal : Z;
  value_ex : Z;
  consumed : Z
}.

Record resource_limits_object : Type := mk_resource_limits_object {
  rl_owner : account_name;
  rl_pending : bool;
  net_weight : Z;
  cpu_weight : Z;
  ram_bytes : Z
}.

Record resource_usage_object : Type := mk_resource_usage_object {
  ru_owner : account_name;
  net_usage : usage_accumulator;
  cpu_usage : usage_accumulator;
  ram_usage : Z
}.

Record resource_gst_object : Type := mk_resource_gst_object {
  rg_owner : account_name;
  rg_pending : bool;
  gst_bytes : Z;
  gst_usage : Z
}.

Record resource_activation_gst_object : Type := mk_resource_activation_gst_object {
  ra_owner : account_name;
  ra_pending : bool;
  is_activation_flag : bool
}.

Record resource_limits_config_object : Type := mk_resource_limits_config_object {
  cpu_limit_parameters : elastic_limit_parameters;
  net_limit_parameters : elastic_limit_parameters;
  account_cpu_usage_average_window : Z;
  account_net_usage_average_window : Z
}.

Record resource_limits_state_object : Type := mk_resource_limits_state_object {
  average_block_net_usage : usage_accumulator;
  average_block_cpu_usage : usage_accumulator;
  pending_net_usage : Z;
  pending_cpu_usage : Z;
  total_net_weight : Z;
  total_cpu_weight : Z;
  total_ram_bytes : Z;
  virtual_net_limit : Z;
  virtual_cpu_limit : Z
}.

(** The database: one table per index of [resource_index_set], in the order
    of that type list. *)
Record database : Type := mk_database {
  resource_limits_index : list resource_limits_object;
  resource_usage_index : list resource_usage_object;
  resource_gst_index : list resource_gst_object;
  resource_activation_gst_index : list resource_activation_gst_object;
  resource_limits_state_index : list resource_limits_state_object;
  resource_limits_config_index : list resource_limits_config_object
}.

(** ** Failures

    One constructor per assertion of the manager, named after the kind the
    specification gives it; [exception_class] is the C++ exception the
    assertion throws.  [AccumulatorFailure] and [RowNotFound] stand for what
    the accumulator and [_db.get] throw, which is decided outside these
    sources. *)

Inductive failure : Type :=
| CpuUsageExceeded (a : account_name)
| NetUsageExceeded (a : account_name)
| BlockResourceExhausted
| RamUsageOverflow
| RamUsageUnderflow
| InsufficientGas
| GasNotProvisioned
| StateInconsistent
| AccumulatorFailure
| RowNotFound.

Inductive exception_class : Type :=
| tx_cpu_usage_exceeded
| tx_net_usage_exceeded
| block_resource_exhausted
| transaction_exception
| gstio_assert_message_exception
| rate_limiting_state_inconsistent
| other_exception.

Definition class_of (e : failure) : exception_class :=
  match e with
  | CpuUsageExceeded _ => tx_cpu_usage_exceeded
  | NetUsageExceeded _ => tx_net_usage_exceeded
  | BlockResourceExhausted => block_resource_exhausted
  | RamUsageOverflow | RamUsageUnderflow => transaction_exception
  | InsufficientGas | GasNotProvisioned => gstio_assert_message_exception
  | StateInconsistent => rate_limiting_state_inconsistent
  | AccumulatorFailure | RowNotFound => other_exception
  end.

Inductive outcome (A : Type) : Type :=
| Returned (a : A)
| Threw (e : failure) (d : database)
| ThrewInModify (e : failure).

Arguments Returned {A} a.
Arguments Threw {A} e d.
Arguments ThrewInModify {A} e.

Definition bind {A B : Type} (m : outcome A) (k : A -> outcome B) : outcome B :=
  match m with
  | Returned a => k a
  | Threw e d => Threw e d
  | ThrewInModify e => ThrewInModify e
  end.

Notation "x <- m ;; k" := (bind m (fun x => k))
  (at level 61, m at next level, right associativity).

(** ** The store interface on one table *)

Section Table.
Context {T : Type}.

(** [find]: the row of the unique index selected by the key test. *)
Fixpoint find_row (key : T -> bool) (l : list T) : option T :=
  match l with
  | [] => None
  | r :: t => if key r then Some r else find_row key t
  end.

(** [modify]: the row found is replaced by its modified copy. *)
Fixpoint modify_row (key : T -> bool) (f : T -> T) (l : list T) : list T :=
  match l with
  | [] => []
  | r :: t => if key r then f r :: t else r :: modify_row key f t
  end.

(** [remove]. *)
Fixpoint remove_row (key : T -> bool) (l : list T) : list T :=
  match l with
  | [] => []
  | r :: t => if key r then t else r :: remove_row key t
  end.

(** [create]: the new row takes the next identifier. *)
Definition create_row (r : T) (l : list T) : list T := l ++ [r].
End Table.

(** Keys of the [by_owner] indices. *)
Definition limits_key (pending : bool) (a : account_name) (r : resource_limits_object) : bool :=
  Bool.eqb (rl_pending r) pending && N.eqb (rl_owner r) a.
Definition usage_key (a : account_name) (r : resource_usage_object) : bool :=
  N.eqb (ru_owner r) a.
Definition gst_key (pending : bool) (a : account_name) (r : resource_gst_object) : bool :=
  Bool.eqb (rg_pending r) pending && N.eqb (rg_owner r) a.
Definition activation_key (pending : bool) (a : account_name)
    (r : resource_activation_gst_object) : bool :=
  Bool.eqb (ra_pending r) pending && N.eqb (ra_owner r) a.

(** Record updates. *)
Definition with_limits (l : list resource_limits_object) (d : database) : database :=
  mk_database l (resource_usage_index d) (resource_gst_index d)
    (resource_activation_gst_index d) (resource_limits_state_index d)
    (resource_limits_config_index d).
Definition with_usage (l : list resource_usage_object) (d : database) : database :=
  mk_database (resource_limits_index d) l (resource_gst_index d)
    (resource_activation_gst_index d) (resource_limits_state_index d)
    (resource_limits_config_index d).
Definition with_gst (l : list resource_gst_object) (d : database) : database :=
  mk_database (resource_limits_index d) (resource_usage_index d) l
    (resource_activation_gst_index d) (resource_limits_state_index d)
    (resource_limits_config_index d).
Definition with_activation (l : list resource_activation_gst_object) (d : database) : database :=
  mk_database (resource_limits_index d) (resource_usage_index d) (resource_gst_index d)
    l (resource_limits_state_index d) (resource_limits_config_index d).
Definition with_state (l : list resource_limits_state_object) (d : database) : database :=
  mk_database (resource_limits_index d) (resource_usage_index d) (resource_gst_index d)
    (resource_activation_gst_index d) l (resource_limits_config_index d).

(** [_db.get<resource_limits_state_object>()] and the same for the
    configuration: the row with identifier 0. *)
Definition get_state (d : database) : option resource_limits_state_object :=
  hd_error (resource_limits_state_index d).
Definition get_config (d : database) : option resource_limits_config_object :=
  hd_error (resource_limits_config_index d).
Definition modify_state (f : resource_limits_state_object -> resource_limits_state_object)
    (d : database) : database :=
  with_state (match resource_limits_state_index d with
              | [] => []
              | s :: t => f s :: t
              end) d.

(** [_db.get]: a missing row is an exception; the store is untouched. *)
Definition get {A : Type} (d : database) (o : option A) : outcome A :=
  match o with
  | Some a => Returned a
  | None => Threw RowNotFound d
  end.

(** [GST_ASSERT] between store operations. *)
Definition gst_assert (cond : bool) (e : failure) (d : database) : outcome unit :=
  if cond then Returned tt else Threw e d.

(** ** Elastic limit controller *)

(** Modelled from the spec: the product of a 64-bit value and a [ratio],
    [operator*] of [resource_limits_private.hpp], which is not part of these
    sources: "multiplication by a ratio is (x * numerator) / denominator in
    u128 space". *)
Definition ratio_mul (x : Z) (r : ratio) : Z :=
  u128 (x * numerator r) / denominator r.

Section Elastic.
(** [value * ratio], whatever its definition: the clamp does not depend
    on it. *)
Variable ratio_times : Z -> ratio -> Z.

Definition update_elastic_limit (current_limit average_usage : Z)
    (params : elastic_limit_parameters) : Z :=
  let result := current_limit in
  let result :=
    if average_usage >? target params
    then u64 (ratio_times result (contract_rate params))
    else u64 (ratio_times result (expand_rate params)) in
  Z.min (Z.max result (max params)) (u64 (max params * max_multiplier params)).
End Elastic.

(** ** Resource limits manager *)

Section Manager.
(** [config::rate_limiting_precision], positive by the [static_assert]. *)
Variable rate_limiting_precision : Z.
(** [name("gstio")], the owner of the activation row. *)
Variable gstio : account_name.
(** [usage_accumulator::add (units, ordinal, window_size)] of
    [resource_limits_private.hpp]; [None] when it throws. *)
Variable accumulator_add : usage_accumulator -> Z -> Z -> Z -> option usage_accumulator.

(** *** Reading limits *)

Definition get_account_limits (account : account_name) (d : database)
    : outcome (Z * Z * Z) :=
  match find_row (limits_key true account) (resource_limits_index d) with
  | Some pending_buo =>
      Returned (ram_bytes pending_buo, net_weight pending_buo, cpu_weight pending_buo)
  | None =>
      buo <- get d (find_row (limits_key false account) (resource_limits_index d)) ;;
      Returned (ram_bytes buo, net_weight buo, cpu_weight buo)
  end.

Definition is_activation (d : database) : bool :=
  match find_row (activation_key true gstio) (resource_activation_gst_index d) with
  | None => false
  | Some activation_gst =>
      if negb (is_activation_flag activation_gst) then false else true
  end.

(** *** add_transaction_usage *)

(** The quantities of one per-account check, in 128-bit arithmetic. *)
Definition used_in_window (value window_size : Z) : Z :=
  u128 (u128 value * window_size) / u128 rate_limiting_precision.

Definition max_user_use_in_window (virtual_limit window_size user_weight all_user_weight : Z) : Z :=
  let virtual_capacity_in_window := u128 (u128 virtual_limit * window_size) in
  u128 (virtual_capacity_in_window * user_weight) / all_user_weight.

Definition set_usage (net cpu : usage_accumulator) (bu : resource_usage_object)
    : resource_usage_object :=
  mk_resource_usage_object (ru_owner bu) net cpu (ram_usage bu).

(** The body of the loop over the authorizers ([cpu] and [net] are the
    arguments [cpu_usage] and [net_usage] of the call). *)
Definition charge_account (state : resource_limits_state_object)
    (config : resource_limits_config_object) (cpu net time_slot : Z)
    (a : account_name) (d : database) : outcome database :=
  usage <- get d (find_row (usage_key a) (resource_usage_index d)) ;;
  limits <- get_account_limits a d ;;
  let '(_, net_weight, cpu_weight) := limits in
  match accumulator_add (net_usage usage) net time_slot
          (account_net_usage_average_window config) with
  | None => ThrewInModify AccumulatorFailure
  | Some net' =>
  match accumulator_add (cpu_usage usage) cpu time_slot
          (account_cpu_usage_average_window config) with
  | None => ThrewInModify AccumulatorFailure
  | Some cpu' =>
      let d1 := with_usage (modify_row (usage_key a) (set_usage net' cpu')
                              (resource_usage_index d)) d in
      _ <- (if (cpu_weight >=? 0) && (total_cpu_weight state >? 0) then
              let window_size := u128 (account_cpu_usage_average_window config) in
              let cpu_used_in_window := used_in_window (value_ex cpu') window_size in
              let user_weight := u128 cpu_weight in
              let all_user_weight := u128 (total_cpu_weight state) in
              let max_use := max_user_use_in_window (virtual_cpu_limit state)
                               window_size user_weight all_user_weight in
              gst_assert (cpu_used_in_window <=? max_use) (CpuUsageExceeded a) d1
            else Returned tt) ;;
      _ <- (if (net_weight >=? 0) && (total_net_weight state >? 0) then
              let window_size := u128 (account_net_usage_average_window config) in
              let net_used_in_window := used_in_window (value_ex net') window_size in
              let user_weight := u128 net_weight in
              let all_user_weight := u128 (total_net_weight state) in
              let max_use := max_user_use_in_window (virtual_net_limit state)
                               window_size user_weight all_user_weight in
              gst_assert (net_used_in_window <=? max_use) (NetUsageExceeded a) d1
            else Returned tt) ;;
      Returned d1
  end
  end.

(** The loop [for (const auto& a : accounts)]: it stops at the first
    exception. *)
Fixpoint charge_accounts (state : resource_limits_state_object)
    (config : resource_limits_config_object) (cpu net time_slot : Z)
    (accounts : list account_name) (d : database) : outcome database :=
  match accounts with
  | [] => Returned d
  | a :: rest =>
      d1 <- charge_account state config cpu net time_slot a d ;;
      charge_accounts state config cpu net time_slot rest d1
  end.

Definition add_pending_usage (cpu net : Z) (rls : resource_limits_state_object)
    : resource_limits_state_object :=
  mk_resource_limits_state_object
    (average_block_net_usage rls) (average_block_cpu_usage rls)
    (u64 (pending_net_usage rls + net)) (u64 (pending_cpu_usage rls + cpu))
    (total_net_weight rls) (total_cpu_weight rls) (total_ram_bytes rls)
    (virtual_net_limit rls) (virtual_cpu_limit rls).

Definition add_transaction_usage (accounts : list account_name)
    (cpu net time_slot : Z) (d : database) : outcome database :=
  state <- get d (get_state d) ;;
  config <- get d (get_config d) ;;
  d1 <- charge_accounts state config cpu net time_slot accounts d ;;
  (* account for this transaction in the block *)
  let d2 := modify_state (add_pending_usage cpu net) d1 in
  state <- get d2 (get_state d2) ;;
  _ <- gst_assert (pending_cpu_usage state <=? max (cpu_limit_parameters config))
         BlockResourceExhausted d2 ;;
  _ <- gst_assert (pending_net_usage state <=? max (net_limit_parameters config))
         BlockResourceExhausted d2 ;;
  Returned d2.

(** *** add_pending_ram_usage *)

Definition set_ram_usage (v : Z) (u : resource_usage_object) : resource_usage_object :=
  mk_resource_usage_object (ru_owner u) (net_usage u) (cpu_usage u) v.

Definition set_gst_usage (v : Z) (limits : resource_gst_object) : resource_gst_object :=
  mk_resource_gst_object (rg_owner limits) (rg_pending limits) (gst_bytes limits) v.

(** The modifier of the pending gas row. *)
Definition charge_gst (ram_delta : Z) (limits : resource_gst_object) : resource_gst_object :=
  if i64 (i64 (gst_usage limits) + ram_delta) <? 0
  then set_gst_usage 0 limits
  else set_gst_usage (u64 (gst_usage limits + ram_delta)) limits.

Definition add_pending_ram_usage (account : account_name) (ram_delta : Z)
    (d : database) : outcome database :=
  if ram_delta =? 0 then Returned d else
  usage <- get d (find_row (usage_key account) (resource_usage_index d)) ;;
  _ <- gst_assert ((ram_delta <=? 0)
                   || (u64 (UINT64_MAX - ram_usage usage) >=? u64 ram_delta))
         RamUsageOverflow d ;;
  _ <- gst_assert ((ram_delta >=? 0)
                   || (ram_usage usage >=? u64 (i64 (- ram_delta))))
         RamUsageUnderflow d ;;
  let d1 := with_usage
              (modify_row (usage_key account)
                 (fun u => set_ram_usage (u64 (ram_usage u + ram_delta)) u)
                 (resource_usage_index d)) d in
  if is_activation d1 then
    match find_row (gst_key true account) (resource_gst_index d1) with
    | Some _ =>
        Returned (with_gst (modify_row (gst_key true account) (charge_gst ram_delta)
                              (resource_gst_index d1)) d1)
    | None =>
        Returned (with_gst
                    (create_row
                       (mk_resource_gst_object account true 0
                          (if ram_delta <? 0 then 0 else u64 ram_delta))
                       (resource_gst_index d1)) d1)
    end
  else Returned d1.

(** *** verify_account_gst_usage *)

Definition verify_account_gst_usage (account : account_name) (d : database)
    : outcome database :=
  match find_row (gst_key true account) (resource_gst_index d) with
  | None => Threw GasNotProvisioned d
  | Some pending_limits =>
      if gst_bytes pending_limits >=? 0 then
        _ <- gst_assert (u64 (gst_bytes pending_limits)
                         >=? u64 (gst_usage pending_limits + 100))
               InsufficientGas d ;;
        Returned (with_gst
                    (modify_row (gst_key true account)
                       (fun limits => set_gst_usage (u64 (gst_usage limits + 100)) limits)
                       (resource_gst_index d)) d)
      else Returned d
  end.

(** *** set_account_limits *)

Definition set_limits (ram net cpu : Z) (pending_limits : resource_limits_object)
    : resource_limits_object :=
  mk_resource_limits_object (rl_owner pending_limits) (rl_pending pending_limits)
    net cpu ram.

Definition find_or_create_pending_limits (account : account_name) (d : database)
    : outcome (resource_limits_object * database) :=
  match find_row (limits_key true account) (resource_limits_index d) with
  | None =>
      limits <- get d (find_row (limits_key false account) (resource_limits_index d)) ;;
      let pending_limits :=
        mk_resource_limits_object (rl_owner limits) true
          (net_weight limits) (cpu_weight limits) (ram_bytes limits) in
      Returned (pending_limits,
                with_limits (create_row pending_limits (resource_limits_index d)) d)
  | Some pending_limits => Returned (pending_limits, d)
  end.

Definition set_account_limits (account : account_name) (ram net cpu : Z)
    (d : database) : outcome (bool * database) :=
  found <- find_or_create_pending_limits account d ;;
  let '(limits, d1) := found in
  let decreased_limit :=
    if ram >=? 0 then (ram_bytes limits <? 0) || (ram <? ram_bytes limits) else false in
  Returned (decreased_limit,
            with_limits
              (modify_row (limits_key (rl_pending limits) (rl_owner limits))
                 (set_limits ram net cpu) (resource_limits_index d1)) d1).

(** *** set_gas_limits *)

Definition set_gas_limits (flag : bool) (d : database) : outcome database :=
  match find_row (activation_key true gstio) (resource_activation_gst_index d) with
  | None =>
      Returned (with_activation
                  (create_row (mk_resource_activation_gst_object gstio true true)
                     (resource_activation_gst_index d)) d)
  | Some _ =>
      Returned (with_activation
                  (modify_row (activation_key true gstio)
                     (fun gas => mk_resource_activation_gst_object
                                   (ra_owner gas) (ra_pending gas) flag)
                     (resource_activation_gst_index d)) d)
  end.
(** *** process_account_limit_updates *)

(** The local lambda [update_state_and_value]: the new [total] and the new
    [value], or [None] when one of its two assertions fails. *)
Definition update_state_and_value (total value pending_value : Z) : option (Z * Z) :=
  match (if value >? 0 then
           if total >=? u64 value then Some (u64 (total - value)) else None
         else Some total) with
  | None => None
  | Some total =>
      match (if pending_value >? 0 then
               if u64 (UINT64_MAX - total) >=? u64 pending_value
               then Some (u64 (total + pending_value)) else None
             else Some total) with
      | None => None
      | Some total => Some (total, pending_value)
      end
  end.

Definition set_totals (ram cpu net : Z) (rso : resource_limits_state_object)
    : resource_limits_state_object :=
  mk_resource_limits_state_object
    (average_block_net_usage rso) (average_block_cpu_usage rso)
    (pending_net_usage rso) (pending_cpu_usage rso)
    net cpu ram (virtual_net_limit rso) (virtual_cpu_limit rso).

(** The modifier of the committed row: the three calls of the lambda, on
    [ram_bytes], [cpu_weight] and [net_weight] in that order. *)
Definition commit_entry (itr rlo : resource_limits_object)
    (rso : resource_limits_state_object)
    : option (resource_limits_state_object * resource_limits_object) :=
  match update_state_and_value (total_ram_bytes rso) (ram_bytes rlo) (ram_bytes itr) with
  | None => None
  | Some (total_ram, ram) =>
  match update_state_and_value (total_cpu_weight rso) (cpu_weight rlo) (cpu_weight itr) with
  | None => None
  | Some (total_cpu, cpu) =>
  match update_state_and_value (total_net_weight rso) (net_weight rlo) (net_weight itr) with
  | None => None
  | Some (total_net, net) =>
      Some (set_totals total_ram total_cpu total_net rso,
            mk_resource_limits_object (rl_owner rlo) (rl_pending rlo) net cpu ram)
  end
  end
  end.

(** [by_owner_index.lower_bound(boost::make_tuple(true))]: the index is
    ordered by [(pending, owner)], so this is the pending row of least
    owner, if there is a pending row. *)
Fixpoint lower_bound_pending (l : list resource_limits_object)
    : option resource_limits_object :=
  match l with
  | [] => None
  | r :: t =>
      if rl_pending r then
        match lower_bound_pending t with
        | Some m => if (rl_owner m <? rl_owner r)%N then Some m else Some r
        | None => Some r
        end
      else lower_bound_pending t
  end.

(** The [while] loop inside the modifier of the state row.  [fuel] bounds
    the number of iterations; [None] means the bound was reached. *)
Fixpoint commit_loop (fuel : nat) (rso : resource_limits_state_object)
    (tbl : list resource_limits_object)
    : option (failure + resource_limits_state_object * list resource_limits_object) :=
  match fuel with
  | O => None
  | S fuel =>
      match tbl with
      | [] => Some (inr (rso, tbl))
      | _ :: _ =>
          match lower_bound_pending tbl with
          | None => Some (inr (rso, tbl))
          | Some itr =>
              match find_row (limits_key false (rl_owner itr)) tbl with
              | None => Some (inl RowNotFound)
              | Some actual_entry =>
                  match commit_entry itr actual_entry rso with
                  | None => Some (inl StateInconsistent)
                  | Some (rso, rlo) =>
                      commit_loop fuel rso
                        (remove_row (limits_key true (rl_owner itr))
                           (modify_row (limits_key false (rl_owner itr))
                              (fun _ => rlo) tbl))
                  end
              end
          end
      end
  end.

(** One iteration is spent per pending row and one to leave the loop, so
    the number of rows of the table plus one bounds the iterations. *)
Definition process_account_limit_updates (d : database) : option (outcome database) :=
  match get_state d with
  | None => Some (Threw RowNotFound d)
  | Some state =>
      match commit_loop (S (List.length (resource_limits_index d))) state
              (resource_limits_index d) with
      | None => None
      | Some (inl e) => Some (ThrewInModify e)
      | Some (inr (rso, tbl)) =>
          Some (Returned (modify_state (fun _ => rso) (with_limits tbl d)))
      end
  end.

(** *** Accessors *)

(** Modelled from the spec: [impl::integer_divide_ceil] of
    [resource_limits_private.hpp], "ceiling division". *)
Definition integer_divide_ceil (num den : Z) : Z :=
  num / den + (if num mod den >? 0 then 1 else 0).

(** Modelled from the spec: [impl::downgrade_cast<int64_t>] of
    [resource_limits_private.hpp] on a 128-bit unsigned value, "downcast
    to signed 64-bit; overflow in the cast is a fatal invariant
    violation". *)
Definition downgrade_cast (d : database) (val : Z) : outcome Z :=
  if (0 <=? val) && (val <=? INT64_MAX) then Returned val else Threw StateInconsistent d.

Definition get_account_cpu_limit_ex (name : account_name) (elastic : bool)
    (d : database) : outcome account_resource_limit :=
  state <- get d (get_state d) ;;
  usage <- get d (find_row (usage_key name) (resource_usage_index d)) ;;
  config <- get d (get_config d) ;;
  limits <- get_account_limits name d ;;
  let '(_, _, cpu_weight) := limits in
  if (cpu_weight <? 0) || (total_cpu_weight state =? 0) then
    Returned (mk_account_resource_limit (-1) (-1) (-1))
  else
    let window_size := u128 (account_cpu_usage_average_window config) in
    let user_weight := u128 cpu_weight in
    let all_user_weight := u128 (total_cpu_weight state) in
    let max_use :=
      max_user_use_in_window
        (if elastic then virtual_cpu_limit state else max (cpu_limit_parameters config))
        window_size user_weight all_user_weight in
    let cpu_used_in_window :=
      integer_divide_ceil (u128 (u128 (value_ex (cpu_usage usage)) * window_size))
        (u128 rate_limiting_precision) in
    arl_available <- (if max_use <=? cpu_used_in_window then Returned 0
                      else downgrade_cast d (max_use - cpu_used_in_window)) ;;
    arl_used <- downgrade_cast d cpu_used_in_window ;;
    arl_max <- downgrade_cast d max_use ;;
    Returned (mk_account_resource_limit arl_used arl_available arl_max).

Definition get_account_net_limit_ex (name : account_name) (elastic : bool)
    (d : database) : outcome account_resource_limit :=
  config <- get d (get_config d) ;;
  state <- get d (get_state d) ;;
  usage <- get d (find_row (usage_key name) (resource_usage_index d)) ;;
  limits <- get_account_limits name d ;;
  let '(_, net_weight, _) := limits in
  if (net_weight <? 0) || (total_net_weight state =? 0) then
    Returned (mk_account_resource_limit (-1) (-1) (-1))
  else
    let window_size := u128 (account_net_usage_average_window config) in
    let user_weight := u128 net_weight in
    let all_user_weight := u128 (total_net_weight state) in
    let max_use :=
      max_user_use_in_window
        (if elastic then virtual_net_limit state else max (net_limit_parameters config))
        window_size user_weight all_user_weight in
    let net_used_in_window :=
      integer_divide_ceil (u128 (u128 (value_ex (net_usage usage)) * window_size))
        (u128 rate_limiting_precision) in
    arl_available <- (if max_use <=? net_used_in_window then Returned 0
                      else downgrade_cast d (max_use - net_used_in_window)) ;;
    arl_used <- downgrade_cast d net_used_in_window ;;
    arl_max <- downgrade_cast d max_use ;;
    Returned (mk_account_resource_limit arl_used arl_available arl_max).
End Manager.

(** Modelled from the spec: [usage_accumulator::add] of
    [resource_limits_private.hpp], which is not part of these sources: "if
    ordinal > last_ordinal, decay value_ex by multiplying by
    max(0, W - delta)/W; add units * RATE_PRECISION / W to value_ex; store
    ordinal in last_ordinal and units in consumed".  The manager is
    verified for every accumulator; this one instantiates it. *)
Definition accumulator_add_spec (precision : Z) (acc : usage_accumulator)
    (units ordinal window_size : Z) : option usage_accumulator :=
  let decayed :=
    if ordinal >? last_ordinal acc
    then value_ex acc * Z.max 0 (window_size - (ordinal - last_ordinal acc)) / window_size
    else value_ex acc in
  Some (mk_usage_accumulator ordinal (decayed + units * precision / window_size) units).

(** ** Snapshot codec *)

(** The tables of [resource_index_set], under the names the specification
    gives to their sections. *)
Inductive index_name : Type :=
| ResourceLimits
| ResourceUsage
| GasBalance
| GasActivation
| ResourceState
| ResourceConfig.

(** A row handed to [section.add_row] or filled by [section.read_row]. *)
Inductive snapshot_row : Type :=
| limits_row (r : resource_limits_object)
| usage_row (r : resource_usage_object)
| gst_row (r : resource_gst_object)
| activation_row (r : resource_activation_gst_object)
| state_row (r : resource_limits_state_object)
| config_row (r : resource_limits_config_object).

(** Modelled from the spec: [index_set<...>::walk_indices] of
    [database_utils.hpp], which is not part of these sources; it visits the
    indices in the order of the type list [resource_index_set]: "one per
    table in a fixed order: ResourceLimits, ResourceUsage, GasBalance,
    GasActivation, ResourceState, ResourceConfig". *)
Definition walk_indices : list index_name :=
  [ResourceLimits; ResourceUsage; GasBalance; GasActivation; ResourceState; ResourceConfig].

(** Modelled from the spec: [index_utils<Index>::walk], "rows in each
    table's natural ordering". *)
Definition walk (i : index_name) (d : database) : list snapshot_row :=
  match i with
  | ResourceLimits => map limits_row (resource_limits_index d)
  | ResourceUsage => map usage_row (resource_usage_index d)
  | GasBalance => map gst_row (resource_gst_index d)
  | GasActivation => map activation_row (resource_activation_gst_index d)
  | ResourceState => map state_row (resource_limits_state_index d)
  | ResourceConfig => map config_row (resource_limits_config_index d)
  end.

Definition with_config (l : list resource_limits_config_object) (d : database) : database :=
  mk_database (resource_limits_index d) (resource_usage_index d) (resource_gst_index d)
    (resource_activation_gst_index d) (resource_limits_state_index d) l.

(** Modelled from the spec: [index_utils<Index>::create] with the row that
    [section.read_row] fills; a row of another table cannot be read into
    this one. *)
Definition create (i : index_name) (row : snapshot_row) (d : database) : option database :=
  match i, row with
  | ResourceLimits, limits_row r =>
      Some (with_limits (create_row r (resource_limits_index d)) d)
  | ResourceUsage, usage_row r =>
      Some (with_usage (create_row r (resource_usage_index d)) d)
  | GasBalance, gst_row r =>
      Some (with_gst (create_row r (resource_gst_index d)) d)
  | GasActivation, activation_row r =>
      Some (with_activation (create_row r (resource_activation_gst_index d)) d)
  | ResourceState, state_row r =>
      Some (with_state (create_row r (resource_limits_state_index d)) d)
  | ResourceConfig, config_row r =>
      Some (with_config (create_row r (resource_limits_config_index d)) d)
  | _, _ => None
  end.

Definition index_name_eqb (i j : index_name) : bool :=
  match i, j with
  | ResourceLimits, ResourceLimits
  | ResourceUsage, ResourceUsage
  | GasBalance, GasBalance
  | GasActivation, GasActivation
  | ResourceState, ResourceState
  | ResourceConfig, ResourceConfig => true
  | _, _ => false
  end.

Section Snapshot.
(** The sink and the source.  How a row is laid out in bytes is their
    business: [packed] is what the sink holds for one row, [add_row] packs a
    row into it and [read_row] unpacks one ([None] when it cannot). *)
Variable packed : Type.
Variable add_row : snapshot_row -> packed.
Variable read_row : packed -> option snapshot_row.

Record snapshot_section : Type := mk_snapshot_section {
  section_name : index_name;
  section_rows : list packed
}.

(** The snapshot: the sections in the order they were written. *)
Definition snapshot : Type := list snapshot_section.

(** [add_to_snapshot]: one [write_section] per index, one [add_row] per row
    of the walk. *)
Definition add_to_snapshot (d : database) : snapshot :=
  map (fun i => mk_snapshot_section i (map add_row (walk i d))) walk_indices.

(** Modelled from the spec: [snapshot->read_section<T>], which hands over
    the section written for the table. *)
Definition read_section (i : index_name) (s : snapshot) : option (list packed) :=
  option_map section_rows (find_row (fun sec => index_name_eqb (section_name sec) i) s).

(** The loop [bool more = !section.empty(); while(more) { create(... more =
    section.read_row(row, _db) ...) }] on the rows that remain in the
    section: one row is created per row read. *)
Fixpoint read_rows (i : index_name) (section : list packed) (d : database)
    : option database :=
  match section with
  | [] => Some d
  | p :: rest =>
      match read_row p with
      | Some row =>
          match create i row d with
          | Some d => read_rows i rest d
          | None => None
          end
      | None => None
      end
  end.

(** [read_from_snapshot]; [None] when a section is missing or a row cannot
    be read into its table. *)
Fixpoint read_sections (indices : list index_name) (s : snapshot) (d : database)
    : option database :=
  match indices with
  | [] => Some d
  | i :: rest =>
      match read_section i s with
      | Some section =>
          match read_rows i section d with
          | Some d => read_sections rest s d
          | None => None
          end
      | None => None
      end
  end.

Definition read_from_snapshot (s : snapshot) (d : database) : option database :=
  read_sections walk_indices s d.
End Snapshot.

Arguments section_name {packed} s.
Arguments section_rows {packed} s.

(** A store whose indices were added and hold no row yet. *)
Definition fresh_store : database := mk_database [] [] [] [] [] [].

(** ** Sample data *)

(** The parameters of a block resource as the chain ships them. *)
Definition sample_parameters : elastic_limit_parameters :=
  mk_elastic_limit_parameters 20000 200000 120 1000 (mk_ratio 99 100) (mk_ratio 1000 999).

(** Parameters that [validate] accepts, with a multiplier of zero. *)
Definition zero_multiplier_parameters : elastic_limit_parameters :=
  mk_elastic_limit_parameters 100 1000 60 0 (mk_ratio 99 100) (mk_ratio 1000 999).

Definition sample_precision : Z := 1000000.
Definition sample_gstio : account_name := 7%N.
Definition alice : account_name := 11%N.
Definition bob : account_name := 12%N.

Definition empty_accumulator : usage_accumulator := mk_usage_accumulator 0 0 0.

Definition sample_config : resource_limits_config_object :=
  mk_resource_limits_config_object
    (mk_elastic_limit_parameters 100 1000 60 1000 (mk_ratio 99 100) (mk_ratio 1000 999))
    (mk_elastic_limit_parameters 100 1000 60 1000 (mk_ratio 99 100) (mk_ratio 1000 999))
    60 60.

Definition sample_state : resource_limits_state_object :=
  mk_resource_limits_state_object empty_accumulator empty_accumulator 0 0 200 200 0 1000 1000.

(** Two accounts of weight 100 each; gas metering is on and [alice] holds a
    gas row. *)
Definition sample_store : database :=
  mk_database
    [mk_resource_limits_object alice false 100 100 (-1);
     mk_resource_limits_object bob false 100 100 (-1)]
    [mk_resource_usage_object alice empty_accumulator empty_accumulator 0;
     mk_resource_usage_object bob empty_accumulator empty_accumulator 1000]
    [mk_resource_gst_object alice true 1000 0]
    [mk_resource_activation_gst_object sample_gstio true true]
    [sample_state]
    [sample_config].

(** The same store with an unmetered gas row for [alice]. *)
Definition unmetered_gas_store : database :=
  with_gst [mk_resource_gst_object alice true (-1) 0] sample_store.


(** ** Sequences of calls and their intended totals *)

(** A caller that applies one RAM delta after the other to an account and
    stops at the first exception. *)
Fixpoint add_pending_ram_usages (gstio account : account_name) (deltas : list Z)
    (d : database) : outcome database :=
  match deltas with
  | [] => Returned d
  | ram_delta :: rest =>
      d1 <- add_pending_ram_usage gstio account ram_delta d ;;
      add_pending_ram_usages gstio account rest d1
  end.

(** The specification's "non-negative saturation of the prefix sum": the
    running sum that is lifted to zero each time it would go below. *)
Definition saturate (g ram_delta : Z) : Z := Z.max 0 (g + ram_delta).
Definition saturated_prefix_sum (g : Z) (deltas : list Z) : Z := fold_left saturate deltas g.

(** The deltas keep [ram_usage], started at [r], within [uint64_t]: none of
    the calls fails its overflow or underflow assertion. *)
Fixpoint ram_in_bounds (r : Z) (deltas : list Z) : Prop :=
  match deltas with
  | [] => True
  | x :: rest => 0 <= r + x <= UINT64_MAX /\ ram_in_bounds (r + x) rest
  end.

(** The deltas keep the signed sum [(int64_t)gst_usage + ram_delta], with
    [gst_usage] started at [g], within [int64_t]. *)
Fixpoint gst_in_bounds (g : Z) (deltas : list Z) : Prop :=
  match deltas with
  | [] => True
  | x :: rest => g + x <= INT64_MAX /\ gst_in_bounds (saturate g x) rest
  end.

Definition delta_ok (x : Z) : Prop := x <> 0 /\ is_i64 x.


(** ** The fair-share test as the specification words it *)


(** The sentinel of the accessors. *)
Definition unlimited : account_resource_limit := mk_account_resource_limit (-1) (-1) (-1).


(** ** Committed totals and well-formed limits tables *)

(** The key of a limits row in the unique index [by_owner]. *)
Definition limits_key_of (r : resource_limits_object) : bool * account_name :=
  (rl_pending r, rl_owner r).

(** "The sum of the non-negative committed values across accounts". *)
Definition committed_total (field : resource_limits_object -> Z)
    (tbl : list resource_limits_object) : Z :=
  fold_right (fun r acc => if rl_pending r then acc else Z.max 0 (field r) + acc) 0 tbl.

Definition totals_consistent (state : resource_limits_state_object)
    (tbl : list resource_limits_object) : Prop :=
  total_ram_bytes state = committed_total ram_bytes tbl
  /\ total_cpu_weight state = committed_total cpu_weight tbl
  /\ total_net_weight state = committed_total net_weight tbl.

Definition no_pending (tbl : list resource_limits_object) : Prop :=
  forall r, In r tbl -> rl_pending r = false.

(** The invariants of the limits table: the index is unique, a pending row
    stands beside the committed row of its owner, and the fields hold
    [int64_t] values. *)
Definition unique_keys (tbl : list resource_limits_object) : Prop :=
  NoDup (map limits_key_of tbl).

Definition pending_have_committed (tbl : list resource_limits_object) : Prop :=
  forall r, In r tbl -> rl_pending r = true ->
            find_row (limits_key false (rl_owner r)) tbl <> None.

Definition int64_row (r : resource_limits_object) : Prop :=
  is_i64 (ram_bytes r) /\ is_i64 (net_weight r) /\ is_i64 (cpu_weight r).

Definition limits_wf (tbl : list resource_limits_object) : Prop :=
  unique_keys tbl /\ pending_have_committed tbl /\ Forall int64_row tbl.

Definition totals_wf (state : resource_limits_state_object)
    (tbl : list resource_limits_object) : Prop :=
  totals_consistent state tbl
  /\ is_u64 (total_ram_bytes state) /\ is_u64 (total_cpu_weight state)
  /\ is_u64 (total_net_weight state).

(** The committed row that takes the values of a pending row. *)
Definition committed_copy (p : resource_limits_object) : resource_limits_object :=
  mk_resource_limits_object (rl_owner p) false (net_weight p) (cpu_weight p) (ram_bytes p).

(** One call of [set_account_limits]: the account and the three limits. *)
Record limits_call : Type := mk_limits_call {
  call_account : account_name;
  call_ram_bytes : Z;
  call_net_weight : Z;
  call_cpu_weight : Z
}.

Definition int64_call (c : limits_call) : Prop :=
  is_i64 (call_ram_bytes c) /\ is_i64 (call_net_weight c) /\ is_i64 (call_cpu_weight c).

(** A caller that sets the limits of one account after the other and stops
    at the first exception. *)
Fixpoint set_account_limits_all (calls : list limits_call) (d : database) : outcome database :=
  match calls with
  | [] => Returned d
  | c :: rest =>
      r <- set_account_limits (call_account c) (call_ram_bytes c) (call_net_weight c)
             (call_cpu_weight c) d ;;
      set_account_limits_all rest (snd r)
  end.


(** Two changes of limits staged on [sample_store]. *)
Definition sample_calls : list limits_call :=
  [mk_limits_call alice (-1) 100 50; mk_limits_call bob 4096 100 0].


(** ** The rest of the manager *)

(** [elastic_limit_parameters::validate]: the assertion that fails, if one
    does; all three throw [resource_limit_exception]. *)
Inductive parameter_failure : Type :=
| PeriodsZero
| ContractRateIllDefined
| ExpandRateIllDefined.

Definition validate (p : elastic_limit_parameters) : option parameter_failure :=
  if negb (periods p >? 0) then Some PeriodsZero
  else if negb (denominator (contract_rate p) >? 0) then Some ContractRateIllDefined
  else if negb (denominator (expand_rate p) >? 0) then Some ExpandRateIllDefined
  else None.

Definition modify_config (f : resource_limits_config_object -> resource_limits_config_object)
    (d : database) : database :=
  with_config (match resource_limits_config_index d with
               | [] => []
               | c :: t => f c :: t
               end) d.

(** [set_block_parameters]: [inl] when one of the two validations throws,
    which is before the store is read. *)
Definition set_block_parameters (cpu_limit_parameters net_limit_parameters
    : elastic_limit_parameters) (d : database) : parameter_failure + outcome database :=
  match validate cpu_limit_parameters with
  | Some e => inl e
  | None =>
      match validate net_limit_parameters with
      | Some e => inl e
      | None =>
          inr (config <- get d (get_config d) ;;
               Returned (modify_config
                           (fun c => mk_resource_limits_config_object
                                       cpu_limit_parameters net_limit_parameters
                                       (account_cpu_usage_average_window c)
                                       (account_net_usage_average_window c)) d))
      end
  end.

(** What [verify_account_ram_usage] throws: [ram_usage_exceeded], or one of
    the exceptions of [failure]. *)
Inductive verify_failure : Type :=
| RamUsageExceeded
| Manager (e : failure).

Section ManagerRest.
(** [config::rate_limiting_precision]. *)
Variable rate_limiting_precision : Z.
(** [name("gstio")] and [name("gstio.gas")]. *)
Variable gstio : account_name.
Variable gstio_gas : account_name.
(** [usage_accumulator::add] ([None] when it throws) and
    [usage_accumulator::average] of [resource_limits_private.hpp]. *)
Variable accumulator_add : usage_accumulator -> Z -> Z -> Z -> option usage_accumulator.
Variable accumulator_average : usage_accumulator -> Z.
(** [value * ratio] of [resource_limits_private.hpp]. *)
Variable ratio_times : Z -> ratio -> Z.
(** The rows as their constructors leave them, before the callback of
    [create] fills its fields: the declarations are in
    [resource_limits_private.hpp]. *)
Variable new_limits_object : resource_limits_object.
Variable new_usage_object : resource_usage_object.
Variable new_gst_object : resource_gst_object.
Variable new_config_object : resource_limits_config_object.
Variable new_state_object : resource_limits_state_object.

(** *** initialize_database and initialize_account *)

Definition set_virtual_limits (net cpu : Z) (s : resource_limits_state_object)
    : resource_limits_state_object :=
  mk_resource_limits_state_object
    (average_block_net_usage s) (average_block_cpu_usage s)
    (pending_net_usage s) (pending_cpu_usage s)
    (total_net_weight s) (total_cpu_weight s) (total_ram_bytes s) net cpu.

Definition initialize_database (d : database) : database :=
  let config := new_config_object in
  let d1 := with_config (create_row config (resource_limits_config_index d)) d in
  with_state
    (create_row
       (set_virtual_limits (max (net_limit_parameters config))
          (max (cpu_limit_parameters config)) new_state_object)
       (resource_limits_state_index d1)) d1.

(** Modelled from the spec: a [create] that the unique index [by_owner]
    refuses, "fails if either already present"; the exception is the
    storage engine's, so the model only says that there is one ([None]). *)
Definition initialize_account (account : account_name) (d : database) : option database :=
  let bl := mk_resource_limits_object account (rl_pending new_limits_object)
              (net_weight new_limits_object) (cpu_weight new_limits_object)
              (ram_bytes new_limits_object) in
  match find_row (limits_key (rl_pending bl) account) (resource_limits_index d) with
  | Some _ => None
  | None =>
      let d1 := with_limits (create_row bl (resource_limits_index d)) d in
      let bu := mk_resource_usage_object account (net_usage new_usage_object)
                  (cpu_usage new_usage_object) (ram_usage new_usage_object) in
      match find_row (usage_key account) (resource_usage_index d1) with
      | Some _ => None
      | None => Some (with_usage (create_row bu (resource_usage_index d1)) d1)
      end
  end.

(** *** update_account_usage *)

(** The body of the loop: the two accumulators are aged with no usage. *)
Definition age_account (config : resource_limits_config_object) (time_slot : Z)
    (a : account_name) (d : database) : outcome database :=
  usage <- get d (find_row (usage_key a) (resource_usage_index d)) ;;
  match accumulator_add (net_usage usage) 0 time_slot
          (account_net_usage_average_window config) with
  | None => ThrewInModify AccumulatorFailure
  | Some net' =>
      match accumulator_add (cpu_usage usage) 0 time_slot
              (account_cpu_usage_average_window config) with
      | None => ThrewInModify AccumulatorFailure
      | Some cpu' =>
          Returned (with_usage (modify_row (usage_key a) (set_usage net' cpu')
                                  (resource_usage_index d)) d)
      end
  end.

Fixpoint age_accounts (config : resource_limits_config_object) (time_slot : Z)
    (accounts : list account_name) (d : database) : outcome database :=
  match accounts with
  | [] => Returned d
  | a :: rest =>
      d1 <- age_account config time_slot a d ;;
      age_accounts config time_slot rest d1
  end.

Definition update_account_usage (accounts : list account_name) (time_slot : Z)
    (d : database) : outcome database :=
  config <- get d (get_config d) ;;
  age_accounts config time_slot accounts d.

(** *** verify_account_ram_usage *)

(** [None] when the function returns. *)
Definition verify_account_ram_usage (account : account_name) (d : database)
    : option verify_failure :=
  match get_account_limits account d with
  | Threw e _ | ThrewInModify e => Some (Manager e)
  | Returned (ram_bytes, _, _) =>
      match find_row (usage_key account) (resource_usage_index d) with
      | None => Some (Manager RowNotFound)
      | Some usage =>
          if (ram_bytes >=? 0) && negb (ram_usage usage <=? u64 ram_bytes)
          then Some RamUsageExceeded
          else if is_activation gstio d then
            match find_row (gst_key true account) (resource_gst_index d) with
            | Some pending_limits =>
                if (gst_bytes pending_limits >=? 0)
                   && negb (N.eqb (rg_owner pending_limits) gstio_gas)
                   && negb (N.eqb (rg_owner pending_limits) gstio)
                then
                  if gst_usage pending_limits <=? u64 (gst_bytes pending_limits)
                  then None else Some (Manager InsufficientGas)
                else None
            | None =>
                if N.eqb gstio_gas account then None
                else Some (Manager GasNotProvisioned)
            end
          else None
      end
  end.

(** *** get_account_ram_usage *)

Definition get_account_ram_usage (name : account_name) (d : database) : outcome Z :=
  usage <- get d (find_row (usage_key name) (resource_usage_index d)) ;;
  Returned (i64 (ram_usage usage)).

(** *** set_gst_limits *)

Definition set_gst_bytes (v : Z) (pending_limits : resource_gst_object) : resource_gst_object :=
  mk_resource_gst_object (rg_owner pending_limits) (rg_pending pending_limits) v
    (gst_usage pending_limits).

Definition set_gst_limits (account : account_name) (gst_bytes' : Z) (d : database)
    : outcome (bool * database) :=
  let found :=
    match find_row (gst_key true account) (resource_gst_index d) with
    | None =>
        let pending_limits :=
          mk_resource_gst_object account true gst_bytes' (gst_usage new_gst_object) in
        (pending_limits, with_gst (create_row pending_limits (resource_gst_index d)) d)
    | Some pending_limits => (pending_limits, d)
    end in
  let '(limits, d1) := found in
  _ <- (if gst_bytes limits >? gst_bytes'
        then gst_assert (u64 gst_bytes' >=? gst_usage limits) InsufficientGas d1
        else Returned tt) ;;
  let decreased_limit :=
    if gst_bytes' >=? 0
    then (gst_bytes limits <? 0) || (gst_bytes' <? gst_bytes limits) else false in
  Returned (decreased_limit,
            with_gst (modify_row (gst_key (rg_pending limits) (rg_owner limits))
                        (set_gst_bytes gst_bytes') (resource_gst_index d1)) d1).

(** *** get_account_limits2 *)

Definition get_account_limits2 (account : account_name) (d : database) : Z :=
  match find_row (gst_key true account) (resource_gst_index d) with
  | Some limits1 =>
      let ram_bytes := i64 (u64 (gst_bytes limits1 - gst_usage limits1)) in
      if ram_bytes <? 0 then 0 else ram_bytes
  | None => 0
  end.

(** *** process_block_usage *)

Definition process_block_usage (block_num : Z) (d : database) : outcome database :=
  s <- get d (get_state d) ;;
  config <- get d (get_config d) ;;
  match accumulator_add (average_block_cpu_usage s) (pending_cpu_usage s) block_num
          (periods (cpu_limit_parameters config)) with
  | None => ThrewInModify AccumulatorFailure
  | Some average_cpu =>
      let virtual_cpu :=
        update_elastic_limit ratio_times (virtual_cpu_limit s)
          (accumulator_average average_cpu) (cpu_limit_parameters config) in
      match accumulator_add (average_block_net_usage s) (pending_net_usage s) block_num
              (periods (net_limit_parameters config)) with
      | None => ThrewInModify AccumulatorFailure
      | Some average_net =>
          let virtual_net :=
            update_elastic_limit ratio_times (virtual_net_limit s)
              (accumulator_average average_net) (net_limit_parameters config) in
          Returned (modify_state
                      (fun state =>
                         mk_resource_limits_state_object average_net average_cpu 0 0
                           (total_net_weight state) (total_cpu_weight state)
                           (total_ram_bytes state) virtual_net virtual_cpu) d)
      end
  end.

(** *** Accessors *)

Definition get_virtual_block_cpu_limit (d : database) : outcome Z :=
  state <- get d (get_state d) ;; Returned (virtual_cpu_limit state).

Definition get_virtual_block_net_limit (d : database) : outcome Z :=
  state <- get d (get_state d) ;; Returned (virtual_net_limit state).

Definition get_block_cpu_limit (d : database) : outcome Z :=
  state <- get d (get_state d) ;;
  config <- get d (get_config d) ;;
  Returned (u64 (max (cpu_limit_parameters config) - pending_cpu_usage state)).

Definition get_block_net_limit (d : database) : outcome Z :=
  state <- get d (get_state d) ;;
  config <- get d (get_config d) ;;
  Returned (u64 (max (net_limit_parameters config) - pending_net_usage state)).

Definition get_account_cpu_limit (name : account_name) (elastic : bool) (d : database)
    : outcome Z :=
  arl <- get_account_cpu_limit_ex rate_limiting_precision name elastic d ;;
  Returned (available arl).

Definition get_account_net_limit (name : account_name) (elastic : bool) (d : database)
    : outcome Z :=
  arl <- get_account_net_limit_ex rate_limiting_precision name elastic d ;;
  Returned (available arl).
End ManagerRest.


(** ** Frames *)

(** Between [d] and [d'] the usage table kept its rows, their owners and
    their [ram_usage]; it may differ in the accumulators only. *)
Definition same_ram_usage (d d' : database) : Prop :=
  map ru_owner (resource_usage_index d') = map ru_owner (resource_usage_index d)
  /\ map ram_usage (resource_usage_index d') = map ram_usage (resource_usage_index d).


(** A caller that creates one account after the other; [None] as soon as
    the store refuses a row. *)
Fixpoint initialize_accounts (new_limits_object : resource_limits_object)
    (new_usage_object : resource_usage_object) (accounts : list account_name)
    (d : database) : option database :=
  match accounts with
  | [] => Some d
  | a :: rest =>
      match initialize_account new_limits_object new_usage_object a d with
      | Some d1 => initialize_accounts new_limits_object new_usage_object rest d1
      | None => None
      end
  end.

(** The rows as the chain declares them: limits of -1 (unlimited), nothing
    pending, nothing used. *)
Definition sample_new_limits : resource_limits_object :=
  mk_resource_limits_object 0%N false (-1) (-1) (-1).
Definition sample_new_usage : resource_usage_object :=
  mk_resource_usage_object 0%N empty_accumulator empty_accumulator 0.
Definition sample_new_state : resource_limits_state_object :=
  mk_resource_limits_state_object empty_accumulator empty_accumulator 0 0 0 0 0 0 0.

(** The account has neither a committed limits row nor a usage row. *)
Definition account_is_new (a : account_name) (d : database) : Prop :=
  find_row (limits_key false a) (resource_limits_index d) = None
  /\ find_row (usage_key a) (resource_usage_index d) = None.


(** * Properties *)

(** ** Machine integers *)

Ltac int_consts :=
  unfold is_u64, is_i64, UINT64_MAX, INT64_MAX, INT64_MIN, u64, u128, i64 in *;
  change (2 ^ 128) with 340282366920938463463374607431768211456 in *;
  change (2 ^ 64) with 18446744073709551616 in *;
  change (2 ^ 63) with 9223372036854775808 in *.

Lemma u64_small (z : Z) : is_u64 z -> u64 z = z.
Proof. intros H. int_consts. apply Z.mod_small. lia. Qed.

Lemma i64_small (z : Z) : is_i64 z -> i64 z = z.
Proof.
  intros H. int_consts. rewrite Z.mod_small by lia. lia.
Qed.

Lemma u64_i64 (z : Z) : u64 (i64 z) = u64 z.
Proof.
  int_consts.
  rewrite Zminus_mod_idemp_l. f_equal. lia.
Qed.

(** ** Tables *)

Section TableFacts.
Context {T : Type}.
Implicit Types (key : T -> bool) (l : list T).

Lemma find_row_some key l r : find_row key l = Some r -> In r l /\ key r = true.
Proof.
  induction l as [|x t IH]; simpl; [discriminate|].
  destruct (key x) eqn:K.
  - intros [= ->]. auto.
  - intros H. destruct (IH H). auto.
Qed.

(** Reading the row that was just modified, when the modifier keeps the key. *)
Lemma find_row_modify_same key f l :
  (forall r, key r = true -> key (f r) = true) ->
  find_row key (modify_row key f l) = option_map f (find_row key l).
Proof.
  intros Hf. induction l as [|x t IH]; simpl; [reflexivity|].
  destruct (key x) eqn:K; simpl.
  - rewrite (Hf _ K). reflexivity.
  - rewrite K. exact IH.
Qed.

(** Reading under another key, when neither the row modified nor its
    replacement has that key. *)
Lemma find_row_modify_other key key' f l :
  (forall r, key r = true -> key' r = false /\ key' (f r) = false) ->
  find_row key' (modify_row key f l) = find_row key' l.
Proof.
  intros Hf. induction l as [|x t IH]; simpl; [reflexivity|].
  destruct (key x) eqn:K; simpl.
  - destruct (Hf _ K) as [-> ->]. reflexivity.
  - destruct (key' x); [reflexivity|exact IH].
Qed.

Lemma find_row_create key r l :
  find_row key (create_row r l) =
  match find_row key l with
  | Some x => Some x
  | None => if key r then Some r else None
  end.
Proof.
  unfold create_row. induction l as [|x t IH]; simpl.
  - destruct (key r); reflexivity.
  - destruct (key x); [reflexivity|exact IH].
Qed.

Lemma find_row_remove_other key key' l :
  (forall r, key r = true -> key' r = false) ->
  find_row key' (remove_row key l) = find_row key' l.
Proof.
  intros Hk. induction l as [|x t IH]; simpl; [reflexivity|].
  destruct (key x) eqn:K; simpl.
  - rewrite (Hk _ K). reflexivity.
  - destruct (key' x); [reflexivity|exact IH].
Qed.

Lemma modify_row_length key f l : List.length (modify_row key f l) = List.length l.
Proof.
  induction l as [|x t IH]; simpl; [reflexivity|].
  destruct (key x); simpl; congruence.
Qed.

Lemma remove_row_length key l r :
  find_row key l = Some r -> S (List.length (remove_row key l)) = List.length l.
Proof.
  induction l as [|x t IH]; simpl; [discriminate|].
  destruct (key x); simpl; [reflexivity|].
  intros H. rewrite (IH H). reflexivity.
Qed.
End TableFacts.

(** ** Elastic limit controller *)

(** C2 (counterexample).  With a [max_multiplier] of zero, which
    [elastic_limit_parameters::validate] accepts, the upper clamp is zero
    and the returned limit is below [params.max]. *)
Lemma update_elastic_limit_below_max :
  update_elastic_limit ratio_mul 1000 0 zero_multiplier_parameters = 0
  /\ ~ (max zero_multiplier_parameters
        <= update_elastic_limit ratio_mul 1000 0 zero_multiplier_parameters
        <= max zero_multiplier_parameters * max_multiplier zero_multiplier_parameters).
Proof.
  split; [reflexivity|].
  change (update_elastic_limit ratio_mul 1000 0 zero_multiplier_parameters) with 0.
  simpl. lia.
Qed.

(** C2 (amended).  Whenever [params.max <= params.max * params.max_multiplier]
    and that product fits in 64 bits, [update_elastic_limit] returns the
    product of the current limit with [contract_rate] (when the average
    exceeds [params.target]) or with [expand_rate] (otherwise), clamped to
    [[params.max, params.max * params.max_multiplier]]: the result lies in
    that interval and is never below the nominal block max. *)
Theorem update_elastic_limit_clamped (ratio_times : Z -> ratio -> Z)
    (current_limit average_usage : Z) (params : elastic_limit_parameters) :
  0 <= max params ->
  max params <= max params * max_multiplier params <= UINT64_MAX ->
  update_elastic_limit ratio_times current_limit average_usage params
  = Z.min (Z.max (u64 (ratio_times current_limit
                         (if average_usage >? target params
                          then contract_rate params else expand_rate params)))
                 (max params))
          (max params * max_multiplier params)
  /\ max params
     <= update_elastic_limit ratio_times current_limit average_usage params
     <= max params * max_multiplier params.
Proof.
  intros Hmax Hprod. unfold update_elastic_limit.
  rewrite (u64_small (max params * max_multiplier params)) by (unfold is_u64; lia).
  destruct (average_usage >? target params); split; try reflexivity; lia.
Qed.

Lemma update_elastic_limit_clamped_witness :
  max sample_parameters
  <= update_elastic_limit ratio_mul 200000 30000 sample_parameters
  <= max sample_parameters * max_multiplier sample_parameters.
Proof.
  apply (update_elastic_limit_clamped ratio_mul 200000 30000 sample_parameters).
  - simpl. lia.
  - unfold UINT64_MAX. simpl. lia.
Defined.

(** ** add_pending_ram_usage *)

(** C10.  A zero delta returns at once: the call succeeds and the database
    it leaves is the database it was given, whatever the account, with or
    without a usage row, with gas metering on or off; in particular no gas
    row is created or modified. *)
Theorem add_pending_ram_usage_zero (gstio account : account_name) (d : database) :
  add_pending_ram_usage gstio account 0 d = Returned d.
Proof. reflexivity. Qed.

Lemma gst_key_charge_gst (p : bool) (a : account_name) (x : Z) (g : resource_gst_object) :
  gst_key p a (charge_gst x g) = gst_key p a g.
Proof. unfold charge_gst. destruct (_ <? 0); reflexivity. Qed.

(** What a call with a non-zero delta does once its two assertions pass. *)
Lemma add_pending_ram_usage_passes (gstio account : account_name) (ram_delta : Z)
    (d : database) (usage : resource_usage_object) :
  find_row (usage_key account) (resource_usage_index d) = Some usage ->
  is_u64 (ram_usage usage) -> is_i64 ram_delta -> ram_delta <> 0 ->
  0 <= ram_usage usage + ram_delta <= UINT64_MAX ->
  let d1 := with_usage
              (modify_row (usage_key account)
                 (fun u => set_ram_usage (u64 (ram_usage u + ram_delta)) u)
                 (resource_usage_index d)) d in
  add_pending_ram_usage gstio account ram_delta d =
  if is_activation gstio d then
    match find_row (gst_key true account) (resource_gst_index d) with
    | Some _ =>
        Returned (with_gst (modify_row (gst_key true account) (charge_gst ram_delta)
                              (resource_gst_index d)) d1)
    | None =>
        Returned (with_gst
                    (create_row
                       (mk_resource_gst_object account true 0
                          (if ram_delta <? 0 then 0 else u64 ram_delta))
                       (resource_gst_index d)) d1)
    end
  else Returned d1.
Proof.
  intros Hfind Hu Hd Hnz Hsum d1. unfold add_pending_ram_usage.
  destruct (Z.eqb_spec ram_delta 0) as [|_]; [contradiction|].
  rewrite Hfind. cbn [get bind].
  assert (Hover : (ram_delta <=? 0) || (u64 (UINT64_MAX - ram_usage usage) >=? u64 ram_delta)
                  = true).
  { destruct (Z.leb_spec ram_delta 0) as [|Hpos]; [reflexivity|]. cbn [orb].
    rewrite !u64_small by (int_consts; lia). int_consts. lia. }
  assert (Hunder : (ram_delta >=? 0) || (ram_usage usage >=? u64 (i64 (- ram_delta))) = true).
  { destruct (Z.geb_spec ram_delta 0) as [|Hneg]; [reflexivity|]. cbn [orb].
    rewrite u64_i64, u64_small by (int_consts; lia). lia. }
  rewrite Hover, Hunder. cbn [gst_assert bind]. reflexivity.
Qed.

(** C4.  With the usage row of the account at hand, a positive delta that
    would take [ram_usage] past [UINT64_MAX] fails with [RamUsageOverflow],
    a negative delta larger than [ram_usage] fails with
    [RamUsageUnderflow], both leaving the database (so [ram_usage]) as it
    was; every other call returns and leaves [ram_usage + ram_delta] in the
    row. *)
Theorem add_pending_ram_usage_bounds (gstio account : account_name) (ram_delta : Z)
    (d : database) (usage : resource_usage_object) :
  find_row (usage_key account) (resource_usage_index d) = Some usage ->
  is_u64 (ram_usage usage) ->
  is_i64 ram_delta ->
  (ram_delta > 0 -> ram_usage usage + ram_delta > UINT64_MAX ->
   add_pending_ram_usage gstio account ram_delta d = Threw RamUsageOverflow d)
  /\ (ram_delta < 0 -> ram_usage usage < - ram_delta ->
      add_pending_ram_usage gstio account ram_delta d = Threw RamUsageUnderflow d)
  /\ (0 <= ram_usage usage + ram_delta <= UINT64_MAX ->
      exists d' usage',
        add_pending_ram_usage gstio account ram_delta d = Returned d'
        /\ find_row (usage_key account) (resource_usage_index d') = Some usage'
        /\ ram_usage usage' = ram_usage usage + ram_delta).
Proof.
  intros Hfind Hu Hd. repeat split.
  - intros Hpos Hover. unfold add_pending_ram_usage.
    destruct (Z.eqb_spec ram_delta 0); [lia|]. rewrite Hfind. cbn [get bind].
    destruct (Z.leb_spec ram_delta 0); [lia|]. cbn [orb].
    rewrite !u64_small by (int_consts; lia).
    destruct (Z.geb_spec (UINT64_MAX - ram_usage usage) ram_delta); [lia|]. reflexivity.
  - intros Hneg Hunder. unfold add_pending_ram_usage.
    destruct (Z.eqb_spec ram_delta 0); [lia|]. rewrite Hfind. cbn [get bind].
    destruct (Z.leb_spec ram_delta 0); [|lia]. cbn [orb gst_assert bind].
    destruct (Z.geb_spec ram_delta 0); [lia|]. cbn [orb].
    rewrite u64_i64, u64_small by (int_consts; lia).
    destruct (Z.geb_spec (ram_usage usage) (- ram_delta)); [lia|]. reflexivity.
  - intros Hsum. destruct (Z.eq_dec ram_delta 0) as [->|Hnz].
    + exists d, usage. split; [reflexivity|]. split; [assumption|lia].
    + exists
        (match add_pending_ram_usage gstio account ram_delta d with
         | Returned d' => d' | _ => d end),
        (set_ram_usage (ram_usage usage + ram_delta) usage).
      rewrite (add_pending_ram_usage_passes gstio account ram_delta d usage) by assumption.
      assert (Hrow : find_row (usage_key account)
                       (modify_row (usage_key account)
                          (fun u => set_ram_usage (u64 (ram_usage u + ram_delta)) u)
                          (resource_usage_index d))
                     = Some (set_ram_usage (ram_usage usage + ram_delta) usage)).
      { rewrite find_row_modify_same by (intros; assumption).
        rewrite Hfind. cbn [option_map]. rewrite u64_small by exact Hsum. reflexivity. }
      destruct (is_activation gstio d);
        [destruct (find_row (gst_key true account) (resource_gst_index d))|];
        repeat split; exact Hrow.
Qed.

Lemma add_pending_ram_usage_bounds_witness :
  add_pending_ram_usage sample_gstio alice (-5) sample_store = Threw RamUsageUnderflow sample_store.
Proof.
  refine (proj1 (proj2 (add_pending_ram_usage_bounds sample_gstio alice (-5) sample_store
                          (mk_resource_usage_object alice empty_accumulator empty_accumulator 0)
                          _ _ _)) _ _).
  - reflexivity.
  - unfold is_u64, UINT64_MAX. simpl. lia.
  - unfold is_i64, INT64_MIN, INT64_MAX. simpl. lia.
  - lia.
  - simpl. lia.
Defined.

(** The modifier of the gas row is the addition saturating at zero, as long
    as the signed sum it tests is a 64-bit value. *)
Lemma charge_gst_saturates (x : Z) (g : resource_gst_object) :
  0 <= gst_usage g <= INT64_MAX -> is_i64 x -> gst_usage g + x <= INT64_MAX ->
  charge_gst x g = set_gst_usage (saturate (gst_usage g) x) g.
Proof.
  intros Hg Hx Hsum. unfold charge_gst, saturate.
  rewrite (i64_small (gst_usage g)) by (int_consts; lia).
  rewrite i64_small by (int_consts; lia).
  destruct (Z.ltb_spec (gst_usage g + x) 0).
  - f_equal. lia.
  - rewrite u64_small by (int_consts; lia). f_equal. lia.
Qed.

Lemma saturate_range (g x : Z) :
  0 <= g <= INT64_MAX -> g + x <= INT64_MAX -> 0 <= saturate g x <= INT64_MAX.
Proof. unfold saturate. int_consts. lia. Qed.

(** One call on an account that holds a gas row. *)
Lemma add_pending_ram_usage_gas_row (gstio account : account_name) (ram_delta : Z)
    (d : database) (usage : resource_usage_object) (g : resource_gst_object) :
  is_activation gstio d = true ->
  find_row (usage_key account) (resource_usage_index d) = Some usage ->
  is_u64 (ram_usage usage) ->
  delta_ok ram_delta ->
  0 <= ram_usage usage + ram_delta <= UINT64_MAX ->
  find_row (gst_key true account) (resource_gst_index d) = Some g ->
  0 <= gst_usage g <= INT64_MAX ->
  gst_usage g + ram_delta <= INT64_MAX ->
  exists d',
    add_pending_ram_usage gstio account ram_delta d = Returned d'
    /\ is_activation gstio d' = true
    /\ find_row (usage_key account) (resource_usage_index d')
       = Some (set_ram_usage (ram_usage usage + ram_delta) usage)
    /\ find_row (gst_key true account) (resource_gst_index d')
       = Some (set_gst_usage (saturate (gst_usage g) ram_delta) g).
Proof.
  intros Hact Hu Hru [Hnz Hx] Hram Hg Hgu Hsum.
  rewrite (add_pending_ram_usage_passes gstio account ram_delta d usage) by assumption.
  rewrite Hact, Hg. eexists. split; [reflexivity|]. split; [exact Hact|]. split.
  - cbn [resource_usage_index with_gst with_usage].
    rewrite find_row_modify_same by (intros; assumption).
    rewrite Hu. cbn [option_map]. rewrite u64_small by exact Hram. reflexivity.
  - cbn [resource_gst_index with_gst with_usage].
    rewrite find_row_modify_same by (intros r Hr; rewrite gst_key_charge_gst; exact Hr).
    rewrite Hg. cbn [option_map]. rewrite charge_gst_saturates by assumption. reflexivity.
Qed.

(** One call on an account that holds no gas row yet. *)
Lemma add_pending_ram_usage_no_gas_row (gstio account : account_name) (ram_delta : Z)
    (d : database) (usage : resource_usage_object) :
  is_activation gstio d = true ->
  find_row (usage_key account) (resource_usage_index d) = Some usage ->
  is_u64 (ram_usage usage) ->
  delta_ok ram_delta ->
  0 <= ram_usage usage + ram_delta <= UINT64_MAX ->
  find_row (gst_key true account) (resource_gst_index d) = None ->
  exists d',
    add_pending_ram_usage gstio account ram_delta d = Returned d'
    /\ is_activation gstio d' = true
    /\ find_row (usage_key account) (resource_usage_index d')
       = Some (set_ram_usage (ram_usage usage + ram_delta) usage)
    /\ find_row (gst_key true account) (resource_gst_index d')
       = Some (mk_resource_gst_object account true 0 (Z.max ram_delta 0)).
Proof.
  intros Hact Hu Hru [Hnz Hx] Hram Hg.
  rewrite (add_pending_ram_usage_passes gstio account ram_delta d usage) by assumption.
  rewrite Hact, Hg. eexists. split; [reflexivity|]. split; [exact Hact|]. split.
  - cbn [resource_usage_index with_gst with_usage].
    rewrite find_row_modify_same by (intros; assumption).
    rewrite Hu. cbn [option_map]. rewrite u64_small by exact Hram. reflexivity.
  - cbn [resource_gst_index with_gst with_usage].
    rewrite find_row_create, Hg.
    unfold gst_key. cbn [rg_pending rg_owner Bool.eqb andb]. rewrite N.eqb_refl.
    destruct (Z.ltb_spec ram_delta 0).
    + do 2 f_equal. lia.
    + rewrite u64_small by (int_consts; lia). do 2 f_equal. lia.
Qed.

(** A run of calls on an account that holds a gas row. *)
Lemma add_pending_ram_usages_gas_row (gstio account : account_name) (deltas : list Z) :
  forall (d : database) (usage : resource_usage_object) (g : resource_gst_object),
  is_activation gstio d = true ->
  find_row (usage_key account) (resource_usage_index d) = Some usage ->
  is_u64 (ram_usage usage) ->
  Forall delta_ok deltas ->
  ram_in_bounds (ram_usage usage) deltas ->
  find_row (gst_key true account) (resource_gst_index d) = Some g ->
  0 <= gst_usage g <= INT64_MAX ->
  gst_in_bounds (gst_usage g) deltas ->
  exists d',
    add_pending_ram_usages gstio account deltas d = Returned d'
    /\ find_row (gst_key true account) (resource_gst_index d')
       = Some (set_gst_usage (saturated_prefix_sum (gst_usage g) deltas) g).
Proof.
  induction deltas as [|x rest IH]; intros d usage g Hact Hu Hru Hok Hram Hg Hgu Hgst.
  - exists d. split; [reflexivity|]. rewrite Hg. destruct g; reflexivity.
  - inversion Hok as [|? ? Hx Hrest]; subst.
    destruct Hram as [Hram1 Hram], Hgst as [Hgst1 Hgst].
    destruct (add_pending_ram_usage_gas_row gstio account x d usage g)
      as (d1 & Hcall & Hact1 & Hu1 & Hg1); try assumption.
    assert (Hgu1 : 0 <= saturate (gst_usage g) x <= INT64_MAX)
      by (apply saturate_range; assumption).
    destruct (IH d1 _ _ Hact1 Hu1 Hram1 Hrest Hram Hg1 Hgu1 Hgst) as (d' & Hrun & Hrow).
    exists d'. cbn [add_pending_ram_usages]. rewrite Hcall. cbn [bind].
    split; [exact Hrun|]. rewrite Hrow. reflexivity.
Qed.

(** C5.  With gas metering on, a call with a non-zero delta that passes the
    RAM assertions leaves [max(0, gst_usage + ram_delta)] in the pending gas
    row of the account when the row exists, and creates the row with
    [gst_bytes = 0], [gst_usage = max(ram_delta, 0)] and [pending = true]
    when it does not; over a run of such calls [gst_usage] ends as the
    saturated prefix sum of the deltas, started from the usage the row held
    (from zero when the first call creates the row).  Sums are taken within
    [int64_t], the type in which the call tests them. *)
Theorem add_pending_ram_usage_gas (gstio account : account_name) (d : database)
    (usage : resource_usage_object) :
  is_activation gstio d = true ->
  find_row (usage_key account) (resource_usage_index d) = Some usage ->
  is_u64 (ram_usage usage) ->
  (forall ram_delta g,
      delta_ok ram_delta ->
      0 <= ram_usage usage + ram_delta <= UINT64_MAX ->
      find_row (gst_key true account) (resource_gst_index d) = Some g ->
      0 <= gst_usage g <= INT64_MAX ->
      gst_usage g + ram_delta <= INT64_MAX ->
      exists d',
        add_pending_ram_usage gstio account ram_delta d = Returned d'
        /\ find_row (gst_key true account) (resource_gst_index d')
           = Some (set_gst_usage (Z.max 0 (gst_usage g + ram_delta)) g))
  /\ (forall ram_delta,
         delta_ok ram_delta ->
         0 <= ram_usage usage + ram_delta <= UINT64_MAX ->
         find_row (gst_key true account) (resource_gst_index d) = None ->
         exists d',
           add_pending_ram_usage gstio account ram_delta d = Returned d'
           /\ find_row (gst_key true account) (resource_gst_index d')
              = Some (mk_resource_gst_object account true 0 (Z.max ram_delta 0)))
  /\ (forall deltas,
         deltas <> [] ->
         Forall delta_ok deltas ->
         ram_in_bounds (ram_usage usage) deltas ->
         let g0 := match find_row (gst_key true account) (resource_gst_index d) with
                   | Some g => gst_usage g
                   | None => 0
                   end in
         0 <= g0 <= INT64_MAX ->
         gst_in_bounds g0 deltas ->
         exists d' g',
           add_pending_ram_usages gstio account deltas d = Returned d'
           /\ find_row (gst_key true account) (resource_gst_index d') = Some g'
           /\ gst_usage g' = saturated_prefix_sum g0 deltas).
Proof.
  intros Hact Hu Hru. split; [|split].
  - intros x g Hx Hram Hg Hgu Hsum.
    destruct (add_pending_ram_usage_gas_row gstio account x d usage g)
      as (d' & Hcall & _ & _ & Hrow); try assumption.
    exists d'. split; assumption.
  - intros x Hx Hram Hg.
    destruct (add_pending_ram_usage_no_gas_row gstio account x d usage)
      as (d' & Hcall & _ & _ & Hrow); try assumption.
    exists d'. split; assumption.
  - intros deltas Hne Hok Hram g0 Hg0 Hgst. subst g0.
    destruct (find_row (gst_key true account) (resource_gst_index d)) as [g|] eqn:Hg.
    + destruct (add_pending_ram_usages_gas_row gstio account deltas d usage g)
        as (d' & Hrun & Hrow); try assumption.
      exists d', (set_gst_usage (saturated_prefix_sum (gst_usage g) deltas) g).
      repeat split; assumption.
    + destruct deltas as [|x rest]; [contradiction|].
      inversion Hok as [|? ? Hx Hrest]; subst.
      destruct Hram as [Hram1 Hram], Hgst as [Hgst1 Hgst].
      destruct (add_pending_ram_usage_no_gas_row gstio account x d usage)
        as (d1 & Hcall & Hact1 & Hu1 & Hg1); try assumption.
      assert (Hsat : saturate 0 x = Z.max x 0) by (unfold saturate; lia).
      assert (Hrange : 0 <= Z.max x 0 <= INT64_MAX)
        by (rewrite <- Hsat; apply saturate_range; assumption).
      rewrite Hsat in Hgst.
      destruct (add_pending_ram_usages_gas_row gstio account rest d1 _ _
                  Hact1 Hu1 Hram1 Hrest Hram Hg1 Hrange Hgst) as (d' & Hrun & Hrow).
      eexists d', _. cbn [add_pending_ram_usages]. rewrite Hcall. cbn [bind].
      split; [exact Hrun|]. split; [exact Hrow|].
      cbn [gst_usage set_gst_usage saturated_prefix_sum fold_left]. rewrite Hsat.
      reflexivity.
Qed.

Lemma add_pending_ram_usage_gas_witness :
  exists d' g',
    add_pending_ram_usages sample_gstio bob [500; -700; 400] sample_store = Returned d'
    /\ find_row (gst_key true bob) (resource_gst_index d') = Some g'
    /\ gst_usage g' = 400.
Proof.
  refine (proj2 (proj2 (add_pending_ram_usage_gas sample_gstio bob sample_store
                          (mk_resource_usage_object bob empty_accumulator empty_accumulator 1000)
                          _ _ _)) [500; -700; 400] _ _ _ _ _).
  - reflexivity.
  - reflexivity.
  - unfold is_u64, UINT64_MAX. simpl. lia.
  - discriminate.
  - unfold delta_ok, is_i64, INT64_MIN, INT64_MAX. simpl. repeat constructor; lia.
  - simpl. int_consts. lia.
  - simpl. int_consts. lia.
  - unfold saturate. simpl. int_consts. lia.
Defined.

(** ** verify_account_gst_usage *)

(** C6 (counterexample).  [alice] holds a gas row with [gst_bytes = -1] and
    [gst_usage = 0]: [gst_bytes >= gst_usage + 100] does not hold, yet the
    call returns, and it returns the database unchanged: no toll is
    charged. *)
Lemma verify_account_gst_usage_unmetered :
  exists g,
    find_row (gst_key true alice) (resource_gst_index unmetered_gas_store) = Some g
    /\ ~ (gst_bytes g >= gst_usage g + 100)
    /\ verify_account_gst_usage alice unmetered_gas_store = Returned unmetered_gas_store.
Proof.
  exists (mk_resource_gst_object alice true (-1) 0).
  split; [reflexivity|]. split; [simpl; lia|reflexivity].
Qed.

(** C6 (amended).  The call fails with [GasNotProvisioned] iff the account
    has no pending gas row.  When the row exists and [gst_bytes >= 0], the
    call fails with [InsufficientGas] unless
    [gst_bytes >= gst_usage + 100], and otherwise adds exactly 100 to the
    row's [gst_usage], leaving [gst_bytes] and every other table as they
    were.  When the row exists and [gst_bytes < 0], the call returns and
    changes nothing. *)
Theorem verify_account_gst_usage_toll (account : account_name) (d : database) :
  (forall g, find_row (gst_key true account) (resource_gst_index d) = Some g ->
             is_i64 (gst_bytes g) /\ 0 <= gst_usage g <= UINT64_MAX - 100) ->
  (verify_account_gst_usage account d = Threw GasNotProvisioned d
   <-> find_row (gst_key true account) (resource_gst_index d) = None)
  /\ forall g,
       find_row (gst_key true account) (resource_gst_index d) = Some g ->
       (gst_bytes g < 0 -> verify_account_gst_usage account d = Returned d)
       /\ (0 <= gst_bytes g < gst_usage g + 100 ->
           verify_account_gst_usage account d = Threw InsufficientGas d)
       /\ (0 <= gst_bytes g -> gst_usage g + 100 <= gst_bytes g ->
           exists d',
             verify_account_gst_usage account d = Returned d'
             /\ find_row (gst_key true account) (resource_gst_index d')
                = Some (set_gst_usage (gst_usage g + 100) g)
             /\ with_gst (resource_gst_index d) d' = d).
Proof.
  intros Hwf. unfold verify_account_gst_usage.
  destruct (find_row (gst_key true account) (resource_gst_index d)) as [g|] eqn:Hg.
  - destruct (Hwf g eq_refl) as [Hb Hu]. clear Hwf.
    assert (Hsum : u64 (gst_usage g + 100) = gst_usage g + 100)
      by (apply u64_small; int_consts; lia).
    split.
    + split; [|discriminate].
      destruct (gst_bytes g >=? 0); [|discriminate].
      destruct (_ >=? _); cbn [gst_assert bind]; discriminate.
    + intros g' [= <-]. repeat split.
      * intros Hneg. destruct (Z.geb_spec (gst_bytes g) 0); [lia|reflexivity].
      * intros Hlow. destruct (Z.geb_spec (gst_bytes g) 0); [|lia].
        rewrite Hsum, u64_small by (int_consts; lia).
        destruct (Z.geb_spec (gst_bytes g) (gst_usage g + 100)); [lia|reflexivity].
      * intros Hpos Hhigh. destruct (Z.geb_spec (gst_bytes g) 0); [|lia].
        rewrite Hsum, u64_small by (int_consts; lia).
        destruct (Z.geb_spec (gst_bytes g) (gst_usage g + 100)); [|lia].
        cbn [gst_assert bind]. eexists. split; [reflexivity|].
        cbn [resource_gst_index with_gst]. split.
        -- rewrite find_row_modify_same by (intros; assumption).
           rewrite Hg. cbn [option_map]. rewrite Hsum. reflexivity.
        -- destruct d; reflexivity.
  - split; [split; reflexivity|discriminate].
Qed.

Lemma verify_account_gst_usage_toll_witness :
  exists d',
    verify_account_gst_usage alice sample_store = Returned d'
    /\ find_row (gst_key true alice) (resource_gst_index d')
       = Some (mk_resource_gst_object alice true 1000 100)
    /\ with_gst (resource_gst_index sample_store) d' = sample_store.
Proof.
  refine (proj2 (proj2 (proj2 (verify_account_gst_usage_toll alice sample_store _)
                          (mk_resource_gst_object alice true 1000 0) _)) _ _).
  - intros g Hg. injection Hg as <-. simpl. int_consts. lia.
  - reflexivity.
  - simpl. lia.
  - simpl. lia.
Defined.

(** ** set_gas_limits *)

(** When the activation row exists, the call stores the flag in it. *)
Lemma set_gas_limits_existing (gstio : account_name) (flag : bool) (d : database)
    (gas : resource_activation_gst_object) :
  find_row (activation_key true gstio) (resource_activation_gst_index d) = Some gas ->
  exists d',
    set_gas_limits gstio flag d = Returned d'
    /\ find_row (activation_key true gstio) (resource_activation_gst_index d')
       = Some (mk_resource_activation_gst_object (ra_owner gas) (ra_pending gas) flag)
    /\ is_activation gstio d' = flag.
Proof.
  intros Hgas. unfold set_gas_limits. rewrite Hgas. eexists. split; [reflexivity|].
  assert (Hrow : find_row (activation_key true gstio)
                   (resource_activation_gst_index
                      (with_activation
                         (modify_row (activation_key true gstio)
                            (fun gas => mk_resource_activation_gst_object
                                          (ra_owner gas) (ra_pending gas) flag)
                            (resource_activation_gst_index d)) d))
                 = Some (mk_resource_activation_gst_object
                           (ra_owner gas) (ra_pending gas) flag)).
  { cbn [resource_activation_gst_index with_activation].
    rewrite find_row_modify_same by (intros; assumption). rewrite Hgas. reflexivity. }
  split; [exact Hrow|].
  unfold is_activation. rewrite Hrow. destruct flag; reflexivity.
Qed.

(** When the activation row does not exist, the call creates it activated,
    whatever the flag. *)
Lemma set_gas_limits_absent (gstio : account_name) (flag : bool) (d : database) :
  find_row (activation_key true gstio) (resource_activation_gst_index d) = None ->
  exists d',
    set_gas_limits gstio flag d = Returned d'
    /\ find_row (activation_key true gstio) (resource_activation_gst_index d')
       = Some (mk_resource_activation_gst_object gstio true true)
    /\ is_activation gstio d' = true.
Proof.
  intros Hgas. unfold set_gas_limits. rewrite Hgas. eexists. split; [reflexivity|].
  assert (Hrow : find_row (activation_key true gstio)
                   (resource_activation_gst_index
                      (with_activation
                         (create_row (mk_resource_activation_gst_object gstio true true)
                            (resource_activation_gst_index d)) d))
                 = Some (mk_resource_activation_gst_object gstio true true)).
  { cbn [resource_activation_gst_index with_activation].
    rewrite find_row_create, Hgas. unfold activation_key.
    cbn [ra_pending ra_owner Bool.eqb andb]. rewrite N.eqb_refl. reflexivity. }
  split; [exact Hrow|].
  unfold is_activation. rewrite Hrow. reflexivity.
Qed.

(** C8 (the code at the failing input).  On a store that holds no
    activation row, [set_gas_limits(false)] creates the row with
    [is_activation = true]: gas metering is on after a call that asked for
    it to be off. *)
Theorem set_gas_limits_false_activates :
find_row (activation_key true sample_gstio) (resource_activation_gst_index fresh_store) = None
/\ set_gas_limits sample_gstio false fresh_store
   = Returned (with_activation
                 [mk_resource_activation_gst_object sample_gstio true true] fresh_store)
/\ is_activation sample_gstio
     (with_activation [mk_resource_activation_gst_object sample_gstio true true] fresh_store)
   = true.
Proof. repeat split. Qed.

(** ** add_transaction_usage *)

(** Rewriting the usage row of [a] leaves the usage row of [b] alone. *)
Lemma usage_key_other (a b : account_name) (f : resource_usage_object -> resource_usage_object)
    (l : list resource_usage_object) :
  a <> b -> (forall r, ru_owner (f r) = ru_owner r) ->
  find_row (usage_key b) (modify_row (usage_key a) f l) = find_row (usage_key b) l.
Proof.
  intros Hab Hf. apply find_row_modify_other. intros r K. unfold usage_key in *.
  rewrite Hf. apply N.eqb_eq in K. rewrite K.
  split; apply N.eqb_neq; exact Hab.
Qed.

Section TransactionUsage.
Variable rate_limiting_precision : Z.
Variable accumulator_add : usage_accumulator -> Z -> Z -> Z -> option usage_accumulator.

Let charge := charge_account rate_limiting_precision accumulator_add.
Let charge_all := charge_accounts rate_limiting_precision accumulator_add.
Let add_usage := add_transaction_usage rate_limiting_precision accumulator_add.


(** The loop body writes the usage table and nothing else. *)
Lemma charge_account_frame state config cpu net time_slot a d d1 :
  charge state config cpu net time_slot a d = Returned d1 ->
  with_usage (resource_usage_index d) d1 = d.
Proof.
  unfold charge, charge_account.
  destruct (find_row (usage_key a) (resource_usage_index d)); [|discriminate].
  cbn [get bind].
  destruct (get_account_limits a d) as [[[ram nw] cw]| |]; try discriminate.
  cbn [bind].
  destruct (accumulator_add _ net _ _); [|discriminate].
  destruct (accumulator_add _ cpu _ _); [|discriminate].
  destruct (_ && _); [destruct (_ <=? _)|]; cbn [gst_assert bind]; try discriminate;
    (destruct (_ && _); [destruct (_ <=? _)|]; cbn [gst_assert bind]; try discriminate;
     intros [= <-]; destruct d; reflexivity).
Qed.

Lemma charge_accounts_frame state config cpu net time_slot accounts :
  forall d d1,
  charge_all state config cpu net time_slot accounts d = Returned d1 ->
  with_usage (resource_usage_index d) d1 = d.
Proof.
  induction accounts as [|a rest IH]; intros d d1; cbn [charge_all charge_accounts].
  - intros [= <-]. destruct d; reflexivity.
  - fold charge. destruct (charge state config cpu net time_slot a d) as [d0| |] eqn:H0;
      try discriminate.
    cbn [bind]. intros H1. apply IH in H1. apply charge_account_frame in H0.
    rewrite <- H0, <- H1. reflexivity.
Qed.





(** The loop never throws the block-level exception. *)
Lemma charge_account_not_exhausted state config cpu net time_slot a d d' :
  charge state config cpu net time_slot a d <> Threw BlockResourceExhausted d'.
Proof.
  unfold charge, charge_account.
  destruct (find_row (usage_key a) (resource_usage_index d)); [|discriminate].
  cbn [get bind]. unfold get_account_limits.
  destruct (find_row (limits_key true a) _);
    try destruct (find_row (limits_key false a) _);
    cbn [get bind]; try discriminate;
    (destruct (accumulator_add _ net _ _); [|discriminate];
     destruct (accumulator_add _ cpu _ _); [|discriminate];
     destruct (_ && _); [destruct (_ <=? _)|]; cbn [gst_assert bind]; try discriminate;
     (destruct (_ && _); [destruct (_ <=? _)|]; cbn [gst_assert bind]; discriminate)).
Qed.

Lemma charge_accounts_not_exhausted state config cpu net time_slot accounts :
  forall d d', charge_all state config cpu net time_slot accounts d
               <> Threw BlockResourceExhausted d'.
Proof.
  induction accounts as [|a0 rest IH]; intros d d'; cbn [charge_all charge_accounts].
  - discriminate.
  - fold charge. destruct (charge state config cpu net time_slot a0 d) as [d0|e d0|] eqn:H0;
      cbn [bind]; [apply IH| |discriminate].
    intros [= -> ->]. exact (charge_account_not_exhausted _ _ _ _ _ _ _ _ H0).
Qed.

(** What follows the loop: the pending usage of the block is increased and
    then tested. *)
Lemma add_transaction_usage_after_loop accounts cpu net time_slot d state config d1 :
  get_state d = Some state ->
  get_config d = Some config ->
  charge_all state config cpu net time_slot accounts d = Returned d1 ->
  let d2 := modify_state (add_pending_usage cpu net) d1 in
  get_state d2 = Some (add_pending_usage cpu net state)
  /\ get_config d2 = Some config
  /\ add_usage accounts cpu net time_slot d =
     if (u64 (pending_cpu_usage state + cpu) <=? max (cpu_limit_parameters config))
        && (u64 (pending_net_usage state + net) <=? max (net_limit_parameters config))
     then Returned d2 else Threw BlockResourceExhausted d2.
Proof.
  intros Hs Hc Hloop d2.
  pose proof (charge_accounts_frame _ _ _ _ _ _ _ _ Hloop) as Hframe.
  assert (Hs1 : resource_limits_state_index d1 = resource_limits_state_index d)
    by (rewrite <- Hframe; reflexivity).
  assert (Hc1 : resource_limits_config_index d1 = resource_limits_config_index d)
    by (rewrite <- Hframe; reflexivity).
  assert (Hs2 : get_state d2 = Some (add_pending_usage cpu net state)).
  { subst d2. unfold get_state, modify_state in *. cbn [resource_limits_state_index with_state].
    rewrite Hs1. destruct (resource_limits_state_index d); [discriminate|].
    injection Hs as ->. reflexivity. }
  assert (Hc2 : get_config d2 = Some config).
  { subst d2. unfold get_config, modify_state in *.
    cbn [resource_limits_config_index with_state]. rewrite Hc1. exact Hc. }
  split; [exact Hs2|]. split; [exact Hc2|].
  unfold add_usage, add_transaction_usage. rewrite Hs, Hc. cbn [get bind].
  fold charge_all. rewrite Hloop. cbn [bind]. fold d2. rewrite Hs2. cbn [get bind].
  cbn [add_pending_usage pending_cpu_usage pending_net_usage].
  destruct (_ <=? max (cpu_limit_parameters config)); cbn [gst_assert bind andb];
    [|reflexivity].
  destruct (_ <=? max (net_limit_parameters config)); reflexivity.
Qed.

(** Every outcome of the call other than a failure inside the loop went
    through the block-level accounting. *)
Lemma add_transaction_usage_inv accounts cpu net time_slot d :
  match add_usage accounts cpu net time_slot d with
  | Returned d' | Threw BlockResourceExhausted d' =>
      exists state config d1,
        get_state d = Some state /\ get_config d = Some config
        /\ charge_all state config cpu net time_slot accounts d = Returned d1
        /\ d' = modify_state (add_pending_usage cpu net) d1
  | Threw (CpuUsageExceeded a) d' =>
      exists state config,
        charge_all state config cpu net time_slot accounts d = Threw (CpuUsageExceeded a) d'
  | Threw (NetUsageExceeded a) d' =>
      exists state config,
        charge_all state config cpu net time_slot accounts d = Threw (NetUsageExceeded a) d'
  | _ => True
  end.
Proof.
  destruct (get_state d) as [state|] eqn:Hs.
  2:{ unfold add_usage, add_transaction_usage. rewrite Hs. exact I. }
  destruct (get_config d) as [config|] eqn:Hc.
  2:{ unfold add_usage, add_transaction_usage. rewrite Hs, Hc. exact I. }
  destruct (charge_all state config cpu net time_slot accounts d) as [d1|e d1|e] eqn:Hloop.
  - destruct (add_transaction_usage_after_loop _ _ _ _ _ _ _ _ Hs Hc Hloop) as (_ & _ & ->).
    destruct (_ && _); exists state, config, d1; repeat split; assumption.
  - unfold add_usage, add_transaction_usage. rewrite Hs, Hc. cbn [get bind].
    fold charge_all. rewrite Hloop. cbn [bind].
    destruct e; try exact I; try (exists state, config; exact Hloop).
    destruct (charge_accounts_not_exhausted _ _ _ _ _ _ _ _ Hloop).
  - unfold add_usage, add_transaction_usage. rewrite Hs, Hc. cbn [get bind].
    fold charge_all. rewrite Hloop. exact I.
Qed.







(** C3.  A call that returns has added the cpu and net usage of the
    transaction (in 64-bit arithmetic) to the pending usage of the block,
    and both totals are within their [max].  A call that fails with
    [BlockResourceExhausted] has stored the same increments in the database
    it leaves, and one of the totals exceeds its [max].  And every call
    that gets through the loop over the authorizers does one or the other,
    according to the two comparisons. *)
Theorem block_usage_accounting accounts cpu net time_slot d :
  (forall d',
      add_usage accounts cpu net time_slot d = Returned d' ->
      exists state config state',
        get_state d = Some state /\ get_config d = Some config
        /\ get_state d' = Some state' /\ get_config d' = Some config
        /\ pending_cpu_usage state' = u64 (pending_cpu_usage state + cpu)
        /\ pending_net_usage state' = u64 (pending_net_usage state + net)
        /\ pending_cpu_usage state' <= max (cpu_limit_parameters config)
        /\ pending_net_usage state' <= max (net_limit_parameters config))
  /\ (forall d',
         add_usage accounts cpu net time_slot d = Threw BlockResourceExhausted d' ->
         exists state config state',
           get_state d = Some state /\ get_config d = Some config
           /\ get_state d' = Some state' /\ get_config d' = Some config
           /\ pending_cpu_usage state' = u64 (pending_cpu_usage state + cpu)
           /\ pending_net_usage state' = u64 (pending_net_usage state + net)
           /\ (pending_cpu_usage state' > max (cpu_limit_parameters config)
               \/ pending_net_usage state' > max (net_limit_parameters config)))
  /\ (forall state config d1,
         get_state d = Some state ->
         get_config d = Some config ->
         charge_all state config cpu net time_slot accounts d = Returned d1 ->
         let d2 := modify_state (add_pending_usage cpu net) d1 in
         add_usage accounts cpu net time_slot d =
         if (u64 (pending_cpu_usage state + cpu) <=? max (cpu_limit_parameters config))
            && (u64 (pending_net_usage state + net) <=? max (net_limit_parameters config))
         then Returned d2 else Threw BlockResourceExhausted d2).
Proof.
  split; [|split].
  - intros d' Hret.
    pose proof (add_transaction_usage_inv accounts cpu net time_slot d) as Hinv.
    rewrite Hret in Hinv. destruct Hinv as (state & config & d1 & Hs & Hc & Hloop & ->).
    destruct (add_transaction_usage_after_loop _ _ _ _ _ _ _ _ Hs Hc Hloop)
      as (Hs2 & Hc2 & Hres).
    rewrite Hres in Hret.
    exists state, config, (add_pending_usage cpu net state).
    destruct (Z.leb_spec (u64 (pending_cpu_usage state + cpu))
                (max (cpu_limit_parameters config))); [|discriminate].
    destruct (Z.leb_spec (u64 (pending_net_usage state + net))
                (max (net_limit_parameters config))); [|discriminate].
    repeat split; assumption.
  - intros d' Hthrow.
    pose proof (add_transaction_usage_inv accounts cpu net time_slot d) as Hinv.
    rewrite Hthrow in Hinv. destruct Hinv as (state & config & d1 & Hs & Hc & Hloop & ->).
    destruct (add_transaction_usage_after_loop _ _ _ _ _ _ _ _ Hs Hc Hloop)
      as (Hs2 & Hc2 & Hres).
    rewrite Hres in Hthrow.
    exists state, config, (add_pending_usage cpu net state).
    repeat (split; [first [assumption|reflexivity]|]).
    cbn [add_pending_usage pending_cpu_usage pending_net_usage].
    destruct (Z.leb_spec (u64 (pending_cpu_usage state + cpu))
                (max (cpu_limit_parameters config))); [|left; lia].
    destruct (Z.leb_spec (u64 (pending_net_usage state + net))
                (max (net_limit_parameters config))); [discriminate|right; lia].
  - intros state config d1 Hs Hc Hloop.
    apply (add_transaction_usage_after_loop _ _ _ _ _ _ _ _ Hs Hc Hloop).
Qed.
End TransactionUsage.


Lemma block_usage_accounting_witness :
  exists d1,
    charge_accounts sample_precision (accumulator_add_spec sample_precision)
      sample_state sample_config 400 10 0 [alice] sample_store = Returned d1
    /\ add_transaction_usage sample_precision (accumulator_add_spec sample_precision)
         [alice] 400 10 0 sample_store
       = Returned (modify_state (add_pending_usage 400 10) d1).
Proof.
  eexists. split.
  - vm_compute. reflexivity.
  - refine (proj2 (proj2 (block_usage_accounting sample_precision
                            (accumulator_add_spec sample_precision)
                            [alice] 400 10 0 sample_store))
              sample_state sample_config _ _ _ _).
    + reflexivity.
    + reflexivity.
    + vm_compute. reflexivity.
Defined.

(** ** The limits table *)

Lemma limits_key_spec (p : bool) (a : account_name) (r : resource_limits_object) :
  limits_key p a r = true <-> limits_key_of r = (p, a).
Proof.
  unfold limits_key, limits_key_of. rewrite andb_true_iff, N.eqb_eq.
  split.
  - intros [Hp ->]. apply Bool.eqb_prop in Hp. rewrite Hp. reflexivity.
  - intros [= -> ->]. split; [apply Bool.eqb_reflx|reflexivity].
Qed.

Lemma limits_key_of_found (p : bool) (a : account_name) (r : resource_limits_object)
    (tbl : list resource_limits_object) :
  find_row (limits_key p a) tbl = Some r -> In r tbl /\ rl_pending r = p /\ rl_owner r = a.
Proof.
  intros H. apply find_row_some in H as [Hin Hk]. split; [exact Hin|].
  apply limits_key_spec in Hk. injection Hk as -> ->. auto.
Qed.

Lemma find_row_limits_none (p : bool) (a : account_name) (tbl : list resource_limits_object) :
  find_row (limits_key p a) tbl = None <-> ~ In (p, a) (map limits_key_of tbl).
Proof.
  induction tbl as [|x t IH]; simpl; [tauto|].
  destruct (limits_key p a x) eqn:K.
  - apply limits_key_spec in K. split; [discriminate|]. intros H. exfalso. auto.
  - rewrite IH. split; [|tauto]. intros H [Hx|Ht]; [|tauto].
    apply limits_key_spec in Hx. congruence.
Qed.

(** Two rows of a unique index with the same key are the same row. *)
Lemma unique_keys_inj (tbl : list resource_limits_object) (r1 r2 : resource_limits_object) :
  unique_keys tbl -> In r1 tbl -> In r2 tbl -> limits_key_of r1 = limits_key_of r2 -> r1 = r2.
Proof.
  unfold unique_keys. induction tbl as [|x t IH]; simpl; [tauto|].
  intros Hnd. inversion Hnd as [|? ? Hx Ht]; subst.
  intros [<-|H1] [<-|H2] Hk; auto.
  - exfalso. apply Hx. rewrite Hk. apply in_map. exact H2.
  - exfalso. apply Hx. rewrite <- Hk. apply in_map. exact H1.
Qed.

Lemma unique_keys_find (tbl : list resource_limits_object) (r : resource_limits_object) :
  unique_keys tbl -> In r tbl ->
  find_row (limits_key (rl_pending r) (rl_owner r)) tbl = Some r.
Proof.
  intros Hu Hin.
  destruct (find_row (limits_key (rl_pending r) (rl_owner r)) tbl) as [r'|] eqn:Hf.
  - apply find_row_some in Hf as [Hin' Hk]. apply limits_key_spec in Hk.
    f_equal. apply (unique_keys_inj tbl); assumption.
  - apply find_row_limits_none in Hf. exfalso. apply Hf.
    apply (in_map limits_key_of) in Hin. exact Hin.
Qed.

Lemma modify_row_keys (k : resource_limits_object -> bool)
    (f : resource_limits_object -> resource_limits_object)
    (tbl : list resource_limits_object) :
  (forall r, k r = true -> limits_key_of (f r) = limits_key_of r) ->
  map limits_key_of (modify_row k f tbl) = map limits_key_of tbl.
Proof.
  intros Hf. induction tbl as [|x t IH]; simpl; [reflexivity|].
  destruct (k x) eqn:K; simpl; [rewrite (Hf _ K)|rewrite IH]; reflexivity.
Qed.

Lemma remove_row_in (k : resource_limits_object -> bool) (tbl : list resource_limits_object)
    (r : resource_limits_object) :
  In r (remove_row k tbl) -> In r tbl.
Proof.
  induction tbl as [|x t IH]; simpl; [tauto|].
  destruct (k x); simpl; [tauto|]. intros [H|H]; auto.
Qed.

Lemma remove_row_keep (k : resource_limits_object -> bool) (tbl : list resource_limits_object)
    (r : resource_limits_object) :
  In r tbl -> k r = false -> In r (remove_row k tbl).
Proof.
  induction tbl as [|x t IH]; simpl; [tauto|].
  intros [<-|H] K.
  - rewrite K. left. reflexivity.
  - destruct (k x); simpl; auto.
Qed.

Lemma remove_row_unique (k : resource_limits_object -> bool)
    (tbl : list resource_limits_object) :
  unique_keys tbl -> unique_keys (remove_row k tbl).
Proof.
  unfold unique_keys. induction tbl as [|x t IH]; simpl; [trivial|].
  intros Hnd. inversion Hnd as [|? ? Hx Ht]; subst.
  destruct (k x); simpl; [exact Ht|].
  constructor; [|auto].
  intros Hin. apply Hx. apply in_map_iff in Hin as (r & Hr & Hin).
  rewrite <- Hr. apply in_map. eapply remove_row_in. exact Hin.
Qed.

(** Once the row of a key is removed from a unique index, the key is free. *)
Lemma remove_row_gone (p : bool) (a : account_name) (tbl : list resource_limits_object) :
  unique_keys tbl -> find_row (limits_key p a) (remove_row (limits_key p a) tbl) = None.
Proof.
  unfold unique_keys. induction tbl as [|x t IH]; simpl; [trivial|].
  intros Hnd. inversion Hnd as [|? ? Hx Ht]; subst.
  destruct (limits_key p a x) eqn:K.
  - apply limits_key_spec in K. apply find_row_limits_none. rewrite <- K. exact Hx.
  - simpl. rewrite K. auto.
Qed.

Lemma modify_row_in (k : resource_limits_object -> bool)
    (f : resource_limits_object -> resource_limits_object)
    (tbl : list resource_limits_object) (r : resource_limits_object) :
  In r (modify_row k f tbl) ->
  In r tbl \/ exists r0, find_row k tbl = Some r0 /\ r = f r0.
Proof.
  induction tbl as [|x t IH]; simpl; [tauto|].
  destruct (k x) eqn:K; simpl.
  - intros [<-|H]; [right; exists x|left]; auto.
  - intros [<-|H]; [left; auto|]. destruct (IH H) as [?|(r0 & ? & ?)]; [left|right; exists r0];
      auto.
Qed.

Lemma modify_row_keep (k : resource_limits_object -> bool)
    (f : resource_limits_object -> resource_limits_object)
    (tbl : list resource_limits_object) (r : resource_limits_object) :
  In r tbl -> k r = false -> In r (modify_row k f tbl).
Proof.
  induction tbl as [|x t IH]; simpl; [tauto|].
  intros [<-|H] K.
  - rewrite K. left. reflexivity.
  - destruct (k x); simpl; auto.
Qed.

Lemma modify_row_forall (P : resource_limits_object -> Prop)
    (k : resource_limits_object -> bool)
    (f : resource_limits_object -> resource_limits_object)
    (tbl : list resource_limits_object) :
  Forall P tbl -> (forall r, find_row k tbl = Some r -> P (f r)) ->
  Forall P (modify_row k f tbl).
Proof.
  induction tbl as [|x t IH]; simpl; [trivial|].
  intros Hall Hf. inversion Hall; subst.
  destruct (k x); constructor; auto.
Qed.

Lemma remove_row_forall (P : resource_limits_object -> Prop)
    (k : resource_limits_object -> bool) (tbl : list resource_limits_object) :
  Forall P tbl -> Forall P (remove_row k tbl).
Proof.
  induction tbl as [|x t IH]; simpl; [trivial|].
  intros Hall. inversion Hall; subst. destruct (k x); [assumption|constructor; auto].
Qed.

(** *** Committed totals under the store operations *)

Section CommittedTotal.
Variable field : resource_limits_object -> Z.

Lemma committed_total_nonneg (tbl : list resource_limits_object) :
  0 <= committed_total field tbl.
Proof.
  induction tbl as [|x t IH]; simpl; [lia|]. destruct (rl_pending x); lia.
Qed.

Lemma committed_total_bound (tbl : list resource_limits_object) (r : resource_limits_object) :
  In r tbl -> rl_pending r = false -> Z.max 0 (field r) <= committed_total field tbl.
Proof.
  induction tbl as [|x t IH]; simpl; [tauto|].
  intros [<-|Hin] Hp.
  - rewrite Hp. pose proof (committed_total_nonneg t). lia.
  - specialize (IH Hin Hp). destruct (rl_pending x); lia.
Qed.

(** Rewriting a committed row replaces its contribution. *)
Lemma committed_total_modify_committed (a : account_name)
    (f : resource_limits_object -> resource_limits_object)
    (tbl : list resource_limits_object) (r : resource_limits_object) :
  find_row (limits_key false a) tbl = Some r ->
  rl_pending (f r) = false ->
  committed_total field (modify_row (limits_key false a) f tbl)
  = committed_total field tbl - Z.max 0 (field r) + Z.max 0 (field (f r)).
Proof.
  intros Hfind Hp. induction tbl as [|x t IH]; simpl in *; [discriminate|].
  destruct (limits_key false a x) eqn:K.
  - injection Hfind as ->. apply limits_key_spec in K. injection K as K _.
    simpl. rewrite Hp, K. lia.
  - simpl. rewrite (IH Hfind). destruct (rl_pending x); lia.
Qed.

(** Rewriting, removing or creating a pending row changes nothing. *)
Lemma committed_total_modify_pending (a : account_name)
    (f : resource_limits_object -> resource_limits_object)
    (tbl : list resource_limits_object) :
  (forall r, rl_pending r = true -> rl_pending (f r) = true) ->
  committed_total field (modify_row (limits_key true a) f tbl) = committed_total field tbl.
Proof.
  intros Hf. induction tbl as [|x t IH]; simpl; [reflexivity|].
  destruct (limits_key true a x) eqn:K.
  - apply limits_key_spec in K. injection K as K _. simpl. rewrite (Hf _ K), K. reflexivity.
  - simpl. rewrite IH. reflexivity.
Qed.

Lemma committed_total_remove_pending (a : account_name) (tbl : list resource_limits_object) :
  committed_total field (remove_row (limits_key true a) tbl) = committed_total field tbl.
Proof.
  induction tbl as [|x t IH]; simpl; [reflexivity|].
  destruct (limits_key true a x) eqn:K.
  - apply limits_key_spec in K. injection K as K _. rewrite K. reflexivity.
  - simpl. rewrite IH. reflexivity.
Qed.

Lemma committed_total_create_pending (r : resource_limits_object)
    (tbl : list resource_limits_object) :
  rl_pending r = true ->
  committed_total field (create_row r tbl) = committed_total field tbl.
Proof.
  intros Hp. unfold create_row. induction tbl as [|x t IH]; simpl.
  - rewrite Hp. reflexivity.
  - rewrite IH. reflexivity.
Qed.
End CommittedTotal.

(** *** The lambda update_state_and_value *)

(** When the total covers the old value, the lambda fails exactly when the
    new total would not fit in 64 bits. *)
Lemma update_state_and_value_covered (total value pending_value : Z) :
  is_u64 total -> is_i64 value -> is_i64 pending_value ->
  Z.max 0 value <= total ->
  update_state_and_value total value pending_value
  = if total - Z.max 0 value + Z.max 0 pending_value <=? UINT64_MAX
    then Some (total - Z.max 0 value + Z.max 0 pending_value, pending_value)
    else None.
Proof.
  intros Ht Hv Hp Hcover. unfold update_state_and_value.
  assert (H1 : (if value >? 0 then
                  if total >=? u64 value then Some (u64 (total - value)) else None
                else Some total) = Some (total - Z.max 0 value)).
  { destruct (Z.gtb_spec value 0).
    - rewrite (u64_small value) by (int_consts; lia).
      destruct (Z.geb_spec total value); [|lia].
      rewrite u64_small by (int_consts; lia). f_equal. lia.
    - f_equal. lia. }
  rewrite H1. clear H1.
  destruct (Z.gtb_spec pending_value 0).
  - rewrite (u64_small pending_value), u64_small by (int_consts; lia).
    destruct (Z.geb_spec (UINT64_MAX - (total - Z.max 0 value)) pending_value);
      destruct (Z.leb_spec (total - Z.max 0 value + Z.max 0 pending_value) UINT64_MAX);
      try lia.
    + rewrite u64_small by (int_consts; lia). do 2 f_equal. lia.
    + reflexivity.
  - destruct (Z.leb_spec (total - Z.max 0 value + Z.max 0 pending_value) UINT64_MAX).
    + do 2 f_equal. lia.
    + int_consts. lia.
Qed.

(** The two assertions of the lambda, on any 64-bit total. *)
Lemma update_state_and_value_fails (total value pending_value : Z) :
  is_u64 total -> is_i64 value -> is_i64 pending_value ->
  (0 < value -> total < value -> update_state_and_value total value pending_value = None)
  /\ (0 < pending_value -> Z.max 0 value <= total ->
      UINT64_MAX < total - Z.max 0 value + pending_value ->
      update_state_and_value total value pending_value = None).
Proof.
  intros Ht Hv Hp. split.
  - intros Hpos Hunder. unfold update_state_and_value.
    destruct (Z.gtb_spec value 0); [|lia].
    rewrite (u64_small value) by (int_consts; lia).
    destruct (Z.geb_spec total value); [lia|reflexivity].
  - intros Hpos Hcover Hover.
    rewrite update_state_and_value_covered by assumption.
    destruct (Z.leb_spec (total - Z.max 0 value + Z.max 0 pending_value) UINT64_MAX);
      [lia|reflexivity].
Qed.

(** *** The iterator of the commit loop *)

Lemma lower_bound_pending_some (tbl : list resource_limits_object)
    (itr : resource_limits_object) :
  lower_bound_pending tbl = Some itr -> In itr tbl /\ rl_pending itr = true.
Proof.
  revert itr. induction tbl as [|x t IH]; simpl; [discriminate|].
  intros itr. destruct (rl_pending x) eqn:Hp.
  - destruct (lower_bound_pending t) as [m|].
    + destruct (IH m eq_refl) as [Hin Hm].
      destruct (rl_owner m <? rl_owner x)%N; intros [= <-]; auto.
    + intros [= <-]. auto.
  - intros H. destruct (IH _ H). auto.
Qed.

Lemma lower_bound_pending_none (tbl : list resource_limits_object) :
  lower_bound_pending tbl = None -> no_pending tbl.
Proof.
  unfold no_pending. induction tbl as [|x t IH]; simpl; [tauto|].
  destruct (rl_pending x) eqn:Hp.
  - destruct (lower_bound_pending t) as [m|]; [|discriminate].
    destruct (rl_owner m <? rl_owner x)%N; discriminate.
  - intros H r [<-|Hin]; auto.
Qed.

(** The iterator stands on the pending row of least owner. *)
Lemma lower_bound_pending_least (tbl : list resource_limits_object)
    (itr r : resource_limits_object) :
  lower_bound_pending tbl = Some itr -> In r tbl -> rl_pending r = true ->
  (rl_owner itr <= rl_owner r)%N.
Proof.
  revert itr. induction tbl as [|x t IH]; simpl; [tauto|].
  intros itr Hlb [<-|Hin] Hp.
  - rewrite Hp in Hlb. destruct (lower_bound_pending t) as [m|].
    + destruct (N.ltb_spec (rl_owner m) (rl_owner x)); injection Hlb as <-; lia.
    + injection Hlb as <-. lia.
  - destruct (rl_pending x).
    + destruct (lower_bound_pending t) as [m|] eqn:Hm.
      * specialize (IH m eq_refl Hin Hp).
        destruct (N.ltb_spec (rl_owner m) (rl_owner x)); injection Hlb as <-; lia.
      * apply lower_bound_pending_none in Hm. rewrite (Hm r Hin) in Hp. discriminate.
    + auto.
Qed.

(** *** One iteration of the commit loop *)

Section CommitStep.
Variable tbl : list resource_limits_object.
Variables itr actual : resource_limits_object.
Hypothesis tbl_wf : limits_wf tbl.
Hypothesis itr_in : In itr tbl.
Hypothesis itr_pending : rl_pending itr = true.
Hypothesis actual_found : find_row (limits_key false (rl_owner itr)) tbl = Some actual.

Let o := rl_owner itr.
Let rlo := committed_copy itr.
Let tbl1 := remove_row (limits_key true o) (modify_row (limits_key false o) (fun _ => rlo) tbl).

Lemma step_keys :
  map limits_key_of (modify_row (limits_key false o) (fun _ => rlo) tbl)
  = map limits_key_of tbl.
Proof.
  apply modify_row_keys. intros r K. apply limits_key_spec in K. rewrite K. reflexivity.
Qed.

Lemma step_itr_found :
  find_row (limits_key true o) (modify_row (limits_key false o) (fun _ => rlo) tbl) = Some itr.
Proof.
  rewrite find_row_modify_other.
  - destruct tbl_wf as [Hu _]. rewrite <- itr_pending. apply unique_keys_find; assumption.
  - intros r K. apply limits_key_spec in K. split; apply not_true_is_false; intros K';
      apply limits_key_spec in K'; [congruence|discriminate].
Qed.

Lemma step_length : S (List.length tbl1) = List.length tbl.
Proof.
  unfold tbl1. rewrite (remove_row_length _ _ _ step_itr_found).
  apply modify_row_length.
Qed.

Lemma step_pending_gone : find_row (limits_key true o) tbl1 = None.
Proof.
  apply remove_row_gone. unfold unique_keys. rewrite step_keys. apply tbl_wf.
Qed.

Lemma step_committed : find_row (limits_key false o) tbl1 = Some rlo.
Proof.
  unfold tbl1. rewrite find_row_remove_other.
  - rewrite find_row_modify_same.
    + fold o in actual_found. rewrite actual_found. reflexivity.
    + intros r _. apply limits_key_spec. reflexivity.
  - intros r K. apply limits_key_spec in K. apply not_true_is_false. intros K'.
    apply limits_key_spec in K'. congruence.
Qed.

Lemma step_other_owner (p : bool) (a : account_name) :
  a <> o -> find_row (limits_key p a) tbl1 = find_row (limits_key p a) tbl.
Proof.
  intros Ha. unfold tbl1. rewrite find_row_remove_other.
  - apply find_row_modify_other. intros r K. apply limits_key_spec in K.
    split; apply not_true_is_false; intros K'; apply limits_key_spec in K'.
    + rewrite K in K'. injection K' as _ K'. auto.
    + injection K' as _ K'. auto.
  - intros r K. apply limits_key_spec in K. apply not_true_is_false. intros K'.
    apply limits_key_spec in K'. rewrite K in K'. injection K' as _ K'. auto.
Qed.

Lemma step_keeps_pending (p : resource_limits_object) :
  In p tbl -> rl_pending p = true -> rl_owner p <> o -> In p tbl1.
Proof.
  intros Hin Hp Ho. unfold tbl1. apply remove_row_keep.
  - apply modify_row_keep; [exact Hin|]. apply not_true_is_false. intros K.
    apply limits_key_spec in K. unfold limits_key_of in K. congruence.
  - apply not_true_is_false. intros K. apply limits_key_spec in K.
    unfold limits_key_of in K. congruence.
Qed.

Lemma step_wf : limits_wf tbl1.
Proof.
  destruct tbl_wf as (Hu & Hpc & Hint). repeat split.
  - apply remove_row_unique. unfold unique_keys. rewrite step_keys. exact Hu.
  - intros r Hin Hp. apply remove_row_in in Hin.
    apply modify_row_in in Hin as [Hin|(r0 & _ & ->)]; [|discriminate].
    destruct (N.eq_dec (rl_owner r) o) as [->|Hne].
    + rewrite step_committed. discriminate.
    + rewrite step_other_owner by exact Hne. apply Hpc; assumption.
  - apply remove_row_forall. apply modify_row_forall; [exact Hint|].
    intros _ _. rewrite Forall_forall in Hint. apply (Hint itr itr_in).
Qed.

Lemma step_total (field : resource_limits_object -> Z) :
  committed_total field tbl1
  = committed_total field tbl - Z.max 0 (field actual) + Z.max 0 (field rlo).
Proof.
  unfold tbl1. rewrite committed_total_remove_pending.
  apply committed_total_modify_committed; [exact actual_found|reflexivity].
Qed.

(** The modifier of the committed row, on totals that agree with the
    table: it fails only by overflow, and otherwise leaves the copy of the
    pending row and totals that agree with the next table. *)
Lemma step_commit_entry (rso : resource_limits_state_object) :
  totals_wf rso tbl ->
  match commit_entry itr actual rso with
  | None => True
  | Some (rso1, r) => r = rlo /\ totals_wf rso1 tbl1
  end.
Proof.
  intros ((Hram & Hcpu & Hnet) & Huram & Hucpu & Hunet).
  destruct tbl_wf as (Hu & Hpc & Hint). rewrite Forall_forall in Hint.
  destruct (limits_key_of_found _ _ _ _ actual_found) as (Hin & Hpend & Hown).
  destruct (Hint _ Hin) as (Ha1 & Ha2 & Ha3), (Hint _ itr_in) as (Hi1 & Hi2 & Hi3).
  unfold commit_entry.
  rewrite (update_state_and_value_covered (total_ram_bytes rso)); try assumption.
  2:{ rewrite Hram. apply committed_total_bound; assumption. }
  destruct (Z.leb_spec (total_ram_bytes rso - Z.max 0 (ram_bytes actual)
                        + Z.max 0 (ram_bytes itr)) UINT64_MAX) as [Hr|]; [|exact I].
  rewrite (update_state_and_value_covered (total_cpu_weight rso)); try assumption.
  2:{ rewrite Hcpu. apply committed_total_bound; assumption. }
  destruct (Z.leb_spec (total_cpu_weight rso - Z.max 0 (cpu_weight actual)
                        + Z.max 0 (cpu_weight itr)) UINT64_MAX) as [Hc|]; [|exact I].
  rewrite (update_state_and_value_covered (total_net_weight rso)); try assumption.
  2:{ rewrite Hnet. apply committed_total_bound; assumption. }
  destruct (Z.leb_spec (total_net_weight rso - Z.max 0 (net_weight actual)
                        + Z.max 0 (net_weight itr)) UINT64_MAX) as [Hn|]; [|exact I].
  split.
  - unfold rlo, committed_copy. rewrite Hpend, Hown. reflexivity.
  - pose proof (committed_total_bound ram_bytes _ _ Hin Hpend).
    pose proof (committed_total_bound cpu_weight _ _ Hin Hpend).
    pose proof (committed_total_bound net_weight _ _ Hin Hpend).
    unfold totals_wf, totals_consistent.
    cbn [set_totals total_ram_bytes total_cpu_weight total_net_weight].
    rewrite !step_total. unfold rlo, committed_copy.
    cbn [ram_bytes cpu_weight net_weight]. unfold is_u64 in *. repeat split; lia.
Qed.
End CommitStep.

(** *** The commit loop *)

(** With one unit of fuel more than the table has rows the loop ends by
    itself; it fails only with [StateInconsistent]; and when it ends no
    pending row is left, each committed row that had a pending row holds
    its values, the other committed rows are as they were, and the totals
    agree with the table. *)
Lemma commit_loop_correct (fuel : nat) :
  forall (rso : resource_limits_state_object) (tbl : list resource_limits_object),
  (List.length tbl < fuel)%nat -> limits_wf tbl -> totals_wf rso tbl ->
  match commit_loop fuel rso tbl with
  | None => False
  | Some (inl e) => e = StateInconsistent
  | Some (inr (rso', tbl')) =>
      no_pending tbl' /\ limits_wf tbl' /\ totals_wf rso' tbl'
      /\ (forall p, In p tbl -> rl_pending p = true ->
                    find_row (limits_key false (rl_owner p)) tbl' = Some (committed_copy p))
      /\ (forall a, find_row (limits_key true a) tbl = None ->
                    find_row (limits_key false a) tbl' = find_row (limits_key false a) tbl)
  end.
Proof.
  induction fuel as [|fuel IH]; intros rso tbl Hlen Hwf Htot; [inversion Hlen|].
  cbn [commit_loop]. destruct tbl as [|x t] eqn:Htbl.
  - split; [intros ? []|]. split; [exact Hwf|]. split; [exact Htot|].
    split; [intros ? []|reflexivity].
  - rewrite <- Htbl in *. clear Htbl x t.
    destruct (lower_bound_pending tbl) as [itr|] eqn:Hlb.
    + destruct (lower_bound_pending_some _ _ Hlb) as [Hin Hp].
      destruct (find_row (limits_key false (rl_owner itr)) tbl) as [actual|] eqn:Hact.
      2:{ exfalso. destruct Hwf as (_ & Hpc & _). exact (Hpc itr Hin Hp Hact). }
      pose proof (step_commit_entry tbl itr actual Hwf Hin Hact rso Htot) as Hce.
      destruct (commit_entry itr actual rso) as [[rso1 r]|]; [|reflexivity].
      destruct Hce as [-> Htot1].
      pose proof (step_length tbl itr Hwf Hin Hp) as Hlen1.
      pose proof (step_wf tbl itr actual Hwf Hin Hact) as Hwf1.
      cbv zeta in Hlen1, Hwf1, Htot1.
      assert (Hlt : (List.length
                       (remove_row (limits_key true (rl_owner itr))
                          (modify_row (limits_key false (rl_owner itr))
                             (fun _ => committed_copy itr) tbl)) < fuel)%nat) by lia.
      specialize (IH rso1 _ Hlt Hwf1 Htot1).
      destruct (commit_loop fuel rso1 _) as [[e|[rso' tbl']]|]; try exact IH.
      destruct IH as (Hnp & Hwf' & Htot' & Hcopy & Hkeep).
      split; [exact Hnp|]. split; [exact Hwf'|]. split; [exact Htot'|]. split.
      * intros p Hpin Hpp.
        destruct (N.eq_dec (rl_owner p) (rl_owner itr)) as [Ho|Ho].
        -- assert (p = itr) as ->.
           { destruct Hwf as (Hu & _). apply (unique_keys_inj tbl); try assumption.
             unfold limits_key_of. congruence. }
           rewrite Hkeep by (apply (step_pending_gone tbl itr Hwf)).
           apply (step_committed tbl itr actual Hact).
        -- apply Hcopy; [|exact Hpp].
           apply (step_keeps_pending tbl itr); assumption.
      * intros a Ha.
        assert (Hne : a <> rl_owner itr).
        { intros ->. destruct Hwf as (Hu & _).
          pose proof (unique_keys_find tbl itr Hu Hin) as Hf. rewrite Hp, Ha in Hf.
          discriminate. }
        rewrite Hkeep.
        -- apply (step_other_owner tbl itr false a Hne).
        -- rewrite (step_other_owner tbl itr true a Hne). exact Ha.
    + split; [apply lower_bound_pending_none; exact Hlb|].
      split; [exact Hwf|]. split; [exact Htot|]. split; [|reflexivity].
      intros p Hin Hp. apply lower_bound_pending_none in Hlb.
      rewrite (Hlb p Hin) in Hp. discriminate.
Qed.

(** *** set_account_limits keeps the invariants *)

Lemma limits_wf_modify_pending (a : account_name) (ram net cpu : Z)
    (tbl : list resource_limits_object) :
  limits_wf tbl -> is_i64 ram -> is_i64 net -> is_i64 cpu ->
  limits_wf (modify_row (limits_key true a) (set_limits ram net cpu) tbl).
Proof.
  intros (Hu & Hpc & Hint) Hr Hn Hc.
  assert (Hother : forall x,
             find_row (limits_key false x)
               (modify_row (limits_key true a) (set_limits ram net cpu) tbl)
             = find_row (limits_key false x) tbl).
  { intros x. apply find_row_modify_other. intros r K. apply limits_key_spec in K.
    split; apply not_true_is_false; intros K'; apply limits_key_spec in K';
      unfold limits_key_of in *; cbn [set_limits rl_pending rl_owner] in *; congruence. }
  repeat split.
  - unfold unique_keys. rewrite modify_row_keys; [exact Hu|]. reflexivity.
  - intros r Hin Hp. rewrite Hother.
    apply modify_row_in in Hin as [Hin|(r0 & Hf & ->)]; [apply Hpc; assumption|].
    apply find_row_some in Hf as [Hin _]. apply (Hpc r0 Hin Hp).
  - apply modify_row_forall; [exact Hint|]. intros r _. exact (conj Hr (conj Hn Hc)).
Qed.

Lemma limits_wf_create_pending (a : account_name) (c : resource_limits_object)
    (tbl : list resource_limits_object) :
  limits_wf tbl ->
  find_row (limits_key true a) tbl = None ->
  find_row (limits_key false a) tbl = Some c ->
  limits_wf (create_row (mk_resource_limits_object (rl_owner c) true (net_weight c)
                           (cpu_weight c) (ram_bytes c)) tbl).
Proof.
  intros (Hu & Hpc & Hint) Hnone Hc.
  destruct (limits_key_of_found _ _ _ _ Hc) as (Hin & Hpend & Hown).
  repeat split.
  - unfold unique_keys, create_row. rewrite map_app. apply NoDup_app.
    + exact Hu.
    + repeat constructor. intros [].
    + intros k Hk [<-|[]]. apply find_row_limits_none in Hnone. apply Hnone.
      unfold limits_key_of in Hk. cbn [rl_pending rl_owner] in Hk. rewrite Hown in Hk.
      exact Hk.
  - intros r Hr Hp. rewrite find_row_create. unfold create_row in Hr.
    apply in_app_or in Hr as [Hr|[<-|[]]].
    + specialize (Hpc r Hr Hp).
      destruct (find_row (limits_key false (rl_owner r)) tbl); [discriminate|contradiction].
    + cbn [rl_owner]. rewrite Hown, Hc. discriminate.
  - unfold create_row. apply Forall_app. split; [exact Hint|].
    constructor; [|constructor]. rewrite Forall_forall in Hint.
    exact (Hint c Hin).
Qed.

Lemma set_account_limits_wf (c : limits_call) (d d' : database) (decreased : bool) :
  limits_wf (resource_limits_index d) ->
  int64_call c ->
  set_account_limits (call_account c) (call_ram_bytes c) (call_net_weight c)
    (call_cpu_weight c) d = Returned (decreased, d') ->
  limits_wf (resource_limits_index d')
  /\ resource_limits_state_index d' = resource_limits_state_index d
  /\ forall field, committed_total field (resource_limits_index d')
                   = committed_total field (resource_limits_index d).
Proof.
  intros Hwf (Hr & Hn & Hc). unfold set_account_limits, find_or_create_pending_limits.
  destruct (find_row (limits_key true (call_account c)) (resource_limits_index d))
    as [pl|] eqn:Hpl.
  - cbn [bind]. intros [= _ <-]. cbn [resource_limits_index resource_limits_state_index
                                        with_limits].
    destruct (limits_key_of_found _ _ _ _ Hpl) as (_ & -> & ->).
    split; [apply limits_wf_modify_pending; assumption|]. split; [reflexivity|].
    intros field. apply committed_total_modify_pending. intros r Hp. exact Hp.
  - destruct (find_row (limits_key false (call_account c)) (resource_limits_index d))
      as [cl|] eqn:Hcl; cbn [get bind]; [|discriminate].
    intros [= _ <-]. cbn [resource_limits_index resource_limits_state_index with_limits
                             rl_pending rl_owner].
    split; [|split; [reflexivity|]].
    + apply limits_wf_modify_pending; try assumption.
      apply (limits_wf_create_pending (call_account c)); assumption.
    + intros field. rewrite committed_total_modify_pending by (intros r Hp; exact Hp).
      apply committed_total_create_pending. reflexivity.
Qed.

Lemma set_account_limits_all_wf (calls : list limits_call) :
  forall (d d1 : database),
  limits_wf (resource_limits_index d) ->
  Forall int64_call calls ->
  set_account_limits_all calls d = Returned d1 ->
  limits_wf (resource_limits_index d1)
  /\ resource_limits_state_index d1 = resource_limits_state_index d
  /\ forall field, committed_total field (resource_limits_index d1)
                   = committed_total field (resource_limits_index d).
Proof.
  induction calls as [|c rest IH]; intros d d1 Hwf Hcalls; cbn [set_account_limits_all].
  - intros [= <-]. auto.
  - inversion Hcalls as [|? ? Hc Hrest]; subst.
    destruct (set_account_limits _ _ _ _ d) as [[b d0]| |] eqn:Hcall; cbn [bind snd];
      try discriminate.
    intros Hrun. destruct (set_account_limits_wf c d d0 b Hwf Hc Hcall) as (Hwf0 & Hs0 & Ht0).
    destruct (IH d0 d1 Hwf0 Hrest Hrun) as (Hwf1 & Hs1 & Ht1).
    split; [exact Hwf1|]. split; [congruence|]. intros field. rewrite Ht1. apply Ht0.
Qed.

(** *** process_account_limit_updates *)

(** The modifier of a committed row fails when one of its three calls of
    the lambda does, and the call then fails with [StateInconsistent]. *)
Lemma commit_entry_none (itr rlo : resource_limits_object)
    (rso : resource_limits_state_object) :
  commit_entry itr rlo rso = None
  <-> update_state_and_value (total_ram_bytes rso) (ram_bytes rlo) (ram_bytes itr) = None
      \/ update_state_and_value (total_cpu_weight rso) (cpu_weight rlo) (cpu_weight itr) = None
      \/ update_state_and_value (total_net_weight rso) (net_weight rlo) (net_weight itr) = None.
Proof.
  unfold commit_entry.
  destruct (update_state_and_value (total_ram_bytes rso) _ _) as [[? ?]|];
    destruct (update_state_and_value (total_cpu_weight rso) _ _) as [[? ?]|];
    destruct (update_state_and_value (total_net_weight rso) _ _) as [[? ?]|];
    split; auto; try discriminate; intros [H|[H|H]]; discriminate.
Qed.

Lemma process_account_limit_updates_inconsistent (d : database)
    (state : resource_limits_state_object) (itr actual : resource_limits_object) :
  get_state d = Some state ->
  lower_bound_pending (resource_limits_index d) = Some itr ->
  find_row (limits_key false (rl_owner itr)) (resource_limits_index d) = Some actual ->
  commit_entry itr actual state = None ->
  process_account_limit_updates d = Some (ThrewInModify StateInconsistent).
Proof.
  intros Hs Hlb Hact Hce. unfold process_account_limit_updates. rewrite Hs.
  cbn [commit_loop]. destruct (resource_limits_index d) as [|x t] eqn:Htbl; [discriminate|].
  rewrite Hlb, Hact, Hce. reflexivity.
Qed.

(** C7.  From a database whose limits table is well formed and whose
    totals are the sums of the non-negative committed values, after any
    run of [set_account_limits] calls, one [process_account_limit_updates]
    call ends, and it fails, if at all, with [StateInconsistent]; when it
    returns, no pending row is left, every committed row that had a
    pending row holds the values of that row, the other committed rows are
    untouched, and the three totals are again the sums of the non-negative
    committed values.  The lambda of the commit fails when the old
    positive value exceeds the total and when the new positive value does
    not fit on top of it, and such a failure of the first pending row makes
    the call fail with [StateInconsistent]. *)
Theorem process_account_limit_updates_commits (calls : list limits_call) (d d1 : database)
    (state : resource_limits_state_object) :
  get_state d = Some state ->
  limits_wf (resource_limits_index d) ->
  totals_wf state (resource_limits_index d) ->
  Forall int64_call calls ->
  set_account_limits_all calls d = Returned d1 ->
  (exists r,
      process_account_limit_updates d1 = Some r
      /\ match r with
         | Returned d2 =>
             no_pending (resource_limits_index d2)
             /\ (forall p, In p (resource_limits_index d1) -> rl_pending p = true ->
                           find_row (limits_key false (rl_owner p)) (resource_limits_index d2)
                           = Some (committed_copy p))
             /\ (forall a, find_row (limits_key true a) (resource_limits_index d1) = None ->
                           find_row (limits_key false a) (resource_limits_index d2)
                           = find_row (limits_key false a) (resource_limits_index d1))
             /\ exists state2,
                  get_state d2 = Some state2
                  /\ totals_consistent state2 (resource_limits_index d2)
         | Threw _ _ => False
         | ThrewInModify e => e = StateInconsistent
         end)
  /\ (forall total value pending_value,
         is_u64 total -> is_i64 value -> is_i64 pending_value ->
         (0 < value -> total < value ->
          update_state_and_value total value pending_value = None)
         /\ (0 < pending_value -> Z.max 0 value <= total ->
             UINT64_MAX < total - Z.max 0 value + pending_value ->
             update_state_and_value total value pending_value = None))
  /\ (forall d0 state0 itr actual,
         get_state d0 = Some state0 ->
         lower_bound_pending (resource_limits_index d0) = Some itr ->
         find_row (limits_key false (rl_owner itr)) (resource_limits_index d0) = Some actual ->
         update_state_and_value (total_ram_bytes state0) (ram_bytes actual) (ram_bytes itr)
         = None
         \/ update_state_and_value (total_cpu_weight state0) (cpu_weight actual)
              (cpu_weight itr) = None
         \/ update_state_and_value (total_net_weight state0) (net_weight actual)
              (net_weight itr) = None ->
         process_account_limit_updates d0 = Some (ThrewInModify StateInconsistent)).
Proof.
  intros Hs Hwf Htot Hcalls Hrun. split; [|split].
  - destruct (set_account_limits_all_wf calls d d1 Hwf Hcalls Hrun) as (Hwf1 & Hs1 & Ht1).
    assert (Hstate1 : get_state d1 = Some state) by (unfold get_state in *; congruence).
    assert (Htot1 : totals_wf state (resource_limits_index d1)).
    { destruct Htot as ((? & ? & ?) & ? & ? & ?). unfold totals_wf, totals_consistent.
      rewrite !Ht1. auto 10. }
    pose proof (commit_loop_correct (S (List.length (resource_limits_index d1))) state
                  (resource_limits_index d1) (Nat.lt_succ_diag_r _) Hwf1 Htot1) as Hloop.
    unfold process_account_limit_updates. rewrite Hstate1.
    destruct (commit_loop _ state (resource_limits_index d1)) as [[e|[rso tbl]]|];
      [|eexists; split; [reflexivity|]|contradiction].
    + eexists. split; [reflexivity|exact Hloop].
    + destruct Hloop as (Hnp & _ & (Hcons & _) & Hcopy & Hkeep).
      cbn [resource_limits_index modify_state with_state with_limits].
      split; [exact Hnp|]. split; [exact Hcopy|]. split; [exact Hkeep|].
      exists rso. split; [|exact Hcons].
      unfold get_state in *. cbn [resource_limits_state_index modify_state with_state
                                   with_limits].
      destruct (resource_limits_state_index d1); [discriminate|reflexivity].
  - intros total value pending_value. apply update_state_and_value_fails.
  - intros d0 state0 itr actual Hs0 Hlb Hact Hfail.
    apply (process_account_limit_updates_inconsistent d0 state0 itr actual); try assumption.
    apply commit_entry_none. exact Hfail.
Qed.

Lemma process_account_limit_updates_commits_witness :
  exists d1 d2 state2,
    set_account_limits_all sample_calls sample_store = Returned d1
    /\ process_account_limit_updates d1 = Some (Returned d2)
    /\ no_pending (resource_limits_index d2)
    /\ get_state d2 = Some state2
    /\ totals_consistent state2 (resource_limits_index d2)
    /\ total_cpu_weight state2 = 50 /\ total_ram_bytes state2 = 4096.
Proof.
  eexists.
  assert (Hrun : set_account_limits_all sample_calls sample_store = Returned ?[d1])
    by (vm_compute; reflexivity).
  assert (H1 : limits_wf (resource_limits_index sample_store)).
  { split; [|split].
    - unfold unique_keys; simpl; repeat constructor; simpl; intuition discriminate.
    - intros r [<-|[<-|[]]]; discriminate.
    - repeat constructor; simpl; int_consts; lia. }
  assert (H2 : totals_wf sample_state (resource_limits_index sample_store))
    by (repeat split; simpl; int_consts; lia).
  assert (H3 : Forall int64_call sample_calls)
    by (repeat constructor; simpl; int_consts; lia).
  destruct (proj1 (process_account_limit_updates_commits sample_calls sample_store _
                     sample_state eq_refl H1 H2 H3 Hrun)) as (r & Hproc & Hr).
  vm_compute in Hproc.
  injection Hproc as <-.
  destruct Hr as (Hnp & _ & _ & state2 & Hs2 & Hcons).
  eexists _, state2.
  split; [exact Hrun|].
  split; [vm_compute; reflexivity|].
  split; [exact Hnp|]. split; [exact Hs2|]. split; [exact Hcons|].
  injection Hs2 as <-. split; reflexivity.
Defined.

(** ** Snapshot codec *)

Section SnapshotFacts.
Variable packed : Type.
Variable add_row : snapshot_row -> packed.
Variable read_row : packed -> option snapshot_row.
(** What the sink owes: a row that was packed is read back as it was. *)
Hypothesis read_row_add_row : forall row, read_row (add_row row) = Some row.

(** Reading the section of a table appends its rows, in their order, to the
    table. *)
Lemma read_rows_limits (l : list resource_limits_object) :
  forall d, read_rows packed read_row ResourceLimits (map add_row (map limits_row l)) d
            = Some (with_limits (resource_limits_index d ++ l) d).
Proof.
  induction l as [|r t IH]; intros d; cbn [map read_rows].
  - rewrite app_nil_r. destruct d; reflexivity.
  - rewrite read_row_add_row. cbn [create]. rewrite IH. unfold create_row.
    cbn [resource_limits_index with_limits]. rewrite <- app_assoc. reflexivity.
Qed.

Lemma read_rows_usage (l : list resource_usage_object) :
  forall d, read_rows packed read_row ResourceUsage (map add_row (map usage_row l)) d
            = Some (with_usage (resource_usage_index d ++ l) d).
Proof.
  induction l as [|r t IH]; intros d; cbn [map read_rows].
  - rewrite app_nil_r. destruct d; reflexivity.
  - rewrite read_row_add_row. cbn [create]. rewrite IH. unfold create_row.
    cbn [resource_usage_index with_usage]. rewrite <- app_assoc. reflexivity.
Qed.

Lemma read_rows_gst (l : list resource_gst_object) :
  forall d, read_rows packed read_row GasBalance (map add_row (map gst_row l)) d
            = Some (with_gst (resource_gst_index d ++ l) d).
Proof.
  induction l as [|r t IH]; intros d; cbn [map read_rows].
  - rewrite app_nil_r. destruct d; reflexivity.
  - rewrite read_row_add_row. cbn [create]. rewrite IH. unfold create_row.
    cbn [resource_gst_index with_gst]. rewrite <- app_assoc. reflexivity.
Qed.

Lemma read_rows_activation (l : list resource_activation_gst_object) :
  forall d, read_rows packed read_row GasActivation (map add_row (map activation_row l)) d
            = Some (with_activation (resource_activation_gst_index d ++ l) d).
Proof.
  induction l as [|r t IH]; intros d; cbn [map read_rows].
  - rewrite app_nil_r. destruct d; reflexivity.
  - rewrite read_row_add_row. cbn [create]. rewrite IH. unfold create_row.
    cbn [resource_activation_gst_index with_activation]. rewrite <- app_assoc. reflexivity.
Qed.

Lemma read_rows_state (l : list resource_limits_state_object) :
  forall d, read_rows packed read_row ResourceState (map add_row (map state_row l)) d
            = Some (with_state (resource_limits_state_index d ++ l) d).
Proof.
  induction l as [|r t IH]; intros d; cbn [map read_rows].
  - rewrite app_nil_r. destruct d; reflexivity.
  - rewrite read_row_add_row. cbn [create]. rewrite IH. unfold create_row.
    cbn [resource_limits_state_index with_state]. rewrite <- app_assoc. reflexivity.
Qed.

Lemma read_rows_config (l : list resource_limits_config_object) :
  forall d, read_rows packed read_row ResourceConfig (map add_row (map config_row l)) d
            = Some (with_config (resource_limits_config_index d ++ l) d).
Proof.
  induction l as [|r t IH]; intros d; cbn [map read_rows].
  - rewrite app_nil_r. destruct d; reflexivity.
  - rewrite read_row_add_row. cbn [create]. rewrite IH. unfold create_row.
    cbn [resource_limits_config_index with_config]. rewrite <- app_assoc. reflexivity.
Qed.

Lemma read_from_snapshot_add_to_snapshot (d : database) :
  read_from_snapshot packed read_row (add_to_snapshot packed add_row d) fresh_store = Some d.
Proof.
  unfold read_from_snapshot, add_to_snapshot, walk_indices.
  cbn [map read_sections read_section find_row section_name option_map section_rows walk
       index_name_eqb].
  rewrite read_rows_limits, read_rows_usage, read_rows_gst, read_rows_activation,
    read_rows_state, read_rows_config.
  destruct d; reflexivity.
Qed.

(** C9.  The snapshot holds exactly one section per table, in the order
    ResourceLimits, ResourceUsage, GasBalance, GasActivation, ResourceState,
    ResourceConfig, each with the rows of its table in the table's order;
    restoring it into a fresh store succeeds, and the snapshot of the
    restored store is, row for row as the sink packed them, the snapshot it
    was restored from. *)
Theorem snapshot_round_trip (d : database) :
  map section_name (add_to_snapshot packed add_row d)
  = [ResourceLimits; ResourceUsage; GasBalance; GasActivation; ResourceState; ResourceConfig]
  /\ map section_rows (add_to_snapshot packed add_row d)
     = [map add_row (map limits_row (resource_limits_index d));
        map add_row (map usage_row (resource_usage_index d));
        map add_row (map gst_row (resource_gst_index d));
        map add_row (map activation_row (resource_activation_gst_index d));
        map add_row (map state_row (resource_limits_state_index d));
        map add_row (map config_row (resource_limits_config_index d))]
  /\ exists d',
       read_from_snapshot packed read_row (add_to_snapshot packed add_row d) fresh_store
       = Some d'
       /\ add_to_snapshot packed add_row d' = add_to_snapshot packed add_row d.
Proof.
  split; [reflexivity|]. split; [reflexivity|].
  exists d. split; [apply read_from_snapshot_add_to_snapshot|reflexivity].
Qed.
End SnapshotFacts.

Lemma snapshot_round_trip_witness :
  exists d',
    read_from_snapshot snapshot_row Some (add_to_snapshot snapshot_row (fun row => row)
                                            sample_store) fresh_store = Some d'
    /\ add_to_snapshot snapshot_row (fun row => row) d'
       = add_to_snapshot snapshot_row (fun row => row) sample_store.
Proof.
  refine (proj2 (proj2 (snapshot_round_trip snapshot_row (fun row => row) Some _
                          sample_store))).
  reflexivity.
Defined.

(** * More of the manager *)

(** ** Records and singletons *)

Lemma with_usage_same (d : database) : with_usage (resource_usage_index d) d = d.
Proof. destruct d; reflexivity. Qed.

Lemma with_state_same (d : database) : with_state (resource_limits_state_index d) d = d.
Proof. destruct d; reflexivity. Qed.

Lemma get_state_modify_state (f : resource_limits_state_object -> resource_limits_state_object)
    (d : database) :
  get_state (modify_state f d) = option_map f (get_state d).
Proof.
  unfold get_state, modify_state. cbn [resource_limits_state_index with_state].
  destruct (resource_limits_state_index d); reflexivity.
Qed.

Lemma modify_state_frame (f : resource_limits_state_object -> resource_limits_state_object)
    (d : database) :
  with_state (resource_limits_state_index d) (modify_state f d) = d.
Proof. destruct d; reflexivity. Qed.

Lemma get_config_modify_config
    (f : resource_limits_config_object -> resource_limits_config_object) (d : database) :
  get_config (modify_config f d) = option_map f (get_config d).
Proof.
  unfold get_config, modify_config. cbn [resource_limits_config_index with_config].
  destruct (resource_limits_config_index d); reflexivity.
Qed.

Lemma modify_config_frame
    (f : resource_limits_config_object -> resource_limits_config_object) (d : database) :
  with_config (resource_limits_config_index d) (modify_config f d) = d.
Proof. destruct d; reflexivity. Qed.

(** ** set_block_parameters and process_block_usage *)

(** X1.  [set_block_parameters] throws from [validate], before it reads the
    store, exactly when [periods] or a denominator of either parameter set
    is zero; otherwise it fails only for want of the configuration row,
    leaving the database as it was, or returns having replaced the two
    parameter sets in the configuration row and nothing else: the account
    windows, the state row with its virtual limits and every other table
    are untouched. *)
Theorem set_block_parameters_outcome (cpu net : elastic_limit_parameters) (d : database) :
  match set_block_parameters cpu net d with
  | inl _ =>
      periods cpu <= 0 \/ denominator (contract_rate cpu) <= 0
      \/ denominator (expand_rate cpu) <= 0
      \/ periods net <= 0 \/ denominator (contract_rate net) <= 0
      \/ denominator (expand_rate net) <= 0
  | inr r =>
      (0 < periods cpu /\ 0 < denominator (contract_rate cpu)
       /\ 0 < denominator (expand_rate cpu))
      /\ (0 < periods net /\ 0 < denominator (contract_rate net)
          /\ 0 < denominator (expand_rate net))
      /\ match r with
         | Returned d' =>
             exists config,
               get_config d = Some config
               /\ get_config d'
                  = Some (mk_resource_limits_config_object cpu net
                            (account_cpu_usage_average_window config)
                            (account_net_usage_average_window config))
               /\ with_config (resource_limits_config_index d) d' = d
         | Threw e d' => e = RowNotFound /\ d' = d /\ get_config d = None
         | ThrewInModify _ => False
         end
  end.
Proof.
  unfold set_block_parameters, validate.
  destruct (Z.gtb_spec (periods cpu) 0); cbn [negb]; [|lia].
  destruct (Z.gtb_spec (denominator (contract_rate cpu)) 0); cbn [negb]; [|lia].
  destruct (Z.gtb_spec (denominator (expand_rate cpu)) 0); cbn [negb]; [|lia].
  destruct (Z.gtb_spec (periods net) 0); cbn [negb]; [|lia].
  destruct (Z.gtb_spec (denominator (contract_rate net)) 0); cbn [negb]; [|lia].
  destruct (Z.gtb_spec (denominator (expand_rate net)) 0); cbn [negb]; [|lia].
  split; [auto|]. split; [auto|].
  destruct (get_config d) as [config|] eqn:Hc; cbn [get bind].
  - exists config. split; [reflexivity|].
    rewrite get_config_modify_config, Hc. split; [reflexivity|apply modify_config_frame].
  - auto.
Qed.

Section BlockUsage.
Variable accumulator_add : usage_accumulator -> Z -> Z -> Z -> option usage_accumulator.
Variable accumulator_average : usage_accumulator -> Z.
Variable ratio_times : Z -> ratio -> Z.

Let process := process_block_usage accumulator_add accumulator_average ratio_times.

(** X2.  When [process_block_usage] returns, the two pending usages of the
    block are zero, the two averages took the pending usage of the block at
    [block_num], the totals are as they were, nothing but the state row
    changed, so the whole [max] of each resource is again available to the
    block; and each virtual limit lies in
    [[max, max * max_multiplier]] of its parameters whenever that interval
    is not empty and fits in 64 bits. *)
Theorem process_block_usage_resets (block_num : Z) (d d' : database) :
  process block_num d = Returned d' ->
  exists s config s',
    get_state d = Some s /\ get_config d = Some config /\ get_state d' = Some s'
    /\ with_state (resource_limits_state_index d) d' = d
    /\ pending_cpu_usage s' = 0 /\ pending_net_usage s' = 0
    /\ accumulator_add (average_block_cpu_usage s) (pending_cpu_usage s) block_num
         (periods (cpu_limit_parameters config)) = Some (average_block_cpu_usage s')
    /\ accumulator_add (average_block_net_usage s) (pending_net_usage s) block_num
         (periods (net_limit_parameters config)) = Some (average_block_net_usage s')
    /\ (total_ram_bytes s', total_cpu_weight s', total_net_weight s')
       = (total_ram_bytes s, total_cpu_weight s, total_net_weight s)
    /\ get_block_cpu_limit d' = Returned (u64 (max (cpu_limit_parameters config)))
    /\ get_block_net_limit d' = Returned (u64 (max (net_limit_parameters config)))
    /\ (forall p, p = cpu_limit_parameters config ->
                  0 <= max p -> max p <= max p * max_multiplier p <= UINT64_MAX ->
                  max p <= virtual_cpu_limit s' <= max p * max_multiplier p)
    /\ (forall p, p = net_limit_parameters config ->
                  0 <= max p -> max p <= max p * max_multiplier p <= UINT64_MAX ->
                  max p <= virtual_net_limit s' <= max p * max_multiplier p).
Proof.
  unfold process, process_block_usage.
  destruct (get_state d) as [s|] eqn:Hs; cbn [get bind]; [|discriminate].
  destruct (get_config d) as [config|] eqn:Hc; cbn [get bind]; [|discriminate].
  destruct (accumulator_add (average_block_cpu_usage s) _ _ _) as [acpu|] eqn:Hcpu;
    [|discriminate].
  destruct (accumulator_add (average_block_net_usage s) _ _ _) as [anet|] eqn:Hnet;
    [|discriminate].
  cbv zeta. intros [= <-]. exists s, config. eexists.
  split; [reflexivity|]. split; [reflexivity|].
  split; [rewrite get_state_modify_state, Hs; reflexivity|].
  split; [apply modify_state_frame|].
  cbn [pending_cpu_usage pending_net_usage average_block_cpu_usage average_block_net_usage
       total_ram_bytes total_cpu_weight total_net_weight virtual_cpu_limit virtual_net_limit].
  split; [reflexivity|]. split; [reflexivity|]. split; [exact Hcpu|].
  split; [exact Hnet|]. split; [reflexivity|].
  assert (Hc' : get_config (modify_state
                  (fun state =>
                     mk_resource_limits_state_object anet acpu 0 0 (total_net_weight state)
                       (total_cpu_weight state) (total_ram_bytes state)
                       (update_elastic_limit ratio_times (virtual_net_limit s)
                          (accumulator_average anet) (net_limit_parameters config))
                       (update_elastic_limit ratio_times (virtual_cpu_limit s)
                          (accumulator_average acpu) (cpu_limit_parameters config))) d)
                = Some config) by exact Hc.
  split; [|split; [|split]].
  - unfold get_block_cpu_limit. rewrite get_state_modify_state, Hs, Hc'.
    cbn [option_map get bind pending_cpu_usage]. rewrite Z.sub_0_r. reflexivity.
  - unfold get_block_net_limit. rewrite get_state_modify_state, Hs, Hc'.
    cbn [option_map get bind pending_net_usage]. rewrite Z.sub_0_r. reflexivity.
  - intros p -> Hmax Hprod. unfold update_elastic_limit.
    rewrite (u64_small (max _ * _)) by (unfold is_u64; lia). lia.
  - intros p -> Hmax Hprod. unfold update_elastic_limit.
    rewrite (u64_small (max _ * _)) by (unfold is_u64; lia). lia.
Qed.
End BlockUsage.

Lemma process_block_usage_resets_witness :
  exists d' s',
    process_block_usage (accumulator_add_spec sample_precision)
      (fun acc => value_ex acc / sample_precision) ratio_mul 1
      (with_state [add_pending_usage 400 10 sample_state] sample_store) = Returned d'
    /\ get_state d' = Some s'
    /\ pending_cpu_usage s' = 0 /\ pending_net_usage s' = 0
    /\ 1000 <= virtual_cpu_limit s' <= 1000000.
Proof.
  eexists.
  assert (Hrun : process_block_usage (accumulator_add_spec sample_precision)
                   (fun acc => value_ex acc / sample_precision) ratio_mul 1
                   (with_state [add_pending_usage 400 10 sample_state] sample_store)
                 = Returned ?[d']) by (vm_compute; reflexivity).
  destruct (process_block_usage_resets _ _ _ _ _ _ Hrun)
    as (s & config & s' & Hs & Hc & Hs' & _ & Hpc & Hpn & _ & _ & _ & _ & _ & Hv & _).
  exists s'. split; [exact Hrun|]. split; [exact Hs'|]. split; [exact Hpc|].
  split; [exact Hpn|].
  injection Hc as <-.
  apply (Hv _ eq_refl); simpl; int_consts; lia.
Defined.

(** ** What add_transaction_usage and update_account_usage leave alone *)

Lemma modify_row_map {T A : Type} (g : T -> A) (key : T -> bool) (f : T -> T) (l : list T) :
  (forall r, g (f r) = g r) -> map g (modify_row key f l) = map g l.
Proof.
  intros Hg. induction l as [|x t IH]; simpl; [reflexivity|].
  destruct (key x); simpl; [rewrite Hg|rewrite IH]; reflexivity.
Qed.

(** Rewriting the accumulators of the row of [a]. *)
Lemma set_usage_touch (a : account_name) (net' cpu' : usage_accumulator) (d : database) :
  let d1 := with_usage (modify_row (usage_key a) (set_usage net' cpu')
                          (resource_usage_index d)) d in
  with_usage (resource_usage_index d) d1 = d
  /\ same_ram_usage d d1
  /\ forall b, a <> b ->
               find_row (usage_key b) (resource_usage_index d1)
               = find_row (usage_key b) (resource_usage_index d).
Proof.
  intros d1. split; [destruct d; reflexivity|]. split; [split|].
  - apply modify_row_map. reflexivity.
  - apply modify_row_map. reflexivity.
  - intros b Hab. apply usage_key_other; [exact Hab|reflexivity].
Qed.

Section UsageFrames.
Variable rate_limiting_precision : Z.
Variable accumulator_add : usage_accumulator -> Z -> Z -> Z -> option usage_accumulator.

Let charge := charge_account rate_limiting_precision accumulator_add.
Let charge_all := charge_accounts rate_limiting_precision accumulator_add.
Let add_usage := add_transaction_usage rate_limiting_precision accumulator_add.

(** The loop body, whether it returns or throws between store operations. *)
Lemma charge_account_touch state config cpu net time_slot a d :
  match charge state config cpu net time_slot a d with
  | Returned d1 | Threw _ d1 =>
      with_usage (resource_usage_index d) d1 = d
      /\ same_ram_usage d d1
      /\ forall b, a <> b ->
                   find_row (usage_key b) (resource_usage_index d1)
                   = find_row (usage_key b) (resource_usage_index d)
  | ThrewInModify _ => True
  end.
Proof.
  assert (Hsame : with_usage (resource_usage_index d) d = d
                  /\ same_ram_usage d d
                  /\ forall b, a <> b ->
                               find_row (usage_key b) (resource_usage_index d)
                               = find_row (usage_key b) (resource_usage_index d)).
  { split; [apply with_usage_same|]. split; [split; reflexivity|reflexivity]. }
  unfold charge, charge_account.
  destruct (find_row (usage_key a) (resource_usage_index d)); cbn [get bind];
    [|exact Hsame].
  unfold get_account_limits.
  destruct (find_row (limits_key true a) _);
    try destruct (find_row (limits_key false a) _); cbn [get bind]; try exact Hsame;
    (destruct (accumulator_add _ net _ _); [|exact I];
     destruct (accumulator_add _ cpu _ _); [|exact I];
     destruct (_ && _); [destruct (_ <=? _)|]; cbn [gst_assert bind];
     try apply set_usage_touch;
     (destruct (_ && _); [destruct (_ <=? _)|]; cbn [gst_assert bind];
      apply set_usage_touch)).
Qed.

Lemma charge_accounts_touch state config cpu net time_slot accounts :
  forall d,
  match charge_all state config cpu net time_slot accounts d with
  | Returned d1 | Threw _ d1 =>
      with_usage (resource_usage_index d) d1 = d
      /\ same_ram_usage d d1
      /\ forall b, ~ In b accounts ->
                   find_row (usage_key b) (resource_usage_index d1)
                   = find_row (usage_key b) (resource_usage_index d)
  | ThrewInModify _ => True
  end.
Proof.
  induction accounts as [|a rest IH]; intros d; cbn [charge_all charge_accounts].
  - split; [apply with_usage_same|]. split; [split; reflexivity|reflexivity].
  - fold charge. pose proof (charge_account_touch state config cpu net time_slot a d) as Ha.
    destruct (charge state config cpu net time_slot a d) as [d0|e d0|e]; cbn [bind].
    + specialize (IH d0). fold charge_all.
      destruct (charge_all state config cpu net time_slot rest d0) as [d1|e d1|e];
        try exact I;
        (destruct Ha as (Hf0 & (Ho0 & Hr0) & Hb0), IH as (Hf1 & (Ho1 & Hr1) & Hb1);
         split; [rewrite <- Hf0 at 2; rewrite <- Hf1; reflexivity|];
         split; [split; congruence|];
         intros b Hb; rewrite Hb1, Hb0; [reflexivity| |]; intros Hin; apply Hb;
         [left; exact Hin|right; exact Hin]).
    + destruct Ha as (Hf0 & Hs0 & Hb0). split; [exact Hf0|]. split; [exact Hs0|].
      intros b Hb. apply Hb0. intros ->. apply Hb. left. reflexivity.
    + exact I.
Qed.

(** The only exception out of a modify callback is that of
    [usage_accumulator::add]. *)
Lemma charge_account_in_modify state config cpu net time_slot a d e :
  charge state config cpu net time_slot a d = ThrewInModify e -> e = AccumulatorFailure.
Proof.
  unfold charge, charge_account.
  destruct (find_row (usage_key a) (resource_usage_index d)); cbn [get bind];
    [|discriminate].
  unfold get_account_limits.
  destruct (find_row (limits_key true a) _);
    try destruct (find_row (limits_key false a) _); cbn [get bind]; try discriminate;
    (destruct (accumulator_add _ net _ _); [|intros [= <-]; reflexivity];
     destruct (accumulator_add _ cpu _ _); [|intros [= <-]; reflexivity];
     destruct (_ && _); [destruct (_ <=? _)|]; cbn [gst_assert bind]; try discriminate;
     (destruct (_ && _); [destruct (_ <=? _)|]; cbn [gst_assert bind]; discriminate)).
Qed.

Lemma charge_accounts_in_modify state config cpu net time_slot accounts :
  forall d e,
  charge_all state config cpu net time_slot accounts d = ThrewInModify e ->
  e = AccumulatorFailure.
Proof.
  induction accounts as [|a rest IH]; intros d e; cbn [charge_all charge_accounts].
  - discriminate.
  - fold charge. destruct (charge state config cpu net time_slot a d) as [d0|e0 d0|e0] eqn:H0;
      cbn [bind]; [apply IH|discriminate|].
    intros [= <-]. exact (charge_account_in_modify _ _ _ _ _ _ _ _ H0).
Qed.

(** X3.  When [add_transaction_usage] returns, or throws for a missing row
    or a failed assertion, it leaves the limits, the gas rows, the
    activation row and the configuration as they were; in the usage table
    it keeps every row, its owner and its [ram_usage], and it does not
    touch the row of an account that is not among the authorizers.  Only
    the accumulators of the authorizers and the state row can differ.  The
    one other outcome is the exception of [usage_accumulator::add], raised
    inside the modify callback of the usage row of an authorizer, in the
    loop: for it the model holds no database. *)
Theorem add_transaction_usage_frame accounts cpu net time_slot d :
  match add_usage accounts cpu net time_slot d with
  | Returned d' | Threw _ d' =>
      with_state (resource_limits_state_index d)
        (with_usage (resource_usage_index d) d') = d
      /\ same_ram_usage d d'
      /\ forall b, ~ In b accounts ->
                   find_row (usage_key b) (resource_usage_index d')
                   = find_row (usage_key b) (resource_usage_index d)
  | ThrewInModify e =>
      e = AccumulatorFailure
      /\ exists state config,
           get_state d = Some state /\ get_config d = Some config
           /\ charge_all state config cpu net time_slot accounts d = ThrewInModify e
  end.
Proof.
  assert (Hsame : with_state (resource_limits_state_index d)
                    (with_usage (resource_usage_index d) d) = d
                  /\ same_ram_usage d d
                  /\ forall b, ~ In b accounts ->
                               find_row (usage_key b) (resource_usage_index d)
                               = find_row (usage_key b) (resource_usage_index d)).
  { split; [destruct d; reflexivity|]. split; [split; reflexivity|reflexivity]. }
  unfold add_usage, add_transaction_usage.
  destruct (get_state d) as [state|]; cbn [get bind]; [|exact Hsame].
  destruct (get_config d) as [config|]; cbn [get bind]; [|exact Hsame].
  pose proof (charge_accounts_touch state config cpu net time_slot accounts d) as Hloop.
  fold charge_all.
  destruct (charge_all state config cpu net time_slot accounts d) as [d1|e d1|e] eqn:Hrun;
    cbn [bind].
  - destruct Hloop as (Hf & Hs & Hb).
    assert (Hres : with_state (resource_limits_state_index d)
                     (with_usage (resource_usage_index d)
                        (modify_state (add_pending_usage cpu net) d1)) = d
                   /\ same_ram_usage d (modify_state (add_pending_usage cpu net) d1)
                   /\ forall b, ~ In b accounts ->
                                find_row (usage_key b)
                                  (resource_usage_index
                                     (modify_state (add_pending_usage cpu net) d1))
                                = find_row (usage_key b) (resource_usage_index d)).
    { split; [|split; [exact Hs|exact Hb]].
      transitivity (with_state (resource_limits_state_index d)
                      (with_usage (resource_usage_index d) d1));
        [destruct d1; reflexivity|rewrite Hf; apply with_state_same]. }
    destruct (get_state (modify_state (add_pending_usage cpu net) d1)); cbn [get bind];
      [|exact Hres].
    destruct (_ <=? max (cpu_limit_parameters config)); cbn [gst_assert bind];
      [|exact Hres].
    destruct (_ <=? max (net_limit_parameters config)); cbn [gst_assert bind]; exact Hres.
  - destruct Hloop as (Hf & Hs & Hb). split; [|split; [exact Hs|exact Hb]].
    rewrite Hf. apply with_state_same.
  - split; [exact (charge_accounts_in_modify _ _ _ _ _ _ _ _ Hrun)|].
    exists state, config. split; [reflexivity|]. split; [reflexivity|exact Hrun].
Qed.

(** X4.  A call that does not return, and does not throw
    [BlockResourceExhausted] either, has not reached the block-level step.
    If it threw for a missing row or a failed assertion, the state row, and
    with it the pending usage of the block, is as it was, and so is every
    table but the usage table.  If not, it is the loop over the authorizers
    that threw, with the exception of [usage_accumulator::add] from inside
    the modify callback of a usage row. *)
Theorem add_transaction_usage_early_failure accounts cpu net time_slot d :
  match add_usage accounts cpu net time_slot d with
  | Returned _ => True
  | Threw e d' =>
      e <> BlockResourceExhausted ->
      with_usage (resource_usage_index d) d' = d /\ get_state d' = get_state d
  | ThrewInModify e =>
      e = AccumulatorFailure
      /\ exists state config,
           get_state d = Some state /\ get_config d = Some config
           /\ charge_all state config cpu net time_slot accounts d = ThrewInModify e
  end.
Proof.
  assert (Hgoal : forall d', with_usage (resource_usage_index d) d' = d ->
                  with_usage (resource_usage_index d) d' = d /\ get_state d' = get_state d).
  { intros d' H. split; [exact H|]. rewrite <- H. reflexivity. }
  unfold add_usage, add_transaction_usage.
  destruct (get_state d) as [state|] eqn:Hstate; cbn [get bind];
    [|intros _; apply Hgoal, with_usage_same].
  destruct (get_config d) as [config|]; cbn [get bind];
    [|intros _; apply Hgoal, with_usage_same].
  pose proof (charge_accounts_touch state config cpu net time_slot accounts d) as Hloop.
  fold charge_all.
  destruct (charge_all state config cpu net time_slot accounts d) as [d1|e1 d1|e1] eqn:Hrun;
    cbn [bind].
  - rewrite get_state_modify_state.
    assert (Hs1 : get_state d1 = Some state).
    { destruct Hloop as (Hf & _).
      apply (f_equal resource_limits_state_index) in Hf.
      cbn [resource_limits_state_index with_usage] in Hf.
      unfold get_state in *. rewrite Hf. exact Hstate. }
    rewrite Hs1. cbn [option_map get bind].
    destruct (_ <=? max (cpu_limit_parameters config)); cbn [gst_assert bind];
      [|intros H; contradiction].
    destruct (_ <=? max (net_limit_parameters config)); cbn [gst_assert bind];
      [exact I|intros H; contradiction].
  - intros _. apply Hgoal, Hloop.
  - split; [exact (charge_accounts_in_modify _ _ _ _ _ _ _ _ Hrun)|].
    exists state, config. split; [reflexivity|]. split; [reflexivity|exact Hrun].
Qed.
End UsageFrames.

Lemma add_transaction_usage_early_failure_witness :
  (exists d',
      add_transaction_usage sample_precision (accumulator_add_spec sample_precision)
        [alice] 40000 0 0 sample_store = Threw (CpuUsageExceeded alice) d'
      /\ get_state d' = get_state sample_store)
  /\ add_transaction_usage sample_precision (fun _ _ _ _ => None)
       [alice] 40000 0 0 sample_store = ThrewInModify AccumulatorFailure.
Proof.
  split.
  - pose (d' := match add_transaction_usage sample_precision
                        (accumulator_add_spec sample_precision)
                        [alice] 40000 0 0 sample_store with
                | Threw _ x => x
                | _ => sample_store
                end).
    exists d'.
    assert (Hrun : add_transaction_usage sample_precision
                     (accumulator_add_spec sample_precision)
                     [alice] 40000 0 0 sample_store
                   = Threw (CpuUsageExceeded alice) d') by (vm_compute; reflexivity).
    split; [exact Hrun|].
    pose proof (add_transaction_usage_early_failure sample_precision
                  (accumulator_add_spec sample_precision) [alice] 40000 0 0 sample_store)
      as Hearly.
    rewrite Hrun in Hearly.
    assert (Hne : CpuUsageExceeded alice <> BlockResourceExhausted) by discriminate.
    exact (proj2 (Hearly Hne)).
  - pose proof (add_transaction_usage_early_failure sample_precision
                  (fun _ _ _ _ => None) [alice] 40000 0 0 sample_store) as Hearly.
    destruct (add_transaction_usage sample_precision (fun _ _ _ _ => None)
                [alice] 40000 0 0 sample_store) as [x|e x|e] eqn:Hrun;
      [discriminate Hrun|discriminate Hrun|].
    destruct Hearly as [-> _]. reflexivity.
Defined.

Section AgeAndBudget.
Variable rate_limiting_precision : Z.
Variable accumulator_add : usage_accumulator -> Z -> Z -> Z -> option usage_accumulator.

Let charge := charge_account rate_limiting_precision accumulator_add.
Let charge_all := charge_accounts rate_limiting_precision accumulator_add.
Let add_usage := add_transaction_usage rate_limiting_precision accumulator_add.

Lemma charge_account_zero_ages state config time_slot a d d1 :
  charge state config 0 0 time_slot a d = Returned d1 ->
  age_account accumulator_add config time_slot a d = Returned d1.
Proof.
  unfold charge, charge_account, age_account.
  destruct (find_row (usage_key a) (resource_usage_index d)); cbn [get bind];
    [|discriminate].
  destruct (get_account_limits a d) as [[[ram nw] cw]| |]; cbn [bind]; try discriminate.
  destruct (accumulator_add _ 0 _ (account_net_usage_average_window config));
    [|discriminate].
  destruct (accumulator_add _ 0 _ (account_cpu_usage_average_window config));
    [|discriminate].
  destruct (_ && _); [destruct (_ <=? _)|]; cbn [gst_assert bind]; try discriminate;
    (destruct (_ && _); [destruct (_ <=? _)|]; cbn [gst_assert bind]; try discriminate;
     trivial).
Qed.

(** X5.  [update_account_usage] does to the usage rows what the loop of
    [add_transaction_usage] does with a usage of zero: whenever that loop
    gets through the accounts, [update_account_usage] returns the same
    database. *)
Theorem update_account_usage_zero_charge state config time_slot accounts d d1 :
  get_config d = Some config ->
  charge_all state config 0 0 time_slot accounts d = Returned d1 ->
  update_account_usage accumulator_add accounts time_slot d = Returned d1.
Proof.
  intros Hc. unfold update_account_usage. rewrite Hc. cbn [get bind].
  revert d Hc. induction accounts as [|a rest IH]; intros d Hc;
    cbn [charge_all charge_accounts age_accounts].
  - trivial.
  - fold charge. destruct (charge state config 0 0 time_slot a d) as [d0| |] eqn:H0;
      cbn [bind]; try discriminate.
    rewrite (charge_account_zero_ages _ _ _ _ _ _ H0). cbn [bind].
    apply IH. pose proof (charge_account_frame _ _ _ _ _ _ _ _ _ _ H0) as Hf.
    unfold get_config in *. rewrite <- Hf in Hc. exact Hc.
Qed.

(** X6.  After an admission the budget that is left to the block is the
    budget before it less the usage of the transaction: with 64-bit values
    whose sums do not wrap, [get_block_cpu_limit] and [get_block_net_limit]
    go down by exactly [cpu] and [net], and stay non-negative. *)
Theorem add_transaction_usage_block_budget accounts cpu net time_slot d d' state config :
  get_state d = Some state ->
  get_config d = Some config ->
  is_u64 (max (cpu_limit_parameters config)) ->
  is_u64 (max (net_limit_parameters config)) ->
  0 <= cpu -> 0 <= net ->
  0 <= pending_cpu_usage state <= max (cpu_limit_parameters config) ->
  0 <= pending_net_usage state <= max (net_limit_parameters config) ->
  pending_cpu_usage state + cpu <= UINT64_MAX ->
  pending_net_usage state + net <= UINT64_MAX ->
  add_usage accounts cpu net time_slot d = Returned d' ->
  exists before_cpu before_net,
    get_block_cpu_limit d = Returned before_cpu
    /\ get_block_net_limit d = Returned before_net
    /\ get_block_cpu_limit d' = Returned (before_cpu - cpu)
    /\ get_block_net_limit d' = Returned (before_net - net)
    /\ 0 <= before_cpu - cpu /\ 0 <= before_net - net.
Proof.
  intros Hs Hc Hmc Hmn Hcpu Hnet Hpc Hpn Hwc Hwn Hret.
  pose proof (add_transaction_usage_inv rate_limiting_precision accumulator_add
                accounts cpu net time_slot d) as Hinv.
  fold add_usage in Hinv. rewrite Hret in Hinv.
  destruct Hinv as (state0 & config0 & d1 & Hs0 & Hc0 & Hloop & ->).
  rewrite Hs in Hs0. rewrite Hc in Hc0. injection Hs0 as <-. injection Hc0 as <-.
  destruct (add_transaction_usage_after_loop _ _ _ _ _ _ _ _ _ _ Hs Hc Hloop)
    as (Hs2 & Hc2 & Hres).
  fold add_usage in Hres. rewrite Hres in Hret.
  destruct (Z.leb_spec (u64 (pending_cpu_usage state + cpu))
              (max (cpu_limit_parameters config))) as [Hlc|]; [|discriminate].
  destruct (Z.leb_spec (u64 (pending_net_usage state + net))
              (max (net_limit_parameters config))) as [Hln|]; [|discriminate].
  rewrite u64_small in Hlc by (unfold is_u64; lia).
  rewrite u64_small in Hln by (unfold is_u64; lia).
  exists (max (cpu_limit_parameters config) - pending_cpu_usage state),
         (max (net_limit_parameters config) - pending_net_usage state).
  unfold get_block_cpu_limit, get_block_net_limit.
  rewrite Hs, Hc, Hs2, Hc2. cbn [get bind add_pending_usage pending_cpu_usage
                                 pending_net_usage].
  rewrite (u64_small (pending_cpu_usage state + cpu)) by (unfold is_u64; lia).
  rewrite (u64_small (pending_net_usage state + net)) by (unfold is_u64; lia).
  rewrite !u64_small by (unfold is_u64 in *; lia).
  repeat split; try (f_equal; lia); lia.
Qed.
End AgeAndBudget.

Lemma update_account_usage_zero_charge_witness :
  exists d1,
    update_account_usage (accumulator_add_spec sample_precision) [alice; bob] 5 sample_store
    = Returned d1.
Proof.
  eexists.
  refine (update_account_usage_zero_charge sample_precision
            (accumulator_add_spec sample_precision) sample_state sample_config 5
            [alice; bob] sample_store _ _ _).
  - reflexivity.
  - vm_compute. reflexivity.
Defined.

Lemma add_transaction_usage_block_budget_witness :
  exists d',
    add_transaction_usage sample_precision (accumulator_add_spec sample_precision)
      [alice] 400 10 0 sample_store = Returned d'
    /\ get_block_cpu_limit d' = Returned 600
    /\ get_block_net_limit d' = Returned 990.
Proof.
  eexists.
  assert (Hrun : add_transaction_usage sample_precision (accumulator_add_spec sample_precision)
                   [alice] 400 10 0 sample_store = Returned ?[d'])
    by (vm_compute; reflexivity).
  split; [exact Hrun|].
  assert (Hmax : is_u64 1000) by (int_consts; lia).
  assert (H1 : 0 <= 400) by lia. assert (H2 : 0 <= 10) by lia.
  assert (H3 : 0 <= 0 <= 1000) by lia.
  assert (H4 : 0 + 400 <= UINT64_MAX) by (int_consts; lia).
  assert (H5 : 0 + 10 <= UINT64_MAX) by (int_consts; lia).
  destruct (add_transaction_usage_block_budget sample_precision
              (accumulator_add_spec sample_precision) [alice] 400 10 0 sample_store _
              sample_state sample_config eq_refl eq_refl Hmax Hmax H1 H2 H3 H3 H4 H5 Hrun)
    as (bc & bn & Hbc & Hbn & Hac & Han & _).
  injection Hbc as <-. injection Hbn as <-. split; assumption.
Defined.

(** ** Staging and committing limits *)

Lemma limits_key_other_owner (p q : bool) (a b : account_name) (r : resource_limits_object) :
  a <> b -> limits_key p a r = true -> limits_key q b r = false.
Proof.
  intros Hab K. apply limits_key_spec in K. apply not_true_is_false. intros K'.
  apply limits_key_spec in K'. congruence.
Qed.

Lemma limits_key_other_flag (a b : account_name) (r : resource_limits_object) :
  limits_key true a r = true -> limits_key false b r = false.
Proof.
  intros K. apply limits_key_spec in K. apply not_true_is_false. intros K'.
  apply limits_key_spec in K'. congruence.
Qed.

(** X7.  [set_account_limits] fails only when the account has no limits row
    at all, and then leaves the database alone.  When it returns, the limits
    that [get_account_limits] reports for the account are the ones just set,
    the limits of every other account read as before, every committed row
    is untouched, no other table has changed, and the flag returned says
    whether the new [ram_bytes] is a finite value below the one that
    [get_account_limits] reported before (a negative one counting as
    infinite). *)
Theorem set_account_limits_get (a : account_name) (ram net cpu : Z) (d : database) :
  match set_account_limits a ram net cpu d with
  | Returned (decreased, d') =>
      (exists old_ram old_net old_cpu,
          get_account_limits a d = Returned (old_ram, old_net, old_cpu)
          /\ decreased = (if ram >=? 0 then (old_ram <? 0) || (ram <? old_ram) else false))
      /\ get_account_limits a d' = Returned (ram, net, cpu)
      /\ (forall b x, b <> a -> get_account_limits b d = Returned x ->
                      get_account_limits b d' = Returned x)
      /\ (forall b, find_row (limits_key false b) (resource_limits_index d')
                    = find_row (limits_key false b) (resource_limits_index d))
      /\ with_limits (resource_limits_index d) d' = d
  | Threw e d' =>
      e = RowNotFound /\ d' = d /\ get_account_limits a d = Threw RowNotFound d
  | ThrewInModify _ => False
  end.
Proof.
  unfold set_account_limits, find_or_create_pending_limits.
  destruct (find_row (limits_key true a) (resource_limits_index d)) as [pl|] eqn:Hpl.
  - cbn [bind]. destruct (limits_key_of_found _ _ _ _ Hpl) as (_ & Hpp & Hpo).
    rewrite Hpp, Hpo.
    assert (Hother : forall q b, (q = false \/ b <> a) ->
               find_row (limits_key q b)
                 (modify_row (limits_key true a) (set_limits ram net cpu)
                    (resource_limits_index d))
               = find_row (limits_key q b) (resource_limits_index d)).
    { intros q b Hqb. apply find_row_modify_other. intros r K.
      assert (Hk : limits_key q b r = false).
      { destruct Hqb as [->|Hb]; [exact (limits_key_other_flag a b r K)|].
        apply (limits_key_other_owner true q a b); auto. }
      split; [exact Hk|]. exact Hk. }
    split; [|split; [|split; [|split]]].
    + exists (ram_bytes pl), (net_weight pl), (cpu_weight pl).
      unfold get_account_limits. rewrite Hpl. split; reflexivity.
    + unfold get_account_limits. cbn [resource_limits_index with_limits].
      rewrite find_row_modify_same by (intros; assumption). rewrite Hpl. reflexivity.
    + intros b x Hb. unfold get_account_limits. cbn [resource_limits_index with_limits].
      rewrite !Hother by auto.
      destruct (find_row (limits_key true b) _); [trivial|].
      destruct (find_row (limits_key false b) _); [trivial|discriminate].
    + intros b. cbn [resource_limits_index with_limits]. apply Hother. auto.
    + destruct d; reflexivity.
  - destruct (find_row (limits_key false a) (resource_limits_index d)) as [cl|] eqn:Hcl;
      cbn [get bind].
    2:{ split; [reflexivity|]. split; [reflexivity|].
        unfold get_account_limits. rewrite Hpl, Hcl. reflexivity. }
    destruct (limits_key_of_found _ _ _ _ Hcl) as (_ & Hcp & Hco).
    cbn [rl_pending rl_owner ram_bytes]. rewrite Hco.
    assert (Hnew : forall q b, (q = false \/ b <> a) ->
               find_row (limits_key q b)
                 (modify_row (limits_key true a) (set_limits ram net cpu)
                    (create_row
                       (mk_resource_limits_object a true (net_weight cl) (cpu_weight cl)
                          (ram_bytes cl)) (resource_limits_index d)))
               = find_row (limits_key q b) (resource_limits_index d)).
    { intros q b Hqb.
      assert (Hk : forall r, limits_key true a r = true -> limits_key q b r = false).
      { intros r K. destruct Hqb as [->|Hb]; [exact (limits_key_other_flag a b r K)|].
        apply (limits_key_other_owner true q a b); auto. }
      rewrite find_row_modify_other by (intros r K; split; exact (Hk r K)).
      rewrite find_row_create. rewrite Hk.
      - destruct (find_row (limits_key q b) (resource_limits_index d)); reflexivity.
      - apply limits_key_spec. reflexivity. }
    split; [|split; [|split; [|split]]].
    + exists (ram_bytes cl), (net_weight cl), (cpu_weight cl).
      unfold get_account_limits. rewrite Hpl, Hcl. split; reflexivity.
    + unfold get_account_limits. cbn [resource_limits_index with_limits].
      rewrite find_row_modify_same by (intros; assumption).
      rewrite find_row_create, Hpl.
      replace (limits_key true a _) with true by (symmetry; apply limits_key_spec; reflexivity).
      reflexivity.
    + intros b x Hb. unfold get_account_limits. cbn [resource_limits_index with_limits].
      rewrite !Hnew by auto.
      destruct (find_row (limits_key true b) _); [trivial|].
      destruct (find_row (limits_key false b) _); [trivial|discriminate].
    + intros b. cbn [resource_limits_index with_limits]. apply Hnew. auto.
    + destruct d; reflexivity.
Qed.

Lemma no_pending_find (tbl : list resource_limits_object) (a : account_name) :
  no_pending tbl -> find_row (limits_key true a) tbl = None.
Proof.
  intros Hnp. destruct (find_row (limits_key true a) tbl) as [r|] eqn:Hf; [|reflexivity].
  destruct (limits_key_of_found _ _ _ _ Hf) as (Hin & Hp & _).
  rewrite (Hnp r Hin) in Hp. discriminate.
Qed.

Lemma no_pending_lower_bound (tbl : list resource_limits_object) :
  no_pending tbl -> lower_bound_pending tbl = None.
Proof.
  intros Hnp. destruct (lower_bound_pending tbl) as [r|] eqn:Hlb; [|reflexivity].
  destruct (lower_bound_pending_some _ _ Hlb) as [Hin Hp].
  rewrite (Hnp r Hin) in Hp. discriminate.
Qed.

(** The loop is left only when the iterator finds no pending row, whatever
    the table was. *)
Lemma commit_loop_done (fuel : nat) :
  forall (rso rso' : resource_limits_state_object) (tbl tbl' : list resource_limits_object),
  commit_loop fuel rso tbl = Some (inr (rso', tbl')) -> lower_bound_pending tbl' = None.
Proof.
  induction fuel as [|fuel IH]; intros rso rso' tbl tbl'; cbn [commit_loop]; [discriminate|].
  destruct tbl as [|x t] eqn:Htbl.
  - intros [= <- <-]. reflexivity.
  - rewrite <- Htbl. clear Htbl x t.
    destruct (lower_bound_pending tbl) as [itr|] eqn:Hlb.
    + destruct (find_row (limits_key false (rl_owner itr)) tbl); [|discriminate].
      destruct (commit_entry itr r rso) as [[rso1 rlo]|]; [|discriminate].
      apply IH.
    + intros [= <- <-]. exact Hlb.
Qed.

Lemma commit_loop_nothing_pending (fuel : nat) (rso : resource_limits_state_object)
    (tbl : list resource_limits_object) :
  lower_bound_pending tbl = None -> commit_loop (S fuel) rso tbl = Some (inr (rso, tbl)).
Proof.
  intros Hlb. cbn [commit_loop]. destruct tbl; [reflexivity|]. rewrite Hlb. reflexivity.
Qed.

(** X8.  Committing the pending limits on a well-formed store does not change
    what [get_account_limits] reports: it returns for every account, after
    [process_account_limit_updates], the limits it returned before. *)
Theorem process_account_limit_updates_keeps_limits (d d2 : database)
    (state : resource_limits_state_object) :
  get_state d = Some state ->
  limits_wf (resource_limits_index d) ->
  totals_wf state (resource_limits_index d) ->
  process_account_limit_updates d = Some (Returned d2) ->
  forall a x, get_account_limits a d = Returned x -> get_account_limits a d2 = Returned x.
Proof.
  intros Hs Hwf Htot. unfold process_account_limit_updates. rewrite Hs.
  pose proof (commit_loop_correct (S (List.length (resource_limits_index d))) state
                (resource_limits_index d) (Nat.lt_succ_diag_r _) Hwf Htot) as Hl.
  destruct (commit_loop _ state (resource_limits_index d)) as [[e|[rso tbl]]|];
    [discriminate| |discriminate].
  destruct Hl as (Hnp & _ & _ & Hcommitted & Hkept).
  intros [= <-] a x. unfold get_account_limits.
  assert (Htbl : resource_limits_index (modify_state (fun _ => rso) (with_limits tbl d)) = tbl)
    by (destruct d; reflexivity).
  rewrite Htbl, (no_pending_find tbl a Hnp).
  destruct (find_row (limits_key true a) (resource_limits_index d)) as [p|] eqn:Hp.
  - destruct (limits_key_of_found _ _ _ _ Hp) as (Hin & Hpp & Hpo).
    pose proof (Hcommitted p Hin Hpp) as Hc. rewrite Hpo in Hc. rewrite Hc.
    intros [= <-]. reflexivity.
  - rewrite (Hkept a Hp).
    destruct (find_row (limits_key false a) (resource_limits_index d)); [|discriminate].
    intros [= <-].
    destruct (find_row (limits_key false a) tbl); reflexivity.
Qed.

Lemma process_account_limit_updates_keeps_limits_witness :
  exists d1 d2,
    set_account_limits bob 4096 100 0 sample_store = Returned (true, d1)
    /\ process_account_limit_updates d1 = Some (Returned d2)
    /\ get_account_limits bob d1 = Returned (4096, 100, 0)
    /\ get_account_limits bob d2 = Returned (4096, 100, 0).
Proof.
  pose (d1 := match set_account_limits bob 4096 100 0 sample_store with
              | Returned (_, x) => x
              | _ => sample_store
              end).
  pose (d2 := match process_account_limit_updates d1 with
              | Some (Returned x) => x
              | _ => sample_store
              end).
  exists d1, d2.
  assert (Hrun : set_account_limits bob 4096 100 0 sample_store = Returned (true, d1))
    by (vm_compute; reflexivity).
  assert (Hproc : process_account_limit_updates d1 = Some (Returned d2))
    by (vm_compute; reflexivity).
  assert (H1 : limits_wf (resource_limits_index d1)).
  { let t := eval vm_compute in (resource_limits_index d1) in
    change (resource_limits_index d1) with t.
    split; [|split].
    - unfold unique_keys; simpl; repeat constructor; simpl; intuition discriminate.
    - intros r [<-|[<-|[<-|[]]]]; discriminate.
    - repeat constructor; simpl; int_consts; lia. }
  assert (H2 : totals_wf sample_state (resource_limits_index d1)).
  { let t := eval vm_compute in (resource_limits_index d1) in
    change (resource_limits_index d1) with t.
    repeat split; simpl; int_consts; lia. }
  assert (H3 : get_account_limits bob d1 = Returned (4096, 100, 0))
    by (vm_compute; reflexivity).
  split; [exact Hrun|]. split; [exact Hproc|]. split; [exact H3|].
  exact (process_account_limit_updates_keeps_limits d1 d2 sample_state eq_refl H1 H2 Hproc
           bob _ H3).
Defined.

(** X9.  [process_account_limit_updates] has nothing left to do after it has
    returned: run again on its own result it returns that result unchanged.
    On a store without pending rows it returns the store as it is. *)
Theorem process_account_limit_updates_idempotent (d : database) :
  (forall d2, process_account_limit_updates d = Some (Returned d2) ->
              process_account_limit_updates d2 = Some (Returned d2))
  /\ (forall state, get_state d = Some state -> no_pending (resource_limits_index d) ->
                    process_account_limit_updates d = Some (Returned d)).
Proof.
  split.
  - unfold process_account_limit_updates at 1.
    destruct (get_state d) as [state|] eqn:Hs; [|discriminate].
    destruct (commit_loop _ state (resource_limits_index d)) as [[e|[rso tbl]]|] eqn:Hl;
      [discriminate| |discriminate].
    intros d2 [= <-]. apply commit_loop_done in Hl.
    unfold process_account_limit_updates.
    assert (Hs2 : get_state (modify_state (fun _ => rso) (with_limits tbl d)) = Some rso).
    { destruct d as [? ? ? ? st ?]; destruct st; [discriminate|reflexivity]. }
    assert (Htbl : resource_limits_index (modify_state (fun _ => rso) (with_limits tbl d)) = tbl)
      by (destruct d; reflexivity).
    rewrite Hs2, Htbl, (commit_loop_nothing_pending _ rso tbl Hl).
    do 2 f_equal. destruct d as [? ? ? ? st ?]; destruct st; reflexivity.
  - intros state Hs Hnp. unfold process_account_limit_updates.
    rewrite Hs, (commit_loop_nothing_pending _ _ _ (no_pending_lower_bound _ Hnp)).
    do 2 f_equal. destruct d as [? ? ? ? st ?]; destruct st; [discriminate|].
    cbn in Hs. injection Hs as ->. reflexivity.
Qed.

(** ** Creating accounts *)

Section Genesis.
Variable new_limits_object : resource_limits_object.
Variable new_usage_object : resource_usage_object.
Hypothesis new_not_pending : rl_pending new_limits_object = false.

Let bl (a : account_name) : resource_limits_object :=
  mk_resource_limits_object a false (net_weight new_limits_object)
    (cpu_weight new_limits_object) (ram_bytes new_limits_object).
Let bu (a : account_name) : resource_usage_object :=
  mk_resource_usage_object a (net_usage new_usage_object) (cpu_usage new_usage_object)
    (ram_usage new_usage_object).

Lemma initialize_account_some (a : account_name) (d d' : database) :
  initialize_account new_limits_object new_usage_object a d = Some d' ->
  find_row (limits_key false a) (resource_limits_index d) = None
  /\ find_row (usage_key a) (resource_usage_index d) = None
  /\ resource_limits_index d' = create_row (bl a) (resource_limits_index d)
  /\ resource_usage_index d' = create_row (bu a) (resource_usage_index d)
  /\ get_state d' = get_state d.
Proof.
  unfold initialize_account. cbn [rl_pending]. rewrite new_not_pending.
  destruct (find_row (limits_key false a) (resource_limits_index d)); [discriminate|].
  cbn [resource_usage_index with_limits].
  destruct (find_row (usage_key a) (resource_usage_index d)); [discriminate|].
  intros [= <-]. destruct d; repeat split; reflexivity.
Qed.

Lemma initialize_account_refused (a : account_name) (d : database) :
  find_row (limits_key false a) (resource_limits_index d) <> None ->
  initialize_account new_limits_object new_usage_object a d = None.
Proof.
  unfold initialize_account. cbn [rl_pending]. rewrite new_not_pending.
  destruct (find_row (limits_key false a) (resource_limits_index d)); [reflexivity|].
  intros H. contradiction.
Qed.

Lemma committed_total_create_committed (field : resource_limits_object -> Z)
    (r : resource_limits_object) (tbl : list resource_limits_object) :
  rl_pending r = false ->
  committed_total field (create_row r tbl) = committed_total field tbl + Z.max 0 (field r).
Proof.
  intros Hp. unfold create_row. induction tbl as [|x t IH]; simpl.
  - rewrite Hp. lia.
  - rewrite IH. destruct (rl_pending x); lia.
Qed.

Lemma limits_wf_create_committed (a : account_name) (tbl : list resource_limits_object) :
  int64_row new_limits_object ->
  limits_wf tbl ->
  find_row (limits_key false a) tbl = None ->
  limits_wf (create_row (bl a) tbl).
Proof.
  intros Hi (Hu & Hpc & Hint) Hnone. split; [|split].
  - unfold unique_keys, create_row. rewrite map_app. apply NoDup_app.
    + exact Hu.
    + repeat constructor. intros [].
    + intros k Hk [<-|[]]. apply find_row_limits_none in Hnone. exact (Hnone Hk).
  - intros r Hr Hp. rewrite find_row_create. unfold create_row in Hr.
    apply in_app_or in Hr as [Hr|[<-|[]]]; [|discriminate].
    specialize (Hpc r Hr Hp).
    destruct (find_row (limits_key false (rl_owner r)) tbl); [discriminate|contradiction].
  - unfold create_row. apply Forall_app. split; [exact Hint|].
    constructor; [exact Hi|constructor].
Qed.

Lemma find_row_create_committed (a c : account_name) (tbl : list resource_limits_object) :
  find_row (limits_key true a) (create_row (bl c) tbl) = find_row (limits_key true a) tbl.
Proof.
  rewrite find_row_create.
  replace (limits_key true a (bl c)) with false.
  - destruct (find_row (limits_key true a) tbl); reflexivity.
  - symmetry. apply not_true_is_false. intros K. apply limits_key_spec in K. discriminate.
Qed.

(** Creating accounts adds no pending row. *)
Lemma initialize_accounts_pending (accounts : list account_name) :
  forall d d' : database,
  initialize_accounts new_limits_object new_usage_object accounts d = Some d' ->
  forall a, find_row (limits_key true a) (resource_limits_index d')
            = find_row (limits_key true a) (resource_limits_index d).
Proof.
  induction accounts as [|c rest IH]; intros d d'; cbn [initialize_accounts].
  - intros [= <-]. reflexivity.
  - destruct (initialize_account new_limits_object new_usage_object c d) as [d1|] eqn:H1;
      [|discriminate].
    destruct (initialize_account_some c d d1 H1) as (_ & _ & Hl1 & _).
    intros Hrun a. rewrite (IH d1 d' Hrun a), Hl1. apply find_row_create_committed.
Qed.

Hypothesis new_int64 : int64_row new_limits_object.
Hypothesis new_ram : ram_bytes new_limits_object <= 0.
Hypothesis new_net : net_weight new_limits_object <= 0.
Hypothesis new_cpu : cpu_weight new_limits_object <= 0.

Lemma initialize_accounts_inv (accounts : list account_name) :
  forall (d d' : database) (state : resource_limits_state_object),
  get_state d = Some state ->
  limits_wf (resource_limits_index d) ->
  totals_wf state (resource_limits_index d) ->
  initialize_accounts new_limits_object new_usage_object accounts d = Some d' ->
  get_state d' = Some state
  /\ limits_wf (resource_limits_index d')
  /\ totals_wf state (resource_limits_index d')
  /\ (forall q b x, find_row (limits_key q b) (resource_limits_index d) = Some x ->
                    find_row (limits_key q b) (resource_limits_index d') = Some x)
  /\ (forall b x, find_row (usage_key b) (resource_usage_index d) = Some x ->
                  find_row (usage_key b) (resource_usage_index d') = Some x)
  /\ (forall a, In a accounts ->
                find_row (limits_key false a) (resource_limits_index d) = None
                /\ find_row (limits_key false a) (resource_limits_index d') = Some (bl a)
                /\ find_row (limits_key true a) (resource_limits_index d') = None
                /\ find_row (usage_key a) (resource_usage_index d') = Some (bu a)).
Proof.
  induction accounts as [|a rest IH]; intros d d' state Hs Hwf Htot; cbn [initialize_accounts].
  - intros [= <-]. split; [exact Hs|]. split; [exact Hwf|]. split; [exact Htot|].
    split; [auto|]. split; [auto|]. intros a [].
  - destruct (initialize_account new_limits_object new_usage_object a d) as [d1|] eqn:H1;
      [|discriminate].
    destruct (initialize_account_some a d d1 H1) as (Hnl & Hnu & Hl1 & Hu1 & Hs1).
    assert (Hwf1 : limits_wf (resource_limits_index d1)).
    { rewrite Hl1. apply limits_wf_create_committed; assumption. }
    assert (Htot1 : totals_wf state (resource_limits_index d1)).
    { rewrite Hl1. destruct Htot as ((Hr & Hc & Hn) & Hrest).
      split; [|exact Hrest]. unfold totals_consistent.
      rewrite !committed_total_create_committed by reflexivity.
      cbn [bl ram_bytes cpu_weight net_weight]. repeat split; lia. }
    rewrite Hs in Hs1. intros Hrun.
    destruct (IH d1 d' state Hs1 Hwf1 Htot1 Hrun) as (Hs' & Hwf' & Htot' & Hkl & Hku & Hin).
    assert (Hgrow : forall q b x,
               find_row (limits_key q b) (resource_limits_index d) = Some x ->
               find_row (limits_key q b) (resource_limits_index d1) = Some x).
    { intros q b x Hx. rewrite Hl1, find_row_create, Hx. reflexivity. }
    split; [exact Hs'|]. split; [exact Hwf'|]. split; [exact Htot'|].
    split; [intros q b x Hx; apply Hkl, Hgrow, Hx|].
    split.
    { intros b x Hx. apply Hku. rewrite Hu1, find_row_create, Hx. reflexivity. }
    intros b [<-|Hb].
    + split; [exact Hnl|].
      assert (Hc1 : find_row (limits_key false a) (resource_limits_index d1) = Some (bl a)).
      { rewrite Hl1, find_row_create, Hnl.
        replace (limits_key false a (bl a)) with true
          by (symmetry; apply limits_key_spec; reflexivity).
        reflexivity. }
      split; [exact (Hkl _ _ _ Hc1)|].
      split.
      * rewrite (initialize_accounts_pending rest d1 d' Hrun a).
        rewrite Hl1, (find_row_create_committed a a).
        destruct (find_row (limits_key true a) (resource_limits_index d)) as [p0|] eqn:Hp0;
          [|reflexivity].
        exfalso. destruct (limits_key_of_found _ _ _ _ Hp0) as (Hin0 & Hpp0 & Hpo0).
        destruct Hwf as (_ & Hpc & _). apply (Hpc p0 Hin0 Hpp0).
        rewrite Hpo0. exact Hnl.
      * apply Hku. rewrite Hu1, find_row_create, Hnu. unfold usage_key. cbn [bu ru_owner].
        rewrite N.eqb_refl. reflexivity.
    + destruct (Hin b Hb) as (Hn1 & Hrest). split; [|exact Hrest].
      destruct (find_row (limits_key false b) (resource_limits_index d)) eqn:Hfb;
        [|reflexivity].
      rewrite (Hgrow _ _ _ Hfb) in Hn1. discriminate.
Qed.

End Genesis.

(** X10.  Creating accounts keeps the store well formed.  When the default
    limits row is not pending and holds no positive limit, creating a list
    of accounts on a well-formed store whose totals agree with its table
    leaves the state row as it was, the limits table well formed and the
    totals in agreement with it.  The call can only have succeeded if no
    account was named twice; each account created then reads the default
    limits and the default RAM usage, and creating it once more is
    refused. *)
Theorem initialize_accounts_wf (new_limits_object : resource_limits_object)
    (new_usage_object : resource_usage_object) (accounts : list account_name)
    (d d' : database) (state : resource_limits_state_object) :
  rl_pending new_limits_object = false ->
  int64_row new_limits_object ->
  ram_bytes new_limits_object <= 0 ->
  net_weight new_limits_object <= 0 ->
  cpu_weight new_limits_object <= 0 ->
  get_state d = Some state ->
  limits_wf (resource_limits_index d) ->
  totals_wf state (resource_limits_index d) ->
  initialize_accounts new_limits_object new_usage_object accounts d = Some d' ->
  get_state d' = Some state
  /\ limits_wf (resource_limits_index d')
  /\ totals_wf state (resource_limits_index d')
  /\ NoDup accounts
  /\ (forall a, In a accounts ->
        get_account_limits a d'
        = Returned (ram_bytes new_limits_object, net_weight new_limits_object,
                    cpu_weight new_limits_object)
        /\ get_account_ram_usage a d' = Returned (i64 (ram_usage new_usage_object))
        /\ initialize_account new_limits_object new_usage_object a d' = None).
Proof.
  intros Hp Hi Hr Hn Hc Hs Hwf Htot Hrun.
  destruct (initialize_accounts_inv new_limits_object new_usage_object Hp Hi Hr Hn Hc
              accounts d d' state Hs Hwf Htot Hrun) as (Hs' & Hwf' & Htot' & _ & _ & Hin).
  split; [exact Hs'|]. split; [exact Hwf'|]. split; [exact Htot'|]. split.
  - clear Hin Hs' Hwf' Htot'. revert d Hs Hwf Htot Hrun.
    induction accounts as [|a rest IH]; intros d Hs Hwf Htot; [constructor|].
    cbn [initialize_accounts].
    destruct (initialize_account new_limits_object new_usage_object a d) as [d1|] eqn:H1;
      [|discriminate].
    intros Hrun.
    assert (H1' : initialize_accounts new_limits_object new_usage_object [a] d = Some d1)
      by (cbn [initialize_accounts]; rewrite H1; reflexivity).
    destruct (initialize_accounts_inv new_limits_object new_usage_object Hp Hi Hr Hn Hc
                [a] d d1 state Hs Hwf Htot H1') as (Hs1 & Hwf1 & Htot1 & _ & _ & Ha).
    destruct (initialize_accounts_inv new_limits_object new_usage_object Hp Hi Hr Hn Hc
                rest d1 d' state Hs1 Hwf1 Htot1 Hrun) as (_ & _ & _ & _ & _ & Hrest).
    constructor; [|exact (IH d1 Hs1 Hwf1 Htot1 Hrun)].
    intros Hin. destruct (Hrest a Hin) as (Hnone & _).
    destruct (Ha a (or_introl eq_refl)) as (_ & Hsome & _). congruence.
  - intros a Ha. destruct (Hin a Ha) as (_ & Hcm & Hpn & Hu).
    split; [|split].
    + unfold get_account_limits. rewrite Hpn, Hcm. reflexivity.
    + unfold get_account_ram_usage. rewrite Hu. reflexivity.
    + apply initialize_account_refused; [exact Hp|]. rewrite Hcm. discriminate.
Qed.

Lemma initialize_accounts_wf_witness :
  exists d',
    initialize_accounts sample_new_limits sample_new_usage [alice; bob]
      (initialize_database sample_config sample_new_state fresh_store) = Some d'
    /\ limits_wf (resource_limits_index d')
    /\ get_account_limits bob d' = Returned (-1, -1, -1).
Proof.
  pose (d := initialize_database sample_config sample_new_state fresh_store).
  pose (d' := match initialize_accounts sample_new_limits sample_new_usage [alice; bob] d with
              | Some x => x
              | None => d
              end).
  exists d'.
  assert (Hrun : initialize_accounts sample_new_limits sample_new_usage [alice; bob] d = Some d')
    by (vm_compute; reflexivity).
  assert (H1 : int64_row sample_new_limits) by (repeat split; simpl; int_consts; lia).
  assert (H2 : limits_wf (resource_limits_index d)).
  { split; [constructor|]. split; [intros r []|constructor]. }
  assert (H3 : totals_wf (set_virtual_limits 1000 1000 sample_new_state)
                 (resource_limits_index d))
    by (repeat split; simpl; int_consts; lia).
  destruct (initialize_accounts_wf sample_new_limits sample_new_usage [alice; bob] d d'
              (set_virtual_limits 1000 1000 sample_new_state) eq_refl H1
              ltac:(simpl; lia) ltac:(simpl; lia) ltac:(simpl; lia) eq_refl H2 H3 Hrun)
    as (_ & Hwf & _ & _ & Hall).
  split; [exact Hrun|]. split; [exact Hwf|].
  exact (proj1 (Hall bob (or_intror (or_introl eq_refl)))).
Defined.

Section GenesisSuccess.
Variable new_limits_object : resource_limits_object.
Variable new_usage_object : resource_usage_object.
Hypothesis new_not_pending : rl_pending new_limits_object = false.

Lemma initialize_account_other (a b : account_name) (d d1 : database) :
  initialize_account new_limits_object new_usage_object a d = Some d1 ->
  a <> b -> (account_is_new b d1 <-> account_is_new b d).
Proof.
  intros H1 Hab.
  destruct (initialize_account_some _ _ new_not_pending a d d1 H1) as (_ & _ & Hl & Hu & _).
  unfold account_is_new. rewrite Hl, Hu, !find_row_create.
  replace (limits_key false b _) with false.
  2:{ symmetry. apply not_true_is_false. intros K. apply limits_key_spec in K.
      injection K as K. contradiction. }
  replace (usage_key b _) with false.
  2:{ symmetry. apply N.eqb_neq. exact Hab. }
  destruct (find_row (limits_key false b) (resource_limits_index d));
    destruct (find_row (usage_key b) (resource_usage_index d)); intuition discriminate.
Qed.

Lemma initialize_account_same (a : account_name) (d d1 : database) :
  initialize_account new_limits_object new_usage_object a d = Some d1 ->
  account_is_new a d /\ ~ account_is_new a d1.
Proof.
  intros H1.
  destruct (initialize_account_some _ _ new_not_pending a d d1 H1) as (Hnl & Hnu & Hl & _).
  split; [split; assumption|]. intros [Hc _]. rewrite Hl, find_row_create, Hnl in Hc.
  replace (limits_key false a _) with true in Hc; [discriminate|].
  symmetry. apply limits_key_spec. reflexivity.
Qed.

Lemma initialize_account_new (a : account_name) (d : database) :
  account_is_new a d ->
  exists d1, initialize_account new_limits_object new_usage_object a d = Some d1.
Proof.
  intros [Hl Hu]. unfold initialize_account. cbn [rl_pending]. rewrite new_not_pending, Hl.
  cbn [resource_usage_index with_limits]. rewrite Hu. eexists. reflexivity.
Qed.

Lemma initialize_accounts_success (accounts : list account_name) :
  forall d : database,
  (exists d', initialize_accounts new_limits_object new_usage_object accounts d = Some d')
  <-> NoDup accounts /\ (forall a, In a accounts -> account_is_new a d).
Proof.
  induction accounts as [|a rest IH]; intros d; cbn [initialize_accounts].
  - split; [intros _; split; [constructor|intros ? []]|intros _; eexists; reflexivity].
  - split.
    + intros [d' Hrun].
      destruct (initialize_account new_limits_object new_usage_object a d) as [d1|] eqn:H1;
        [|discriminate].
      destruct (initialize_account_same a d d1 H1) as [Hnew Hold].
      destruct (proj1 (IH d1) (ex_intro _ d' Hrun)) as [Hnd Hall].
      assert (Hnotin : ~ In a rest) by (intros Hin; exact (Hold (Hall a Hin))).
      split; [constructor; assumption|].
      intros b [<-|Hb]; [exact Hnew|].
      apply (initialize_account_other a b d d1 H1); [congruence|exact (Hall b Hb)].
    + intros [Hnd Hall]. inversion Hnd as [|? ? Hnotin Hnd']; subst.
      destruct (initialize_account_new a d (Hall a (or_introl eq_refl))) as [d1 H1].
      rewrite H1. apply IH. split; [exact Hnd'|].
      intros b Hb. apply (initialize_account_other a b d d1 H1); [congruence|].
      apply Hall. right. exact Hb.
Qed.

End GenesisSuccess.

(** X11.  When the default limits row is not pending, creating a list of
    accounts succeeds exactly when no account is named twice and none of them
    has a committed limits row or a usage row already.  On the store that
    [initialize_database] makes out of the empty one that is: exactly when
    no account is named twice. *)
Theorem initialize_accounts_succeeds (new_limits_object : resource_limits_object)
    (new_usage_object : resource_usage_object)
    (new_config_object : resource_limits_config_object)
    (new_state_object : resource_limits_state_object) (accounts : list account_name) :
  rl_pending new_limits_object = false ->
  (forall d,
      (exists d', initialize_accounts new_limits_object new_usage_object accounts d = Some d')
      <-> NoDup accounts /\ (forall a, In a accounts -> account_is_new a d))
  /\ ((exists d', initialize_accounts new_limits_object new_usage_object accounts
                    (initialize_database new_config_object new_state_object fresh_store)
                  = Some d')
      <-> NoDup accounts).
Proof.
  intros Hp. split.
  - intros d. apply initialize_accounts_success. exact Hp.
  - rewrite (initialize_accounts_success _ _ Hp). split; [tauto|].
    intros Hnd. split; [exact Hnd|]. intros a _. split; reflexivity.
Qed.

Lemma initialize_accounts_succeeds_witness :
  (exists d', initialize_accounts sample_new_limits sample_new_usage [alice; bob]
                (initialize_database sample_config sample_new_state fresh_store) = Some d')
  /\ ~ (exists d', initialize_accounts sample_new_limits sample_new_usage [alice; alice]
                     (initialize_database sample_config sample_new_state fresh_store)
                   = Some d').
Proof.
  pose proof (proj2 (initialize_accounts_succeeds sample_new_limits sample_new_usage
                       sample_config sample_new_state [alice; bob] eq_refl)) as H1.
  split.
  - apply H1. repeat constructor; simpl; intuition discriminate.
  - intros [d' H]. vm_compute in H. discriminate.
Defined.

(** ** Gas *)

Lemma gst_key_found (p : bool) (a : account_name) (g : resource_gst_object)
    (tbl : list resource_gst_object) :
  find_row (gst_key p a) tbl = Some g -> rg_pending g = p /\ rg_owner g = a.
Proof.
  intros H. apply find_row_some in H as [_ K]. unfold gst_key in K.
  apply andb_true_iff in K as [Kp Ko]. apply Bool.eqb_prop in Kp. apply N.eqb_eq in Ko. auto.
Qed.

Lemma gst_key_refl (g : resource_gst_object) : gst_key (rg_pending g) (rg_owner g) g = true.
Proof. unfold gst_key. rewrite Bool.eqb_reflx, N.eqb_refl. reflexivity. Qed.

Lemma gst_key_other_owner (p q : bool) (a b : account_name) (g : resource_gst_object) :
  a <> b -> rg_owner g = a -> gst_key q b g = false.
Proof.
  intros Hab Ho. unfold gst_key. rewrite Ho. apply andb_false_iff. right.
  apply N.eqb_neq. exact Hab.
Qed.

(** Modifying the gas row of [a] without touching its key leaves the gas
    rows of the other accounts as they are. *)
Lemma gst_modify_other (a b : account_name) (f : resource_gst_object -> resource_gst_object)
    (tbl : list resource_gst_object) :
  a <> b -> (forall r, rg_owner (f r) = rg_owner r) ->
  find_row (gst_key true b) (modify_row (gst_key true a) f tbl) = find_row (gst_key true b) tbl.
Proof.
  intros Hab Hf. apply find_row_modify_other. intros r K.
  assert (Ho : rg_owner r = a).
  { unfold gst_key in K. apply andb_true_iff in K as [_ Ko]. apply N.eqb_eq. exact Ko. }
  split; apply (gst_key_other_owner true true a b); auto. rewrite Hf. exact Ho.
Qed.

Lemma gst_modify_same (a : account_name) (f : resource_gst_object -> resource_gst_object)
    (tbl : list resource_gst_object) :
  (forall r, rg_owner (f r) = rg_owner r /\ rg_pending (f r) = rg_pending r) ->
  find_row (gst_key true a) (modify_row (gst_key true a) f tbl)
  = option_map f (find_row (gst_key true a) tbl).
Proof.
  intros Hf. apply find_row_modify_same. intros r K. unfold gst_key in *.
  destruct (Hf r) as [-> ->]. exact K.
Qed.

Lemma gst_create_other (a b : account_name) (g : resource_gst_object)
    (tbl : list resource_gst_object) :
  a <> b -> rg_owner g = a ->
  find_row (gst_key true b) (create_row g tbl) = find_row (gst_key true b) tbl.
Proof.
  intros Hab Ho. rewrite find_row_create, (gst_key_other_owner true true a b g Hab Ho).
  destruct (find_row (gst_key true b) tbl); reflexivity.
Qed.


Lemma u64_negative (z : Z) : - 2 ^ 64 <= z < 0 -> u64 z = z + 2 ^ 64.
Proof.
  intros H. int_consts. symmetry. apply (Z.mod_unique _ _ (-1)); lia.
Qed.

(** The gas test of [verify_account_ram_usage] passes on a store whose gas
    row of the account cannot fail it. *)
Lemma verify_account_ram_usage_gas_passes (gstio gstio_gas account : account_name)
    (d : database) (g : resource_gst_object) :
  find_row (gst_key true account) (resource_gst_index d) = Some g ->
  (gst_bytes g < 0 \/ gst_usage g <= u64 (gst_bytes g)) ->
  verify_account_ram_usage gstio gstio_gas account d <> Some (Manager InsufficientGas)
  /\ verify_account_ram_usage gstio gstio_gas account d <> Some (Manager GasNotProvisioned).
Proof.
  intros Hg Hok. unfold verify_account_ram_usage.
  destruct (get_account_limits account d) as [[[ram net] cpu]|e d0|e] eqn:Hl.
  - destruct (find_row (usage_key account) (resource_usage_index d)) as [u|];
      [|split; discriminate].
    destruct ((ram >=? 0) && negb (ram_usage u <=? u64 ram)); [split; discriminate|].
    destruct (is_activation gstio d); [|split; discriminate].
    rewrite Hg.
    destruct ((gst_bytes g >=? 0) && negb (N.eqb (rg_owner g) gstio_gas)
              && negb (N.eqb (rg_owner g) gstio)) eqn:Hc; [|split; discriminate].
    apply andb_true_iff in Hc as [Hc _]. apply andb_true_iff in Hc as [Hc _].
    apply Z.geb_le in Hc.
    destruct (Z.leb_spec (gst_usage g) (u64 (gst_bytes g))); [split; discriminate|lia].
  - unfold get_account_limits in Hl.
    destruct (find_row (limits_key true account) (resource_limits_index d)); [discriminate|].
    destruct (find_row (limits_key false account) (resource_limits_index d));
      [discriminate|].
    injection Hl as <- <-. split; discriminate.
  - unfold get_account_limits in Hl.
    destruct (find_row (limits_key true account) (resource_limits_index d)); [discriminate|].
    destruct (find_row (limits_key false account) (resource_limits_index d)); discriminate.
Qed.

(** X13.  A negative gas limit makes an account unmetered.  [set_gst_limits]
    never refuses a negative limit (the comparison with the gas used is
    unsigned), reports no decrease, and on the store it returns
    [verify_account_gst_usage] charges no toll and leaves the store as it is,
    and [verify_account_ram_usage] does not fail for want of gas. *)
Theorem set_gst_limits_negative (new_gst_object : resource_gst_object)
    (gstio gstio_gas account : account_name) (gst_bytes' : Z) (d : database) :
  is_i64 gst_bytes' -> gst_bytes' < 0 ->
  (forall g, find_row (gst_key true account) (resource_gst_index d) = Some g ->
             gst_usage g <= INT64_MAX) ->
  exists d',
    set_gst_limits new_gst_object account gst_bytes' d = Returned (false, d')
    /\ verify_account_gst_usage account d' = Returned d'
    /\ verify_account_ram_usage gstio gstio_gas account d' <> Some (Manager InsufficientGas)
    /\ verify_account_ram_usage gstio gstio_gas account d' <> Some (Manager GasNotProvisioned).
Proof.
  intros Hv Hneg Husage.
  assert (Hu64 : u64 gst_bytes' = gst_bytes' + 2 ^ 64)
    by (apply u64_negative; int_consts; lia).
  assert (Hge : (gst_bytes' >=? 0) = false) by (rewrite Z.geb_leb; apply Z.leb_gt; lia).
  assert (Hrow : exists d' g',
             set_gst_limits new_gst_object account gst_bytes' d = Returned (false, d')
             /\ find_row (gst_key true account) (resource_gst_index d') = Some g'
             /\ gst_bytes g' = gst_bytes').
  { unfold set_gst_limits.
    destruct (find_row (gst_key true account) (resource_gst_index d)) as [g|] eqn:Hg.
    - destruct (gst_key_found _ _ _ _ Hg) as [Hp Ho]. specialize (Husage g eq_refl).
      assert (Hok : (u64 gst_bytes' >=? gst_usage g) = true).
      { apply Z.geb_le. rewrite Hu64. int_consts. lia. }
      unfold gst_assert. rewrite Hok.
      rewrite Hge.
      destruct (gst_bytes g >? gst_bytes'); cbn [bind]; rewrite Hp, Ho;
        (eexists; exists (set_gst_bytes gst_bytes' g); split; [reflexivity|];
         cbn [resource_gst_index with_gst];
         rewrite gst_modify_same by (intros; split; reflexivity);
         rewrite Hg; split; reflexivity).
    - cbn [gst_bytes rg_pending rg_owner gst_usage]. rewrite Z.gtb_ltb, Z.ltb_irrefl.
      cbn [bind].
      rewrite Hge.
      eexists. eexists. split; [reflexivity|].
      cbn [resource_gst_index with_gst].
      rewrite gst_modify_same by (intros; split; reflexivity).
      rewrite find_row_create, Hg.
      replace (gst_key true account _) with true
        by (symmetry; unfold gst_key; cbn; rewrite N.eqb_refl; reflexivity).
      split; reflexivity. }
  destruct Hrow as (d' & g' & Hset & Hg' & Hb). exists d'.
  split; [exact Hset|]. split.
  - unfold verify_account_gst_usage. rewrite Hg', Hb.
    rewrite Hge.
    reflexivity.
  - apply (verify_account_ram_usage_gas_passes gstio gstio_gas account d' g' Hg').
    left. lia.
Qed.

Lemma set_gst_limits_negative_witness :
  exists d',
    set_gst_limits (mk_resource_gst_object 0%N false 0 0) alice (-1) sample_store
    = Returned (false, d')
    /\ verify_account_gst_usage alice d' = Returned d'.
Proof.
  assert (H1 : is_i64 (-1)) by (int_consts; lia).
  assert (H2 : forall g, find_row (gst_key true alice) (resource_gst_index sample_store) = Some g ->
                         gst_usage g <= INT64_MAX).
  { intros g Hg. vm_compute in Hg. injection Hg as <-. simpl. int_consts. lia. }
  destruct (set_gst_limits_negative (mk_resource_gst_object 0%N false 0 0)
              sample_gstio 8%N alice (-1) sample_store H1 ltac:(lia) H2)
    as (d' & Hset & Hfree & _).
  exists d'. split; assumption.
Defined.

Lemma i64_u64 (z : Z) : i64 (u64 z) = i64 z.
Proof. int_consts. rewrite Zplus_mod_idemp_l. reflexivity. Qed.

Lemma get_account_limits2_row (account : account_name) (d : database)
    (g : resource_gst_object) :
  find_row (gst_key true account) (resource_gst_index d) = Some g ->
  is_i64 (gst_bytes g - gst_usage g) ->
  get_account_limits2 account d = Z.max 0 (gst_bytes g - gst_usage g).
Proof.
  intros Hg Hr. unfold get_account_limits2. rewrite Hg. cbv zeta.
  rewrite i64_u64, (i64_small _ Hr).
  destruct (Z.ltb_spec (gst_bytes g - gst_usage g) 0); lia.
Qed.

(** X14.  The toll and the balance.  For an account whose gas row holds a
    limit and a usage between 0 and [INT64_MAX], [get_account_limits2]
    reports the limit less the usage, or 0 if that is negative;
    [verify_account_gst_usage] returns exactly when that balance is at least
    100, and then the balance has dropped by exactly 100 and the balance of
    every other account is as before; with a smaller balance it fails with
    the gas assertion and changes nothing. *)
Theorem verify_account_gst_usage_balance (account : account_name) (d : database)
    (g : resource_gst_object) :
  find_row (gst_key true account) (resource_gst_index d) = Some g ->
  0 <= gst_bytes g <= INT64_MAX ->
  0 <= gst_usage g <= INT64_MAX ->
  get_account_limits2 account d = Z.max 0 (gst_bytes g - gst_usage g)
  /\ (100 <= get_account_limits2 account d ->
      exists d',
        verify_account_gst_usage account d = Returned d'
        /\ get_account_limits2 account d' = get_account_limits2 account d - 100
        /\ forall b, b <> account -> get_account_limits2 b d' = get_account_limits2 b d)
  /\ (get_account_limits2 account d < 100 ->
      verify_account_gst_usage account d = Threw InsufficientGas d).
Proof.
  intros Hg Hb Hu.
  assert (Hbal : get_account_limits2 account d = Z.max 0 (gst_bytes g - gst_usage g)).
  { apply get_account_limits2_row; [exact Hg|]. int_consts. lia. }
  assert (Hb64 : u64 (gst_bytes g) = gst_bytes g) by (apply u64_small; int_consts; lia).
  assert (Hu64 : u64 (gst_usage g + 100) = gst_usage g + 100)
    by (apply u64_small; int_consts; lia).
  assert (Hge : (gst_bytes g >=? 0) = true) by (apply Z.geb_le; lia).
  split; [exact Hbal|]. rewrite Hbal. split.
  - intros Henough. unfold verify_account_gst_usage. rewrite Hg, Hge, Hb64, Hu64.
    unfold gst_assert.
    replace (gst_bytes g >=? gst_usage g + 100) with true by (symmetry; apply Z.geb_le; lia).
    cbn [bind]. eexists. split; [reflexivity|]. split.
    + rewrite (get_account_limits2_row account _
                 (set_gst_usage (u64 (gst_usage g + 100)) g)).
      * cbn [set_gst_usage gst_bytes gst_usage]. rewrite Hu64. lia.
      * cbn [resource_gst_index with_gst].
        rewrite gst_modify_same by (intros; split; reflexivity).
        rewrite Hg. reflexivity.
      * cbn [set_gst_usage gst_bytes gst_usage]. rewrite Hu64. int_consts. lia.
    + intros b Hne. unfold get_account_limits2. cbn [resource_gst_index with_gst].
      rewrite gst_modify_other by (congruence || reflexivity). reflexivity.
  - intros Hshort. unfold verify_account_gst_usage. rewrite Hg, Hge, Hb64, Hu64.
    unfold gst_assert.
    replace (gst_bytes g >=? gst_usage g + 100) with false; [reflexivity|].
    symmetry. rewrite Z.geb_leb. apply Z.leb_gt. lia.
Qed.

Lemma verify_account_gst_usage_balance_witness :
  get_account_limits2 alice sample_store = 1000
  /\ exists d',
       verify_account_gst_usage alice sample_store = Returned d'
       /\ get_account_limits2 alice d' = 900.
Proof.
  destruct (verify_account_gst_usage_balance alice sample_store
              (mk_resource_gst_object alice true 1000 0) eq_refl
              ltac:(simpl; int_consts; lia) ltac:(simpl; int_consts; lia))
    as (Hbal & Hpay & _).
  split; [exact Hbal|].
  destruct (Hpay ltac:(rewrite Hbal; simpl; lia)) as (d' & Hrun & Hafter & _).
  exists d'. split; [exact Hrun|]. rewrite Hafter, Hbal. reflexivity.
Defined.

(** X15.  Once [verify_account_gst_usage] has returned, the gas test of
    [verify_account_ram_usage] cannot fail on the store it returned: the
    toll never takes the usage of a metered account above its limit. *)
Theorem verify_account_gst_usage_then_ram (gstio gstio_gas account : account_name)
    (d d' : database) :
  verify_account_gst_usage account d = Returned d' ->
  verify_account_ram_usage gstio gstio_gas account d' <> Some (Manager InsufficientGas)
  /\ verify_account_ram_usage gstio gstio_gas account d' <> Some (Manager GasNotProvisioned).
Proof.
  unfold verify_account_gst_usage.
  destruct (find_row (gst_key true account) (resource_gst_index d)) as [g|] eqn:Hg;
    [|discriminate].
  destruct (Z.geb_spec (gst_bytes g) 0) as [Hpos|Hneg].
  - unfold gst_assert.
    destruct (Z.geb_spec (u64 (gst_bytes g)) (u64 (gst_usage g + 100))) as [Hok|];
      [|discriminate].
    cbn [bind]. intros [= <-].
    apply (verify_account_ram_usage_gas_passes gstio gstio_gas account _
             (set_gst_usage (u64 (gst_usage g + 100)) g)).
    + cbn [resource_gst_index with_gst].
      rewrite gst_modify_same by (intros; split; reflexivity).
      rewrite Hg. reflexivity.
    + right. cbn [set_gst_usage gst_bytes gst_usage]. lia.
  - intros [= <-].
    apply (verify_account_ram_usage_gas_passes gstio gstio_gas account d g Hg).
    left. lia.
Qed.

Lemma verify_account_gst_usage_then_ram_witness :
  exists d',
    verify_account_gst_usage alice sample_store = Returned d'
    /\ verify_account_ram_usage sample_gstio 8%N alice d' <> Some (Manager InsufficientGas).
Proof.
  pose (d' := match verify_account_gst_usage alice sample_store with
              | Returned x => x
              | _ => sample_store
              end).
  exists d'.
  assert (Hrun : verify_account_gst_usage alice sample_store = Returned d')
    by (vm_compute; reflexivity).
  split; [exact Hrun|].
  exact (proj1 (verify_account_gst_usage_then_ram sample_gstio 8%N alice sample_store d'
                  Hrun)).
Defined.

(** ** RAM *)

Lemma set_ram_usage_same (u : resource_usage_object) : set_ram_usage (ram_usage u) u = u.
Proof. destruct u; reflexivity. Qed.

Lemma is_activation_frame (gstio : account_name) (d d' : database) :
  resource_activation_gst_index d' = resource_activation_gst_index d ->
  is_activation gstio d' = is_activation gstio d.
Proof. intros H. unfold is_activation. rewrite H. reflexivity. Qed.

Lemma get_account_limits_frame (a : account_name) (d d' : database) (x : Z * Z * Z) :
  resource_limits_index d' = resource_limits_index d ->
  get_account_limits a d = Returned x -> get_account_limits a d' = Returned x.
Proof.
  intros H. unfold get_account_limits. rewrite H.
  destruct (find_row (limits_key true a) (resource_limits_index d)); [trivial|].
  destruct (find_row (limits_key false a) (resource_limits_index d)); [trivial|discriminate].
Qed.

(** What a call of [add_pending_ram_usage] that returned has done to the
    tables, whatever the values. *)
Lemma add_pending_ram_usage_tables (gstio account : account_name) (ram_delta : Z)
    (d d' : database) :
  add_pending_ram_usage gstio account ram_delta d = Returned d' ->
  with_gst (resource_gst_index d) (with_usage (resource_usage_index d) d') = d
  /\ resource_usage_index d'
     = (if ram_delta =? 0 then resource_usage_index d
        else modify_row (usage_key account)
               (fun u => set_ram_usage (u64 (ram_usage u + ram_delta)) u)
               (resource_usage_index d))
  /\ (is_activation gstio d = false \/ ram_delta = 0 ->
      resource_gst_index d' = resource_gst_index d)
  /\ (forall b, b <> account ->
                find_row (gst_key true b) (resource_gst_index d')
                = find_row (gst_key true b) (resource_gst_index d)).
Proof.
  unfold add_pending_ram_usage. destruct (ram_delta =? 0) eqn:Hz.
  - intros [= <-]. split; [destruct d; reflexivity|]. split; [reflexivity|]. split; auto.
  - destruct (find_row (usage_key account) (resource_usage_index d)) as [usage|];
      [|discriminate].
    cbn [get bind]. unfold gst_assert.
    destruct ((ram_delta <=? 0) || _); [|discriminate]. cbn [bind].
    destruct ((ram_delta >=? 0) || _); [|discriminate]. cbn [bind].
    rewrite (is_activation_frame gstio d) by reflexivity.
    cbn [resource_gst_index with_usage].
    destruct (is_activation gstio d) eqn:Hact.
    + destruct (find_row (gst_key true account) (resource_gst_index d)) as [g|] eqn:Hg;
        intros [= <-].
      * split; [destruct d; reflexivity|]. split; [reflexivity|].
        split; [intros [H|H]; [discriminate|apply Z.eqb_neq in Hz; contradiction]|].
        intros b Hb. cbn [resource_gst_index with_gst].
        apply gst_modify_other; [congruence|].
        intros r. unfold charge_gst. destruct (_ <? 0); reflexivity.
      * split; [destruct d; reflexivity|]. split; [reflexivity|].
        split; [intros [H|H]; [discriminate|apply Z.eqb_neq in Hz; contradiction]|].
        intros b Hb. cbn [resource_gst_index with_gst].
        apply (gst_create_other account b); [congruence|reflexivity].
    + intros [= <-]. split; [destruct d; reflexivity|]. split; [reflexivity|].
      split; [reflexivity|]. reflexivity.
Qed.

(** A call that returned has passed both assertions, so the new usage is the
    old one plus the delta, without wrap-around. *)
Lemma add_pending_ram_usage_row (gstio account : account_name) (ram_delta : Z)
    (d d' : database) (usage : resource_usage_object) :
  add_pending_ram_usage gstio account ram_delta d = Returned d' ->
  find_row (usage_key account) (resource_usage_index d) = Some usage ->
  is_u64 (ram_usage usage) -> is_i64 ram_delta ->
  0 <= ram_usage usage + ram_delta <= UINT64_MAX
  /\ find_row (usage_key account) (resource_usage_index d')
     = Some (set_ram_usage (ram_usage usage + ram_delta) usage).
Proof.
  intros Hrun Hu Hr Hd.
  destruct (add_pending_ram_usage_tables _ _ _ _ _ Hrun) as (_ & Htbl & _).
  rewrite Htbl. clear Htbl. revert Hrun. unfold add_pending_ram_usage.
  destruct (Z.eqb_spec ram_delta 0) as [->|Hnz].
  - intros _. rewrite Z.add_0_r, set_ram_usage_same. split; [|exact Hu]. int_consts. lia.
  - rewrite Hu. cbn [get bind]. unfold gst_assert.
    destruct ((ram_delta <=? 0) || _) eqn:H1; [|discriminate]. cbn [bind].
    destruct ((ram_delta >=? 0) || _) eqn:H2; [|discriminate]. intros _.
    assert (Hin : 0 <= ram_usage usage + ram_delta <= UINT64_MAX).
    { apply orb_true_iff in H1. apply orb_true_iff in H2.
      destruct (Z.le_gt_cases ram_delta 0) as [Hneg|Hpos].
      - destruct H2 as [H2|H2]; [apply Z.geb_le in H2; lia|].
        apply Z.geb_le in H2. rewrite u64_i64 in H2.
        rewrite u64_small in H2 by (int_consts; lia). int_consts. lia.
      - destruct H1 as [H1|H1]; [apply Z.leb_le in H1; lia|].
        apply Z.geb_le in H1.
        rewrite !u64_small in H1 by (int_consts; lia). int_consts. lia. }
    split; [exact Hin|].
    rewrite find_row_modify_same by (intros; assumption).
    rewrite Hu. cbn [option_map]. rewrite (u64_small _ Hin). reflexivity.
Qed.

(** X16.  [add_pending_ram_usage] fails only for a missing usage row or an
    overflow or underflow of the usage, and then the database is as before.
    When it returns, only the usage table and the gas table can have
    changed: the usage rows and the gas rows of the other accounts are as
    they were, no row of the usage table has changed its owner or its
    accumulators, the gas switch is as it was, and with the switch off the
    gas table is untouched as well. *)
Theorem add_pending_ram_usage_frame (gstio account : account_name) (ram_delta : Z)
    (d : database) :
  match add_pending_ram_usage gstio account ram_delta d with
  | Returned d' =>
      with_gst (resource_gst_index d) (with_usage (resource_usage_index d) d') = d
      /\ (forall b, b <> account ->
            find_row (usage_key b) (resource_usage_index d')
            = find_row (usage_key b) (resource_usage_index d)
            /\ find_row (gst_key true b) (resource_gst_index d')
               = find_row (gst_key true b) (resource_gst_index d))
      /\ map ru_owner (resource_usage_index d') = map ru_owner (resource_usage_index d)
      /\ map net_usage (resource_usage_index d') = map net_usage (resource_usage_index d)
      /\ map cpu_usage (resource_usage_index d') = map cpu_usage (resource_usage_index d)
      /\ is_activation gstio d' = is_activation gstio d
      /\ (is_activation gstio d = false -> resource_gst_index d' = resource_gst_index d)
  | Threw e d' =>
      d' = d
      /\ (e = RowNotFound /\ find_row (usage_key account) (resource_usage_index d) = None
          \/ e = RamUsageOverflow /\ 0 < ram_delta
          \/ e = RamUsageUnderflow /\ ram_delta < 0)
  | ThrewInModify _ => False
  end.
Proof.
  destruct (add_pending_ram_usage gstio account ram_delta d) as [d'|e d'|e] eqn:Hrun.
  - destruct (add_pending_ram_usage_tables _ _ _ _ _ Hrun) as (Hf & Hu & Hg & Hother).
    split; [exact Hf|].
    assert (Hact : resource_activation_gst_index d' = resource_activation_gst_index d)
      by exact (f_equal resource_activation_gst_index Hf).
    split; [|split; [|split; [|split; [|split]]]].
    + intros b Hb. split; [|exact (Hother b Hb)]. rewrite Hu.
      destruct (ram_delta =? 0); [reflexivity|].
      apply usage_key_other; [congruence|reflexivity].
    + rewrite Hu. destruct (ram_delta =? 0); [reflexivity|].
      apply modify_row_map. reflexivity.
    + rewrite Hu. destruct (ram_delta =? 0); [reflexivity|].
      apply modify_row_map. reflexivity.
    + rewrite Hu. destruct (ram_delta =? 0); [reflexivity|].
      apply modify_row_map. reflexivity.
    + apply is_activation_frame. exact Hact.
    + intros Hoff. apply Hg. left. exact Hoff.
  - revert Hrun. unfold add_pending_ram_usage.
    destruct (ram_delta =? 0); [discriminate|].
    destruct (find_row (usage_key account) (resource_usage_index d)) as [usage|]; cbn [get bind].
    2:{ intros [= <- <-]. split; [reflexivity|]. left. split; reflexivity. }
    unfold gst_assert.
    destruct (Z.leb_spec ram_delta 0) as [Hle|Hgt]; cbn [orb].
    + cbn [bind]. destruct (Z.geb_spec ram_delta 0) as [Hge|Hlt]; cbn [orb].
      * cbn [bind]. destruct (is_activation gstio _); [|discriminate].
        destruct (find_row (gst_key true account) _); discriminate.
      * destruct (ram_usage usage >=? _); cbn [bind].
        -- destruct (is_activation gstio _); [|discriminate].
           destruct (find_row (gst_key true account) _); discriminate.
        -- intros [= <- <-]. split; [reflexivity|]. right. right. split; [reflexivity|lia].
    + destruct (_ >=? u64 ram_delta); cbn [bind].
      * destruct (Z.geb_spec ram_delta 0) as [Hge|Hlt]; [|lia]. cbn [orb bind].
        destruct (is_activation gstio _); [|discriminate].
        destruct (find_row (gst_key true account) _); discriminate.
      * intros [= <- <-]. split; [reflexivity|]. right. left. split; [reflexivity|lia].
  - revert Hrun. unfold add_pending_ram_usage.
    destruct (ram_delta =? 0); [discriminate|].
    destruct (find_row (usage_key account) (resource_usage_index d)) as [usage|]; cbn [get bind];
      [|discriminate].
    unfold gst_assert.
    destruct ((ram_delta <=? 0) || _); [|discriminate]. cbn [bind].
    destruct ((ram_delta >=? 0) || _); [|discriminate]. cbn [bind].
    destruct (is_activation gstio _); [|discriminate].
    destruct (find_row (gst_key true account) _); discriminate.
Qed.

(** X17.  RAM is not refused when it is taken but when it is verified.
    After a call of [add_pending_ram_usage] that returned,
    [verify_account_ram_usage] fails with [ram_usage_exceeded] exactly when
    the limits in force for the account (pending before committed) hold a
    finite [ram_bytes] that the old usage plus the delta exceeds, and
    [get_account_ram_usage] reports the old usage plus the delta, as a
    signed number. *)
Theorem add_pending_ram_usage_then_verify (gstio gstio_gas account : account_name)
    (ram_delta : Z) (d d' : database) (usage : resource_usage_object) (ram net cpu : Z) :
  find_row (usage_key account) (resource_usage_index d) = Some usage ->
  is_u64 (ram_usage usage) -> is_i64 ram_delta ->
  get_account_limits account d = Returned (ram, net, cpu) -> is_i64 ram ->
  add_pending_ram_usage gstio account ram_delta d = Returned d' ->
  (verify_account_ram_usage gstio gstio_gas account d' = Some RamUsageExceeded
   <-> 0 <= ram < ram_usage usage + ram_delta)
  /\ get_account_ram_usage account d' = Returned (i64 (ram_usage usage + ram_delta))
  /\ (ram_usage usage + ram_delta <= INT64_MAX ->
      get_account_ram_usage account d' = Returned (ram_usage usage + ram_delta)).
Proof.
  intros Hu Hr Hd Hl Hram Hrun.
  destruct (add_pending_ram_usage_row _ _ _ _ _ _ Hrun Hu Hr Hd) as [Hin Hu'].
  destruct (add_pending_ram_usage_tables _ _ _ _ _ Hrun) as (Hf & _).
  assert (Hlim : resource_limits_index d' = resource_limits_index d)
    by exact (f_equal resource_limits_index Hf).
  assert (Hget : get_account_ram_usage account d'
                 = Returned (i64 (ram_usage usage + ram_delta))).
  { unfold get_account_ram_usage. rewrite Hu'. reflexivity. }
  split; [|split; [exact Hget|]].
  - unfold verify_account_ram_usage.
    rewrite (get_account_limits_frame account d d' _ Hlim Hl), Hu'.
    cbn [set_ram_usage ram_usage].
    destruct (Z.geb_spec ram 0) as [Hpos|Hneg]; cbn [andb].
    + rewrite u64_small by (int_consts; lia).
      destruct (Z.leb_spec (ram_usage usage + ram_delta) ram) as [Hfit|Hover]; cbn [negb].
      * split; [|lia]. intros H. exfalso. revert H.
        destruct (is_activation gstio d'); [|discriminate].
        destruct (find_row (gst_key true account) (resource_gst_index d')) as [g|].
        -- destruct (_ && _); [|discriminate]. destruct (_ <=? _); discriminate.
        -- destruct (N.eqb gstio_gas account); discriminate.
      * split; [lia|reflexivity].
    + split; [|lia]. intros H. exfalso. revert H.
      destruct (is_activation gstio d'); [|discriminate].
      destruct (find_row (gst_key true account) (resource_gst_index d')) as [g|].
      * destruct (_ && _); [|discriminate]. destruct (_ <=? _); discriminate.
      * destruct (N.eqb gstio_gas account); discriminate.
  - intros Hsmall. rewrite Hget, i64_small; [reflexivity|]. int_consts. lia.
Qed.

Lemma add_pending_ram_usage_then_verify_witness :
  exists d1 d2,
    set_account_limits bob 1500 100 100 sample_store = Returned (true, d1)
    /\ add_pending_ram_usage sample_gstio bob 600 d1 = Returned d2
    /\ verify_account_ram_usage sample_gstio 8%N bob d2 = Some RamUsageExceeded
    /\ get_account_ram_usage bob d2 = Returned 1600.
Proof.
  pose (d1 := match set_account_limits bob 1500 100 100 sample_store with
              | Returned (_, x) => x
              | _ => sample_store
              end).
  pose (d2 := match add_pending_ram_usage sample_gstio bob 600 d1 with
              | Returned x => x
              | _ => sample_store
              end).
  exists d1, d2.
  assert (H0 : set_account_limits bob 1500 100 100 sample_store = Returned (true, d1))
    by (vm_compute; reflexivity).
  assert (Hrun : add_pending_ram_usage sample_gstio bob 600 d1 = Returned d2)
    by (vm_compute; reflexivity).
  assert (H1 : find_row (usage_key bob) (resource_usage_index d1)
               = Some (mk_resource_usage_object bob empty_accumulator empty_accumulator 1000))
    by (vm_compute; reflexivity).
  assert (H2 : get_account_limits bob d1 = Returned (1500, 100, 100))
    by (vm_compute; reflexivity).
  assert (H3 : is_u64 1000) by (int_consts; lia).
  assert (H4 : is_i64 600) by (int_consts; lia).
  assert (H5 : is_i64 1500) by (int_consts; lia).
  destruct (add_pending_ram_usage_then_verify sample_gstio 8%N bob 600 d1 d2 _ 1500 100 100
              H1 H3 H4 H2 H5 Hrun) as (Hv & _ & Hg).
  split; [exact H0|]. split; [exact Hrun|]. split.
  - apply Hv. simpl. lia.
  - apply Hg. simpl. int_consts. lia.
Defined.

Lemma set_account_limits_staged (a : account_name) (ram net cpu : Z) (d d' : database)
    (decreased : bool) :
  set_account_limits a ram net cpu d = Returned (decreased, d') ->
  get_account_limits a d' = Returned (ram, net, cpu)
  /\ with_limits (resource_limits_index d) d' = d
  /\ find_row (limits_key false a) (resource_limits_index d')
     = find_row (limits_key false a) (resource_limits_index d).
Proof.
  unfold set_account_limits, find_or_create_pending_limits.
  assert (Hkeep : forall r, limits_key true a r = true ->
                            limits_key false a r = false
                            /\ limits_key false a (set_limits ram net cpu r) = false).
  { intros r K. split; exact (limits_key_other_flag a a _ K). }
  destruct (find_row (limits_key true a) (resource_limits_index d)) as [pl|] eqn:Hpl.
  - cbn [bind]. destruct (limits_key_of_found _ _ _ _ Hpl) as (_ & Hpp & Hpo).
    rewrite Hpp, Hpo. intros [= _ <-]. split; [|split].
    + unfold get_account_limits. cbn [resource_limits_index with_limits].
      rewrite find_row_modify_same by (intros; assumption). rewrite Hpl. reflexivity.
    + destruct d; reflexivity.
    + cbn [resource_limits_index with_limits]. apply find_row_modify_other. exact Hkeep.
  - destruct (find_row (limits_key false a) (resource_limits_index d)) as [cl|] eqn:Hcl;
      cbn [get bind]; [|discriminate].
    destruct (limits_key_of_found _ _ _ _ Hcl) as (_ & Hcp & Hco).
    cbn [rl_pending rl_owner ram_bytes]. rewrite Hco. intros [= _ <-]. split; [|split].
    + unfold get_account_limits. cbn [resource_limits_index with_limits].
      rewrite find_row_modify_same by (intros; assumption).
      rewrite find_row_create, Hpl.
      replace (limits_key true a _) with true by (symmetry; apply limits_key_spec; reflexivity).
      reflexivity.
    + destruct d; reflexivity.
    + cbn [resource_limits_index with_limits].
      rewrite find_row_modify_other by exact Hkeep.
      rewrite find_row_create, Hcl. reflexivity.
Qed.

(** X18.  A staged RAM limit is enforced at once.  After [set_account_limits]
    has returned, and before [process_account_limit_updates] has copied the
    pending row, the committed row of the account is still as it was, but
    [verify_account_ram_usage] already fails with [ram_usage_exceeded]
    exactly when the new [ram_bytes] is finite and below the RAM the account
    uses. *)
Theorem set_account_limits_enforced_at_once (gstio gstio_gas a : account_name)
    (ram net cpu : Z) (d d' : database) (decreased : bool) (usage : resource_usage_object) :
  set_account_limits a ram net cpu d = Returned (decreased, d') ->
  find_row (usage_key a) (resource_usage_index d) = Some usage ->
  is_i64 ram ->
  (verify_account_ram_usage gstio gstio_gas a d' = Some RamUsageExceeded
   <-> 0 <= ram < ram_usage usage)
  /\ find_row (limits_key false a) (resource_limits_index d')
     = find_row (limits_key false a) (resource_limits_index d).
Proof.
  intros Hset Hu Hram.
  destruct (set_account_limits_staged _ _ _ _ _ _ _ Hset) as (Hget & Hf & Hcommitted).
  split; [|exact Hcommitted].
  assert (Hu' : resource_usage_index d' = resource_usage_index d)
    by exact (f_equal resource_usage_index Hf).
  unfold verify_account_ram_usage. rewrite Hget, Hu', Hu.
  destruct (Z.geb_spec ram 0) as [Hpos|Hneg]; cbn [andb].
  - rewrite u64_small by (int_consts; lia).
    destruct (Z.leb_spec (ram_usage usage) ram) as [Hfit|Hover]; cbn [negb].
    + split; [|lia]. intros H. exfalso. revert H.
      destruct (is_activation gstio d'); [|discriminate].
      destruct (find_row (gst_key true a) (resource_gst_index d')) as [g|].
      * destruct (_ && _); [|discriminate]. destruct (_ <=? _); discriminate.
      * destruct (N.eqb gstio_gas a); discriminate.
    + split; [lia|reflexivity].
  - split; [|lia]. intros H. exfalso. revert H.
    destruct (is_activation gstio d'); [|discriminate].
    destruct (find_row (gst_key true a) (resource_gst_index d')) as [g|].
    + destruct (_ && _); [|discriminate]. destruct (_ <=? _); discriminate.
    + destruct (N.eqb gstio_gas a); discriminate.
Qed.

Lemma set_account_limits_enforced_at_once_witness :
  exists d',
    set_account_limits bob 500 100 100 sample_store = Returned (true, d')
    /\ verify_account_ram_usage sample_gstio 8%N bob d' = Some RamUsageExceeded
    /\ find_row (limits_key false bob) (resource_limits_index d')
       = Some (mk_resource_limits_object bob false 100 100 (-1)).
Proof.
  pose (d' := match set_account_limits bob 500 100 100 sample_store with
              | Returned (_, x) => x
              | _ => sample_store
              end).
  exists d'.
  assert (Hset : set_account_limits bob 500 100 100 sample_store = Returned (true, d'))
    by (vm_compute; reflexivity).
  assert (Hram : is_i64 500) by (int_consts; lia).
  destruct (set_account_limits_enforced_at_once sample_gstio 8%N bob 500 100 100
              sample_store d' true
              (mk_resource_usage_object bob empty_accumulator empty_accumulator 1000)
              Hset eq_refl Hram) as [Hv Hc].
  split; [exact Hset|]. split.
  - apply Hv. simpl. lia.
  - rewrite Hc. reflexivity.
Defined.

(** X19.  An account from before the gas system.  With gas switched on, an
    account that has no gas row and takes or frees RAM gets a gas row with a
    limit of 0, whose usage is the RAM taken (0 if RAM was freed); its gas
    balance reads 0; and, its RAM limit being respected,
    [verify_account_ram_usage] then fails for want of gas exactly when RAM
    was taken and the account is neither [gstio.gas] nor [gstio]. *)
Theorem add_pending_ram_usage_legacy_account (gstio gstio_gas account : account_name)
    (ram_delta : Z) (d : database) (usage : resource_usage_object) (ram net cpu : Z) :
  is_activation gstio d = true ->
  find_row (gst_key true account) (resource_gst_index d) = None ->
  find_row (usage_key account) (resource_usage_index d) = Some usage ->
  is_u64 (ram_usage usage) ->
  delta_ok ram_delta ->
  0 <= ram_usage usage + ram_delta <= UINT64_MAX ->
  get_account_limits account d = Returned (ram, net, cpu) ->
  is_i64 ram ->
  (ram < 0 \/ ram_usage usage + ram_delta <= ram) ->
  exists d',
    add_pending_ram_usage gstio account ram_delta d = Returned d'
    /\ find_row (gst_key true account) (resource_gst_index d')
       = Some (mk_resource_gst_object account true 0 (Z.max ram_delta 0))
    /\ get_account_limits2 account d' = 0
    /\ verify_account_ram_usage gstio gstio_gas account d'
       = (if (0 <? ram_delta) && negb (N.eqb account gstio_gas) && negb (N.eqb account gstio)
          then Some (Manager InsufficientGas) else None).
Proof.
  intros Hact Hg Hu Hr Hd Hin Hl Hram Hfit.
  destruct (add_pending_ram_usage_no_gas_row gstio account ram_delta d usage
              Hact Hu Hr Hd Hin Hg) as (d' & Hrun & Hact' & Hu' & Hg').
  exists d'. split; [exact Hrun|]. split; [exact Hg'|].
  destruct (add_pending_ram_usage_tables _ _ _ _ _ Hrun) as (Hf & _).
  assert (Hlim : resource_limits_index d' = resource_limits_index d)
    by exact (f_equal resource_limits_index Hf).
  split.
  - rewrite (get_account_limits2_row account d' _ Hg');
      cbn [gst_bytes gst_usage]; [lia|]. destruct Hd as [_ Hd]. int_consts. lia.
  - unfold verify_account_ram_usage.
    rewrite (get_account_limits_frame account d d' _ Hlim Hl), Hu', Hact', Hg'.
    cbn [set_ram_usage ram_usage gst_bytes gst_usage rg_owner].
    replace ((ram >=? 0) && negb (ram_usage usage + ram_delta <=? u64 ram)) with false.
    2:{ symmetry. destruct (Z.geb_spec ram 0) as [Hpos|Hneg]; [|reflexivity].
        cbn [andb]. rewrite u64_small by (int_consts; lia).
        destruct (Z.leb_spec (ram_usage usage + ram_delta) ram); [reflexivity|lia]. }
    change (0 >=? 0) with true. change (u64 0) with 0. cbn [andb].
    destruct (Z.ltb_spec 0 ram_delta) as [Hpos|Hneg]; cbn [andb].
    + destruct (negb (N.eqb account gstio_gas) && negb (N.eqb account gstio));
        [|reflexivity].
      destruct (Z.leb_spec (Z.max ram_delta 0) 0); [lia|reflexivity].
    + destruct (negb (N.eqb account gstio_gas) && negb (N.eqb account gstio));
        [|reflexivity].
      destruct (Z.leb_spec (Z.max ram_delta 0) 0); [reflexivity|lia].
Qed.

Lemma add_pending_ram_usage_legacy_account_witness :
  exists d',
    add_pending_ram_usage sample_gstio bob 24 sample_store = Returned d'
    /\ verify_account_ram_usage sample_gstio 8%N bob d' = Some (Manager InsufficientGas).
Proof.
  assert (H1 : is_u64 1000) by (int_consts; lia).
  assert (H2 : delta_ok 24) by (split; [lia|int_consts; lia]).
  assert (H3 : 0 <= 1000 + 24 <= UINT64_MAX) by (int_consts; lia).
  assert (H4 : is_i64 (-1)) by (int_consts; lia).
  assert (H5 : -1 < 0) by lia.
  destruct (add_pending_ram_usage_legacy_account sample_gstio 8%N bob 24 sample_store
              (mk_resource_usage_object bob empty_accumulator empty_accumulator 1000)
              (-1) 100 100 eq_refl eq_refl eq_refl H1 H2 H3 eq_refl H4
              (or_introl H5)) as (d' & Hrun & _ & _ & Hv).
  exists d'. split; [exact Hrun|]. rewrite Hv. reflexivity.
Defined.

(** X20.  [set_gas_limits] always returns and changes the activation table
    only.  Switching gas on leaves it on, whatever the store was; and since a
    first call leaves the activation row behind, a second call is obeyed:
    after it the switch is the flag that was passed. *)
Theorem set_gas_limits_obeyed (gstio : account_name) (first second : bool) (d : database) :
  exists d1 d2,
    set_gas_limits gstio first d = Returned d1
    /\ set_gas_limits gstio second d1 = Returned d2
    /\ with_activation (resource_activation_gst_index d) d1 = d
    /\ with_activation (resource_activation_gst_index d) d2 = d
    /\ (first = true -> is_activation gstio d1 = true)
    /\ is_activation gstio d2 = second.
Proof.
  assert (Hframe : forall flag d0 d0',
             set_gas_limits gstio flag d0 = Returned d0' ->
             with_activation (resource_activation_gst_index d0) d0' = d0).
  { intros flag d0 d0'. unfold set_gas_limits.
    destruct (find_row (activation_key true gstio) (resource_activation_gst_index d0));
      intros [= <-]; destruct d0; reflexivity. }
  assert (Hrow : exists d1 gas,
             set_gas_limits gstio first d = Returned d1
             /\ find_row (activation_key true gstio) (resource_activation_gst_index d1)
                = Some gas
             /\ (first = true -> is_activation gstio d1 = true)).
  { destruct (find_row (activation_key true gstio) (resource_activation_gst_index d))
      as [gas|] eqn:Hgas.
    - destruct (set_gas_limits_existing gstio first d gas Hgas) as (d1 & H1 & Hr & Ha).
      exists d1. eexists. split; [exact H1|]. split; [exact Hr|]. intros ->. exact Ha.
    - destruct (set_gas_limits_absent gstio first d Hgas) as (d1 & H1 & Hr & Ha).
      exists d1. eexists. split; [exact H1|]. split; [exact Hr|]. intros _. exact Ha. }
  destruct Hrow as (d1 & gas & H1 & Hgas & Hon).
  destruct (set_gas_limits_existing gstio second d1 gas Hgas) as (d2 & H2 & _ & Ha2).
  exists d1, d2. split; [exact H1|]. split; [exact H2|].
  pose proof (Hframe _ _ _ H1) as Hf1. pose proof (Hframe _ _ _ H2) as Hf2.
  split; [exact Hf1|]. split.
  - transitivity (with_activation (resource_activation_gst_index d) d1); [|exact Hf1].
    rewrite <- Hf2. destruct d2; reflexivity.
  - split; [exact Hon|exact Ha2].
Qed.

(** ** Accessors *)

Lemma get_account_limits_outcome (a : account_name) (d : database) :
  (exists x, get_account_limits a d = Returned x)
  \/ get_account_limits a d = Threw RowNotFound d.
Proof.
  unfold get_account_limits.
  destruct (find_row (limits_key true a) (resource_limits_index d));
    [left; eexists; reflexivity|].
  destruct (find_row (limits_key false a) (resource_limits_index d));
    [left; eexists; reflexivity|].
  right. reflexivity.
Qed.

(** The three casts at the end of both accessors. *)
Lemma downgrade_casts (d : database) (max_use used_in_window : Z) :
  match (arl_available <- (if max_use <=? used_in_window then Returned 0
                           else downgrade_cast d (max_use - used_in_window)) ;;
         arl_used <- downgrade_cast d used_in_window ;;
         arl_max <- downgrade_cast d max_use ;;
         Returned (mk_account_resource_limit arl_used arl_available arl_max)) with
  | Returned arl =>
      used arl = used_in_window /\ arl_max arl = max_use
      /\ 0 <= used arl <= INT64_MAX /\ 0 <= arl_max arl <= INT64_MAX
      /\ available arl = Z.max 0 (arl_max arl - used arl)
  | Threw e d' => e = StateInconsistent /\ d' = d
  | ThrewInModify _ => False
  end.
Proof.
  unfold downgrade_cast.
  destruct (Z.leb_spec max_use used_in_window) as [Hle|Hgt]; cbn [bind].
  - destruct ((0 <=? used_in_window) && (used_in_window <=? INT64_MAX)) eqn:Hu;
      cbn [bind]; [|split; reflexivity].
    destruct ((0 <=? max_use) && (max_use <=? INT64_MAX)) eqn:Hm;
      cbn [bind]; [|split; reflexivity].
    apply andb_true_iff in Hu as [Hu1 Hu2]. apply andb_true_iff in Hm as [Hm1 Hm2].
    apply Z.leb_le in Hu1, Hu2, Hm1, Hm2. cbn [used available arl_max].
    repeat split; lia.
  - destruct ((0 <=? max_use - used_in_window) && (max_use - used_in_window <=? INT64_MAX));
      cbn [bind]; [|split; reflexivity].
    destruct ((0 <=? used_in_window) && (used_in_window <=? INT64_MAX)) eqn:Hu;
      cbn [bind]; [|split; reflexivity].
    destruct ((0 <=? max_use) && (max_use <=? INT64_MAX)) eqn:Hm;
      cbn [bind]; [|split; reflexivity].
    apply andb_true_iff in Hu as [Hu1 Hu2]. apply andb_true_iff in Hm as [Hm1 Hm2].
    apply Z.leb_le in Hu1, Hu2, Hm1, Hm2. cbn [used available arl_max].
    repeat split; lia.
Qed.

(** X21.  What the account accessors report.  [get_account_cpu_limit_ex]
    fails only for a missing row or for a figure that does not fit a signed
    64-bit number, and leaves the database alone.  It returns the triple of
    -1 exactly when the CPU weight in force for the account is negative or
    the total CPU weight is zero; otherwise [used] and [max] are between 0
    and [INT64_MAX] and [available] is [max] less [used], or 0 when more is
    used than allowed.  [get_account_cpu_limit] returns the [available] of
    that triple and fails as it does. *)
Theorem get_account_cpu_limit_ex_range (rate_limiting_precision : Z) (name : account_name)
    (elastic : bool) (d : database) :
  match get_account_cpu_limit_ex rate_limiting_precision name elastic d with
  | Returned arl =>
      (arl = unlimited
       \/ 0 <= used arl <= INT64_MAX /\ 0 <= arl_max arl <= INT64_MAX
          /\ available arl = Z.max 0 (arl_max arl - used arl))
      /\ (forall state ram net cpu,
             get_state d = Some state ->
             get_account_limits name d = Returned (ram, net, cpu) ->
             (arl = unlimited <-> cpu < 0 \/ total_cpu_weight state = 0))
      /\ get_account_cpu_limit rate_limiting_precision name elastic d
         = Returned (available arl)
  | Threw e d' =>
      d' = d /\ (e = RowNotFound \/ e = StateInconsistent)
      /\ get_account_cpu_limit rate_limiting_precision name elastic d = Threw e d
  | ThrewInModify _ => False
  end.
Proof.
  unfold get_account_cpu_limit, get_account_cpu_limit_ex.
  destruct (get_state d) as [state|]; cbn [get bind]; [|auto].
  destruct (find_row (usage_key name) (resource_usage_index d)) as [usage|];
    cbn [get bind]; [|auto].
  destruct (get_config d) as [config|]; cbn [get bind]; [|auto].
  destruct (get_account_limits_outcome name d) as [[[[ram net] cpu] ->]| ->];
    cbn [bind]; [|auto].
  destruct (Z.ltb_spec cpu 0) as [Hneg|Hpos]; cbn [orb bind].
  { split; [left; reflexivity|]. split; [|reflexivity].
    intros ? ? ? ? [= <-] [= _ _ <-]. split; [intros _; left; exact Hneg|reflexivity]. }
  destruct (Z.eqb_spec (total_cpu_weight state) 0) as [Hzero|Hnz]; cbn [bind].
  { split; [left; reflexivity|]. split; [|reflexivity].
    intros ? ? ? ? [= <-] [= _ _ <-]. split; [intros _; right; exact Hzero|reflexivity]. }
  cbv zeta.
  match goal with
  | |- context [downgrade_cast d (?m - ?c)] =>
      pose proof (downgrade_casts d m c) as Hc; generalize dependent m; generalize dependent c
  end.
  intros c m. destruct (bind _ _) as [arl|e d'|e]; cbn [bind].
  - intros (Hu & Hm & Hur & Hmr & Ha). split; [right; auto|]. split; [|reflexivity].
    intros ? ? ? ? [= <-] [= _ _ <-]. split; [|intros [?|?]; [lia|contradiction]].
    intros ->. cbn [unlimited used] in Hur. lia.
  - intros [-> ->]. auto.
  - intros [].
Qed.

(** X22.  The same for the network bandwidth: [get_account_net_limit_ex]
    fails only for a missing row or for a figure that does not fit a signed
    64-bit number; it returns the triple of -1 exactly when the NET weight
    in force for the account is negative or the total NET weight is zero,
    and otherwise [used] and [max] between 0 and [INT64_MAX] with
    [available] the part of [max] that is not used;
    [get_account_net_limit] returns that [available]. *)
Theorem get_account_net_limit_ex_range (rate_limiting_precision : Z) (name : account_name)
    (elastic : bool) (d : database) :
  match get_account_net_limit_ex rate_limiting_precision name elastic d with
  | Returned arl =>
      (arl = unlimited
       \/ 0 <= used arl <= INT64_MAX /\ 0 <= arl_max arl <= INT64_MAX
          /\ available arl = Z.max 0 (arl_max arl - used arl))
      /\ (forall state ram net cpu,
             get_state d = Some state ->
             get_account_limits name d = Returned (ram, net, cpu) ->
             (arl = unlimited <-> net < 0 \/ total_net_weight state = 0))
      /\ get_account_net_limit rate_limiting_precision name elastic d
         = Returned (available arl)
  | Threw e d' =>
      d' = d /\ (e = RowNotFound \/ e = StateInconsistent)
      /\ get_account_net_limit rate_limiting_precision name elastic d = Threw e d
  | ThrewInModify _ => False
  end.
Proof.
  unfold get_account_net_limit, get_account_net_limit_ex.
  destruct (get_config d) as [config|]; cbn [get bind]; [|auto].
  destruct (get_state d) as [state|]; cbn [get bind]; [|auto].
  destruct (find_row (usage_key name) (resource_usage_index d)) as [usage|];
    cbn [get bind]; [|auto].
  destruct (get_account_limits_outcome name d) as [[[[ram net] cpu] ->]| ->];
    cbn [bind]; [|auto].
  destruct (Z.ltb_spec net 0) as [Hneg|Hpos]; cbn [orb bind].
  { split; [left; reflexivity|]. split; [|reflexivity].
    intros ? ? ? ? [= <-] [= _ <- _]. split; [intros _; left; exact Hneg|reflexivity]. }
  destruct (Z.eqb_spec (total_net_weight state) 0) as [Hzero|Hnz]; cbn [bind].
  { split; [left; reflexivity|]. split; [|reflexivity].
    intros ? ? ? ? [= <-] [= _ <- _]. split; [intros _; right; exact Hzero|reflexivity]. }
  cbv zeta.
  match goal with
  | |- context [downgrade_cast d (?m - ?c)] =>
      pose proof (downgrade_casts d m c) as Hc; generalize dependent m; generalize dependent c
  end.
  intros c m. destruct (bind _ _) as [arl|e d'|e]; cbn [bind].
  - intros (Hu & Hm & Hur & Hmr & Ha). split; [right; auto|]. split; [|reflexivity].
    intros ? ? ? ? [= <-] [= _ <- _]. split; [|intros [?|?]; [lia|contradiction]].
    intros ->. cbn [unlimited used] in Hur. lia.
  - intros [-> ->]. auto.
  - intros [].
Qed.

(** ** The first store *)

(** X23.  Slow start.  On the store that [initialize_database] makes out of
    the empty one, the virtual block limits are the maxima of the default
    configuration; and [set_block_parameters] with parameters that pass
    [validate] finds its row, returns, and leaves the virtual limits where
    they were, while the block limits follow the new maxima at once. *)
Theorem initialize_database_slow_start (new_config_object : resource_limits_config_object)
    (new_state_object : resource_limits_state_object)
    (cpu_limit_parameters' net_limit_parameters' : elastic_limit_parameters) :
  validate cpu_limit_parameters' = None ->
  validate net_limit_parameters' = None ->
  let d := initialize_database new_config_object new_state_object fresh_store in
  get_virtual_block_cpu_limit d = Returned (max (cpu_limit_parameters new_config_object))
  /\ get_virtual_block_net_limit d = Returned (max (net_limit_parameters new_config_object))
  /\ exists d',
       set_block_parameters cpu_limit_parameters' net_limit_parameters' d = inr (Returned d')
       /\ get_virtual_block_cpu_limit d'
          = Returned (max (cpu_limit_parameters new_config_object))
       /\ get_virtual_block_net_limit d'
          = Returned (max (net_limit_parameters new_config_object))
       /\ get_block_cpu_limit d'
          = Returned (u64 (max cpu_limit_parameters' - pending_cpu_usage new_state_object))
       /\ get_block_net_limit d'
          = Returned (u64 (max net_limit_parameters' - pending_net_usage new_state_object)).
Proof.
  intros Hcpu Hnet d.
  split; [reflexivity|]. split; [reflexivity|].
  unfold set_block_parameters. rewrite Hcpu, Hnet.
  eexists. split; [reflexivity|].
  repeat split; reflexivity.
Qed.

Lemma initialize_database_slow_start_witness :
  get_virtual_block_cpu_limit (initialize_database sample_config sample_new_state fresh_store)
  = Returned 1000
  /\ exists d',
       set_block_parameters sample_parameters sample_parameters
         (initialize_database sample_config sample_new_state fresh_store) = inr (Returned d')
       /\ get_virtual_block_cpu_limit d' = Returned 1000
       /\ get_block_cpu_limit d' = Returned 200000.
Proof.
  destruct (initialize_database_slow_start sample_config sample_new_state
              sample_parameters sample_parameters eq_refl eq_refl)
    as (Hv & _ & d' & Hset & Hv' & _ & Hb & _).
  split; [exact Hv|]. exists d'. split; [exact Hset|]. split; [exact Hv'|].
  rewrite Hb. reflexivity.
Defined.
